(** * Verification of the benchmark parsing and orchestration engine
      of [scripts/performance-test.py]

    The development embeds the class [PasswordCrackingBenchmark] shallowly:

    - a Python [str] is a [string] whose characters are code points below
      256 (one [ascii] per code point);
    - a Python [float] is an IEEE 754 binary64 value, [spec_float] with
      precision 53 and maximal exponent 1024, and arithmetic is the
      correctly rounded arithmetic of [SpecFloat];
    - a Python [dict] keyed by strings is a [gmap string _];
    - exceptions are explicit: fallible steps return a [result], and a
      [try]/[except] is a match on it;
    - the host (files, subprocesses, clock) is a record of outcomes the
      code observes, and the file system is threaded as a state. *)

From Stdlib Require Import ZArith Lia Bool Ascii String List.
From Stdlib Require Import Floats.SpecFloat.
From stdpp Require Import base option strings gmap.

Import ListNotations.
Local Open Scope string_scope.
Local Open Scope Z_scope.

(** ** Python values and exceptions *)

Module Py.

(** The exception classes the program can meet.  [KeyboardInterrupt] is a
    [BaseException] that is not an [Exception]: [except Exception] lets it
    through, a bare [except:] catches it. *)
Inductive exn : Type :=
| IndexError
| KeyError
| ValueError
| OSError
| FileNotFoundError
| TimeoutExpired
| KeyboardInterrupt.

Definition is_Exception (e : exn) : bool :=
  match e with
  | KeyboardInterrupt => false
  | _ => true
  end.

Inductive result (A : Type) : Type :=
| Ok (a : A)
| Raise (e : exn).
Arguments Ok {A} a.
Arguments Raise {A} e.

Definition bind {A B} (r : result A) (k : A -> result B) : result B :=
  match r with
  | Ok a => k a
  | Raise e => Raise e
  end.

#[global] Instance result_bind : MBind result := fun _ _ k r => bind r k.

Definition raises {A} (r : result A) : bool :=
  match r with
  | Ok _ => false
  | Raise _ => true
  end.

(** ** Characters *)

Definition code (c : ascii) : Z := Z.of_N (N_of_ascii c).

Definition chr (n : Z) : ascii := ascii_of_N (Z.to_N n).

Definition in_range (lo hi : Z) (c : ascii) : bool :=
  (lo <=? code c) && (code c <=? hi).

(** [str.isspace] on one code point below 256: the set used by
    [str.split()], [str.strip()] and the regular expression class [\s]. *)
Definition is_space (c : ascii) : bool :=
  in_range 9 13 c || in_range 28 32 c || (code c =? 133) || (code c =? 160).

(** The white space [float()] strips: the C locale set, and the two
    code points above 127 that the conversion turns into a blank. *)
Definition is_float_space (c : ascii) : bool :=
  in_range 9 13 c || (code c =? 32) || (code c =? 133) || (code c =? 160).

Definition is_digit (c : ascii) : bool := in_range 48 57 c.

Definition digit_value (c : ascii) : Z := code c - 48.

(** [str.lower] on one code point below 256. *)
Definition lower_char (c : ascii) : ascii :=
  if in_range 65 90 c || (in_range 192 222 c && negb (code c =? 215))
  then chr (code c + 32)
  else c.

(** ** Strings *)

Fixpoint lower (s : string) : string :=
  match s with
  | EmptyString => EmptyString
  | String c s' => String (lower_char c) (lower s')
  end.

(** [needle in s] *)
Fixpoint contains (needle s : string) : bool :=
  String.prefix needle s ||
  match s with
  | EmptyString => false
  | String _ s' => contains needle s'
  end.

(** [c in s] for a single character *)
Fixpoint mem_char (c : ascii) (s : string) : bool :=
  match s with
  | EmptyString => false
  | String d s' => Ascii.eqb c d || mem_char c s'
  end.

(** [s.split(sep)] for a one-character separator: never empty, keeps
    empty fields. *)
Fixpoint split_on (sep : ascii) (s : string) : list string :=
  match s with
  | EmptyString => [EmptyString]
  | String c s' =>
      if Ascii.eqb c sep then EmptyString :: split_on sep s'
      else match split_on sep s' with
           | cur :: rest => String c cur :: rest
           | [] => [String c EmptyString]
           end
  end.

(** [s.split()]: maximal runs of characters that are not white space. *)
Fixpoint split (s : string) : list string :=
  match s with
  | EmptyString => []
  | String c s' =>
      if is_space c then split s'
      else match s' with
           | EmptyString => [String c EmptyString]
           | String c' _ =>
               if is_space c' then String c EmptyString :: split s'
               else match split s' with
                    | cur :: rest => String c cur :: rest
                    | [] => [String c EmptyString]
                    end
           end
  end.

Fixpoint lstrip_with (sp : ascii -> bool) (s : string) : string :=
  match s with
  | EmptyString => EmptyString
  | String c s' => if sp c then lstrip_with sp s' else s
  end.

Fixpoint rstrip_with (sp : ascii -> bool) (s : string) : string :=
  match s with
  | EmptyString => EmptyString
  | String c s' =>
      match rstrip_with sp s' with
      | EmptyString => if sp c then EmptyString else String c EmptyString
      | r => String c r
      end
  end.

(** [s.strip()] *)
Definition strip (s : string) : string :=
  rstrip_with is_space (lstrip_with is_space s).

(** [s[-1]]: raises [IndexError] on the empty string. *)
Fixpoint last_char (s : string) : result ascii :=
  match s with
  | EmptyString => Raise IndexError
  | String c EmptyString => Ok c
  | String _ s' => last_char s'
  end.

(** [s[:-1]] *)
Fixpoint init (s : string) : string :=
  match s with
  | EmptyString => EmptyString
  | String _ EmptyString => EmptyString
  | String c s' => String c (init s')
  end.

(** [l[i]]: a negative index counts from the end; [IndexError] out of
    range. *)
Definition index {A} (l : list A) (i : Z) : result A :=
  let i' := if i <? 0 then i + Z.of_nat (length l) else i in
  if i' <? 0 then Raise IndexError
  else match nth_error l (Z.to_nat i') with
       | Some a => Ok a
       | None => Raise IndexError
       end.

(** [range(lo, hi)] *)
Definition range (lo hi : nat) : list nat := seq lo (hi - lo).

(** [enumerate(l)] *)
Definition enumerate {A} (l : list A) : list (nat * A) :=
  combine (seq 0 (length l)) l.

(** ** Floats *)

Definition prec : Z := 53.
Definition emax : Z := 1024.

Abbreviation float := spec_float.

Definition fmul : float -> float -> float := SFmul prec emax.
Definition fleb : float -> float -> bool := SFleb.
Definition feqb : float -> float -> bool := SFeqb.

(** The float nearest to [m * 10 ^ e] (ties to even) with sign [neg],
    for [0 <= m]: the value of a decimal literal or of [float(str)]. *)
Definition float_of_decimal (neg : bool) (m e : Z) : float :=
  match m with
  | Zpos p =>
      if 0 <=? e then binary_round prec emax neg (p * Z.to_pos (10 ^ e)) 0
      else
        let '(q, e', l) := SFdiv_core_binary prec emax (Zpos p) 0 (10 ^ (- e)) 0 in
        binary_round_aux prec emax neg q e' l
  | _ => S754_zero neg
  end.

(** The literal [0.0] *)
Definition zero : float := S754_zero false.

Fixpoint digits_value (acc : Z) (s : string) : Z :=
  match s with
  | EmptyString => acc
  | String c s' => digits_value (10 * acc + digit_value c) s'
  end.

Fixpoint all_digits (s : string) : bool :=
  match s with
  | EmptyString => true
  | String c s' => is_digit c && all_digits s'
  end.

(** The longest prefix of digits, and what follows it. *)
Fixpoint span_digits (s : string) : string * string :=
  match s with
  | EmptyString => (EmptyString, EmptyString)
  | String c s' =>
      if is_digit c then let '(d, r) := span_digits s' in (String c d, r)
      else (EmptyString, s)
  end.

(** An optional sign. *)
Definition take_sign (s : string) : bool * string :=
  match s with
  | String c s' =>
      if Ascii.eqb c "-" then (true, s')
      else if Ascii.eqb c "+" then (false, s')
      else (false, s)
  | EmptyString => (false, s)
  end.

(** Underscores of a numeric string: each one must follow a digit and
    come before a digit; the result is the string without them.  [prev]
    is the character before [s], the null character at the start. *)
Fixpoint drop_underscores (prev : ascii) (s : string) : option string :=
  match s with
  | EmptyString => if Ascii.eqb prev "_" then None else Some EmptyString
  | String c s' =>
      if Ascii.eqb c "_" then
        if is_digit prev then drop_underscores c s' else None
      else if Ascii.eqb prev "_" && negb (is_digit c) then None
      else String c <$> drop_underscores c s'
  end.

(** [digits [. digits] [(e|E) [sign] digits]] with at least one digit in
    the mantissa: the mantissa as an integer and the decimal exponent. *)
Definition parse_decimal (s : string) : option (Z * Z) :=
  let '(ip, r1) := span_digits s in
  let '(fp, r2) :=
    match r1 with
    | String c r => if Ascii.eqb c "." then span_digits r else (EmptyString, r1)
    | EmptyString => (EmptyString, r1)
    end in
  if (String.length ip + String.length fp =? 0)%nat then None
  else
    let m := digits_value 0 (ip ++ fp) in
    let fl := Z.of_nat (String.length fp) in
    match r2 with
    | EmptyString => Some (m, - fl)
    | String c r3 =>
        if Ascii.eqb c "e" || Ascii.eqb c "E" then
          let '(eneg, r4) := take_sign r3 in
          let '(ed, r5) := span_digits r4 in
          if negb (String.eqb ed EmptyString) && String.eqb r5 EmptyString then
            let x := digits_value 0 ed in
            Some (m, (if eneg then - x else x) - fl)
          else None
        else None
    end.

(** [float(s)] for a string: [None] stands for [ValueError]. *)
Definition float_of_str (s : string) : option float :=
  s1 ← drop_underscores "000" s;
  let s2 := rstrip_with is_float_space (lstrip_with is_float_space s1) in
  let '(neg, body) := take_sign s2 in
  let low := lower body in
  if String.eqb low "inf" || String.eqb low "infinity" then
    Some (S754_infinity neg)
  else if String.eqb low "nan" then Some S754_nan
  else '(m, e) ← parse_decimal body; Some (float_of_decimal neg m e).

Definition float_ (s : string) : result float :=
  match float_of_str s with
  | Some x => Ok x
  | None => Raise ValueError
  end.

End Py.

(** ** Regular expressions

    The fragment of Python's [re] the program uses, with the backtracking
    semantics of the library: greedy repetition, leftmost match. *)

Module Re.

Inductive atom : Type :=
| Digit                 (* \d *)
| Space                 (* \s *)
| AnyChar               (* .  *)
| Char (c : ascii)      (* a literal *)
| OneOf (cs : string).  (* [...] *)

Inductive regex : Type :=
| Atom (a : atom)
| Many (a : atom)            (* a* *)
| Many1 (a : atom)           (* a+ *)
| Maybe (r : regex)          (* (?:r)? *)
| Cat (r1 r2 : regex)
| Group (r : regex).         (* (r) *)

(** A match object: [group(0)] and the capturing groups, in the order
    they close. *)
Record match_object : Type := { group0 : string; groups : list string }.

Section Matcher.

(** [re.IGNORECASE] *)
Variable ignorecase : bool.

Definition matches (a : atom) (c : ascii) : bool :=
  match a with
  | Digit => Py.is_digit c
  | Space => Py.is_space c
  | AnyChar => negb (Ascii.eqb c "010")
  | Char d =>
      if ignorecase then Ascii.eqb (Py.lower_char c) (Py.lower_char d)
      else Ascii.eqb c d
  | OneOf cs =>
      if ignorecase then Py.mem_char (Py.lower_char c) (Py.lower cs)
      else Py.mem_char c cs
  end.

(** What [s] lost to reach its suffix [rest]. *)
Definition consumed (s rest : string) : string :=
  String.substring 0 (String.length s - String.length rest) s.

Section Exec.
Context {A : Type}.

(** Greedy [a*]: the longest run first, then shorter ones. *)
Fixpoint many (a : atom) (s : string) (k : string -> option A) : option A :=
  match s with
  | String c s' =>
      if matches a c then
        match many a s' k with
        | Some x => Some x
        | None => k s
        end
      else k s
  | EmptyString => k s
  end.

Fixpoint exec (r : regex) (s : string) (caps : list string)
    (k : list string -> string -> option A) : option A :=
  match r with
  | Atom a =>
      match s with
      | String c s' => if matches a c then k caps s' else None
      | EmptyString => None
      end
  | Many a => many a s (k caps)
  | Many1 a =>
      match s with
      | String c s' => if matches a c then many a s' (k caps) else None
      | EmptyString => None
      end
  | Maybe r1 =>
      match exec r1 s caps k with
      | Some x => Some x
      | None => k caps s
      end
  | Cat r1 r2 => exec r1 s caps (fun caps' s' => exec r2 s' caps' k)
  | Group r1 =>
      exec r1 s caps (fun caps' s' => k (caps' ++ [consumed s s'])%list s')
  end.

End Exec.

(** [re.match]: a match at the start of [s]. *)
Definition match_ (r : regex) (s : string) : option match_object :=
  exec r s [] (fun caps rest =>
    Some {| group0 := consumed s rest; groups := caps |}).

(** [re.search]: the first position with a match. *)
Fixpoint search (r : regex) (s : string) : option match_object :=
  match match_ r s with
  | Some m => Some m
  | None =>
      match s with
      | String _ s' => search r s'
      | EmptyString => None
      end
  end.

End Matcher.

(** [m.group(n)] *)
Definition group (m : match_object) (n : nat) : Py.result string :=
  match n with
  | O => Py.Ok (group0 m)
  | S n' => Py.index (groups m) (Z.of_nat n')
  end.

(** A literal word as a pattern. *)
Fixpoint word (w : string) (r : regex) : regex :=
  match w with
  | EmptyString => r
  | String c w' => Cat (Atom (Char c)) (word w' r)
  end.

End Re.

(** ** The benchmark class: parsers *)

Module Bench.

Import Py.

(** A [dict] whose keys are one-character strings. *)
Fixpoint char_dict_get {V} (d : list (ascii * V)) (c : ascii) : result V :=
  match d with
  | [] => Raise KeyError
  | (k, v) :: d' => if Ascii.eqb c k then Ok v else char_dict_get d' c
  end.

Definition char_dict_mem {V} (d : list (ascii * V)) (c : ascii) : bool :=
  negb (raises (char_dict_get d c)).

(** [dict[key]] *)
Definition dict_get {V} (d : gmap string V) (k : string) : result V :=
  match d !! k with
  | Some v => Ok v
  | None => Raise KeyError
  end.

(** The literals [1e3], [1e6], [1e9], [1e12] *)
Definition f1e3 : float := Eval vm_compute in float_of_decimal false 1 3.
Definition f1e6 : float := Eval vm_compute in float_of_decimal false 1 6.
Definition f1e9 : float := Eval vm_compute in float_of_decimal false 1 9.
Definition f1e12 : float := Eval vm_compute in float_of_decimal false 1 12.

Definition hashcat_multipliers : list (ascii * float) :=
  [("k"%char, f1e3); ("M"%char, f1e6); ("G"%char, f1e9); ("T"%char, f1e12)].

Definition john_multipliers : list (ascii * float) :=
  [("K"%char, f1e3); ("M"%char, f1e6); ("G"%char, f1e9)].

(** [parse_hashcat_speed]: the body of the [try], then the bare
    [except] that returns [0.0]. *)
Definition parse_hashcat_speed_try (speed_str : string) : result float :=
  c ← last_char speed_str;
  if char_dict_mem hashcat_multipliers c then
    x ← float_ (init speed_str);
    m ← char_dict_get hashcat_multipliers c;
    Ok (fmul x m)
  else float_ speed_str.

Definition parse_hashcat_speed (speed_str : string) : float :=
  match parse_hashcat_speed_try speed_str with
  | Ok v => v
  | Raise _ => zero
  end.

(** [parse_john_speed] *)
Definition parse_john_speed_try (speed_str : string) : result float :=
  c ← last_char speed_str;
  if char_dict_mem john_multipliers c then
    x ← float_ (init speed_str);
    m ← char_dict_get john_multipliers c;
    Ok (fmul x m)
  else float_ speed_str.

Definition parse_john_speed (speed_str : string) : float :=
  match parse_john_speed_try speed_str with
  | Ok v => v
  | Raise _ => zero
  end.

(** The values of the result dictionaries. *)
Record hashcat_metric : Type :=
  { speed_hs : float; speed_formatted : string }.

Record john_metric : Type :=
  { speed_cs : float; john_speed_formatted : string }.

Definition hash_types : gmap string string :=
  <["0" := "MD5"]> (<["100" := "SHA1"]> (<["1400" := "SHA256"]>
  (<["3200" := "bcrypt"]> (<["1800" := "SHA512"]> ∅)))).

(** [part in hash_types] *)
Definition in_hash_types (part : string) : bool :=
  bool_decide (is_Some (hash_types !! part)).

(** The loop [for j in range(i+1, len(parts))] of
    [parse_hashcat_benchmark], left at the first token with ["H/s"]. *)
Fixpoint find_speed (parts : list string) (part : string) (js : list nat)
    (results : gmap string hashcat_metric) : result (gmap string hashcat_metric) :=
  match js with
  | [] => Ok results
  | j :: js' =>
      pj ← index parts (Z.of_nat j);
      if contains "H/s" pj then
        speed_str ← index parts (Z.of_nat j - 1);
        let speed := parse_hashcat_speed speed_str in
        name ← dict_get hash_types part;
        before ← index parts (Z.of_nat j - 1);
        unit ← index parts (Z.of_nat j);
        Ok (<[name := {| speed_hs := speed;
                         speed_formatted := before ++ " " ++ unit |}]> results)
      else find_speed parts part js' results
  end.

(** One round of [for i, part in enumerate(parts)]: the [try] and its
    [except: continue]. *)
Definition hashcat_token (parts : list string)
    (results : gmap string hashcat_metric) (ip : nat * string) :
    gmap string hashcat_metric :=
  let '(i, part) := ip in
  if in_hash_types part then
    match find_speed parts part (range (i + 1) (length parts)) results with
    | Ok results' => results'
    | Raise _ => results
    end
  else results.

(** One round of [for line in lines]. *)
Definition hashcat_line (results : gmap string hashcat_metric) (line : string) :
    gmap string hashcat_metric :=
  if contains "H/s" line then
    let parts := split line in
    fold_left (hashcat_token parts) (enumerate parts) results
  else results.

Definition parse_hashcat_benchmark (output : string) : gmap string hashcat_metric :=
  let lines := split_on "010" output in
  fold_left hashcat_line lines ∅.

(** The pattern [(\d+(?:\.\d+)?[KMG]?)\s*c/s]: its group, then the
    whole. *)
Definition john_number_re : Re.regex :=
  Re.Cat (Re.Many1 Re.Digit)
    (Re.Cat (Re.Maybe (Re.Cat (Re.Atom (Re.Char ".")) (Re.Many1 Re.Digit)))
       (Re.Maybe (Re.Atom (Re.OneOf "KMG")))).

Definition john_speed_re : Re.regex :=
  Re.Cat (Re.Group john_number_re)
    (Re.Cat (Re.Many Re.Space)
       (Re.Cat (Re.Atom (Re.Char "c"))
          (Re.Cat (Re.Atom (Re.Char "/")) (Re.Atom (Re.Char "s"))))).

(** One round of [for line in lines] of [parse_john_benchmark]; nothing
    here is under a [try]. *)
Definition john_line (results : gmap string john_metric) (line : string) :
    result (gmap string john_metric) :=
  if contains "c/s" (lower line) then
    if contains ":" line then
      let parts := split_on ":" line in
      if (2 <=? length parts)%nat then
        p0 ← index parts 0;
        let hash_type := strip p0 in
        p1 ← index parts 1;
        let speed_part := strip p1 in
        match Re.search true john_speed_re speed_part with
        | Some speed_match =>
            speed_str ← Re.group speed_match 1;
            let speed := parse_john_speed speed_str in
            formatted ← Re.group speed_match 0;
            Ok (<[hash_type := {| speed_cs := speed;
                                  john_speed_formatted := formatted |}]> results)
        | None => Ok results
        end
      else Ok results
    else Ok results
  else Ok results.

Fixpoint john_lines (results : gmap string john_metric) (lines : list string) :
    result (gmap string john_metric) :=
  match lines with
  | [] => Ok results
  | line :: lines' =>
      results' ← john_line results line;
      john_lines results' lines'
  end.

Definition parse_john_benchmark (output : string) : result (gmap string john_metric) :=
  let lines := split_on "010" output in
  john_lines ∅ lines.

End Bench.

(** ** The host: files, subprocesses, clock *)

Module Host.

Import Py.

(** What the program can observe of its machine.  [files] maps the paths
    that exist to their contents; [clock] is [time.time()]. *)
Record world : Type := { files : gmap string string; clock : float }.

(** [subprocess.CompletedProcess] *)
Record completed : Type :=
  { returncode : Z; stdout : string; stderr : string }.

(** The behaviour of the machine: how a subprocess invocation ends and
    what it leaves behind, and which file operations are refused. *)
Record host : Type :=
  { now_isoformat : string;
    now_stamp : string;
    sys_platform : string;
    run_process : list string -> world -> result completed * world;
    int_max_str_digits : option nat;
    read_error : string -> world -> option exn;
    write_error : string -> world -> option exn;
    remove_error : string -> world -> option exn }.

(** Computations that read and change the world and may raise. *)
Definition M (A : Type) : Type := world -> result A * world.

Definition ret {A} (a : A) : M A := fun w => (Ok a, w).

Definition raise {A} (e : exn) : M A := fun w => (Raise e, w).

Definition bindM {A B} (m : M A) (k : A -> M B) : M B :=
  fun w =>
    match m w with
    | (Ok a, w') => k a w'
    | (Raise e, w') => (Raise e, w')
    end.

(** [try: m  except: h] with a bare [except]: what [m] did to the world
    before it raised stays done. *)
Definition try_except {A} (m : M A) (h : exn -> M A) : M A :=
  fun w =>
    match m w with
    | (Ok a, w') => (Ok a, w')
    | (Raise e, w') => h e w'
    end.

(** [try: m  except Exception: h] *)
Definition try_except_Exception {A} (m : M A) (h : exn -> M A) : M A :=
  try_except m (fun e => if is_Exception e then h e else raise e).

Definition lift {A} (r : result A) : M A := fun w => (r, w).

Declare Scope M_scope.
Delimit Scope M_scope with M.
Notation "'let*' x ':=' m 'in' k" := (bindM m (fun x => k))
  (at level 10, x pattern, m at level 100, k at level 200) : M_scope.

Section Operations.

Variable h : host.

(** [os.path.exists(path)] *)
Definition path_exists (path : string) : M bool :=
  fun w => (Ok (bool_decide (is_Some (files w !! path))), w).

(** [with open(path, 'r') as f: f.read()] *)
Definition read_file (path : string) : M string :=
  fun w =>
    match read_error h path w with
    | Some e => (Raise e, w)
    | None =>
        match files w !! path with
        | Some content => (Ok content, w)
        | None => (Raise FileNotFoundError, w)
        end
    end.

(** [with open(path, 'w') as f: ...] writing [content] *)
Definition write_file (path content : string) : M unit :=
  fun w =>
    match write_error h path w with
    | Some e => (Raise e, w)
    | None => (Ok tt, {| files := <[path := content]> (files w); clock := clock w |})
    end.

(** [os.remove(path)] *)
Definition os_remove (path : string) : M unit :=
  fun w =>
    match remove_error h path w with
    | Some e => (Raise e, w)
    | None =>
        match files w !! path with
        | Some _ => (Ok tt, {| files := delete path (files w); clock := clock w |})
        | None => (Raise FileNotFoundError, w)
        end
    end.

(** [subprocess.run(argv, capture_output=True, timeout=...)]: an expired
    timeout is the outcome [Raise TimeoutExpired]. *)
Definition subprocess_run (argv : list string) : M completed :=
  run_process h argv.

(** [time.time()] *)
Definition time_time : M float := fun w => (Ok (clock w), w).

End Operations.

End Host.

(** ** The benchmark class: orchestration *)

Module Engine.

Import Py Host Bench.
Local Open Scope M_scope.

(** The dictionary [system_info]: two keys always present, three optional. *)
Record system_info : Type :=
  { timestamp : string;
    platform : string;
    cpu : option string;
    memory_gb : option Z;
    gpu : option string }.

Definition set_cpu (v : string) (i : system_info) : system_info :=
  {| timestamp := timestamp i; platform := platform i;
     cpu := Some v; memory_gb := memory_gb i; gpu := gpu i |}.

Definition set_memory_gb (v : Z) (i : system_info) : system_info :=
  {| timestamp := timestamp i; platform := platform i;
     cpu := cpu i; memory_gb := Some v; gpu := gpu i |}.

Definition set_gpu (v : string) (i : system_info) : system_info :=
  {| timestamp := timestamp i; platform := platform i;
     cpu := cpu i; memory_gb := memory_gb i; gpu := Some v |}.

(** A number that is an [int] or a [float]. *)
Inductive number : Type :=
| PyInt (n : Z)
| PyFloat (x : float).

Record attack_result : Type := { time_seconds : number; success : bool }.

Record tools_available : Type := { hashcat : bool; john_the_ripper : bool }.

Record metadata : Type :=
  { md_timestamp : string;
    md_system_info : system_info;
    md_tools_available : tools_available }.

(** The dictionary [report['benchmarks']]: each key is set only when its
    tool is available. *)
Record benchmarks : Type :=
  { bm_hashcat : option (gmap string hashcat_metric);
    bm_john_the_ripper : option (gmap string john_metric) }.

Record report : Type :=
  { rp_metadata : metadata;
    rp_benchmarks : benchmarks;
    rp_performance_tests : gmap string attack_result }.

(** The attributes of [self] the methods read. *)
Record instance : Type :=
  { self_system_info : system_info; self_timestamp : string }.

(** The pattern [model name\s*:\s*(.+)] *)
Definition cpu_model_re : Re.regex :=
  Re.word "model name"
    (Re.Cat (Re.Many Re.Space)
       (Re.Cat (Re.Atom (Re.Char ":"))
          (Re.Cat (Re.Many Re.Space) (Re.Group (Re.Many1 Re.AnyChar))))).

(** The pattern [MemTotal:\s*(\d+)] *)
Definition mem_total_re : Re.regex :=
  Re.word "MemTotal:"
    (Re.Cat (Re.Many Re.Space) (Re.Group (Re.Many1 Re.Digit))).

Section Methods.

Variable h : host.

(** [int(s)] on the strings the program passes, runs of digits; the
    interpreter may refuse a numeral longer than its digit limit. *)
Definition int_ (s : string) : result Z :=
  match s with
  | EmptyString => Raise ValueError
  | _ =>
      if negb (all_digits s) then Raise ValueError
      else match int_max_str_digits h with
           | Some n => if (n <? String.length s)%nat then Raise ValueError
                       else Ok (digits_value 0 s)
           | None => Ok (digits_value 0 s)
           end
  end.

(** The three blocks of [gather_system_info]; each one returns the
    dictionary as it leaves it. *)
Definition collect_cpu (info : system_info) : M system_info :=
  let* present := path_exists "/proc/cpuinfo" in
  if (present : bool) then
    let* cpu_info := read_file h "/proc/cpuinfo" in
    match Re.search false cpu_model_re cpu_info with
    | Some cpu_model =>
        let* g := lift (Re.group cpu_model 1) in
        ret (set_cpu (strip g) info)
    | None => ret info
    end
  else ret info.

Definition collect_memory (info : system_info) : M system_info :=
  let* present := path_exists "/proc/meminfo" in
  if (present : bool) then
    let* mem_info := read_file h "/proc/meminfo" in
    match Re.search false mem_total_re mem_info with
    | Some mem_total =>
        let* g := lift (Re.group mem_total 1) in
        let* kb := lift (int_ g) in
        ret (set_memory_gb (kb / 1024 / 1024) info)
    | None => ret info
    end
  else ret info.

Definition nvidia_smi : list string :=
  ["nvidia-smi"; "--query-gpu=name"; "--format=csv,noheader"].

Definition collect_gpu (info : system_info) : M system_info :=
  try_except
    (let* gpu_result := subprocess_run h nvidia_smi in
     if returncode gpu_result =? 0 then
       let* first := lift (index (split_on "010" (strip (stdout gpu_result))) 0) in
       ret (set_gpu first info)
     else ret info)
    (fun _ => ret (set_gpu "Not available" info)).

(** [gather_system_info]: the outer [try] holds the three blocks in a
    row, and [except Exception] returns the dictionary as the blocks
    completed so far have filled it. *)
Definition gather_system_info : M system_info :=
  fun w =>
    let info0 :=
      {| timestamp := now_isoformat h; platform := sys_platform h;
         cpu := None; memory_gb := None; gpu := None |} in
    let handler (info : system_info) (e : exn) (w' : world) :=
      if is_Exception e then (Ok info, w') else (Raise e, w') in
    match collect_cpu info0 w with
    | (Raise e, w1) => handler info0 e w1
    | (Ok info1, w1) =>
        match collect_memory info1 w1 with
        | (Raise e, w2) => handler info1 e w2
        | (Ok info2, w2) =>
            match collect_gpu info2 w2 with
            | (Raise e, w3) => handler info2 e w3
            | (Ok info3, w3) => (Ok info3, w3)
            end
        end
    end.

(** [__init__] *)
Definition init_instance : M instance :=
  let* info := gather_system_info in
  ret {| self_system_info := info; self_timestamp := now_stamp h |}.

Definition check_tool_availability : M (bool * bool) :=
  let* hashcat_available :=
    try_except
      (let* _ := subprocess_run h ["hashcat"; "--version"] in ret true)
      (fun _ => ret false) in
  let* john_available :=
    try_except
      (let* _ := subprocess_run h ["john"; "--version"] in ret true)
      (fun _ => ret false) in
  ret (hashcat_available, john_available).

Definition benchmark_hashcat : M (gmap string hashcat_metric) :=
  try_except_Exception
    (let* result := subprocess_run h ["hashcat"; "-b"; "-m"; "0,100,1400,3200,1800"] in
     if negb (returncode result =? 0) then ret ∅
     else ret (parse_hashcat_benchmark (stdout result)))
    (fun _ => ret ∅).

Definition benchmark_john : M (gmap string john_metric) :=
  try_except_Exception
    (let* result := subprocess_run h ["john"; "--test=10"] in
     lift (parse_john_benchmark (stdout result ++ stderr result)))
    (fun _ => ret ∅).

Definition test_hashes : list string :=
  ["5f4dcc3b5aa765d61d8327deb882cf99";
   "e10adc3949ba59abbe56e057f20f883e";
   "21232f297a57a5a743894a0e4a801fc3"].

Definition wordlist : list string :=
  ["password"; "123456"; "admin"; "test"; "hello"; "world"; "secret"].

(** What the loop of [f.write(f"{x}\n")] writes. *)
Fixpoint lines_text (l : list string) : string :=
  match l with
  | [] => EmptyString
  | x :: l' => x ++ String "010" (lines_text l')
  end.

Definition hash_file_name (self : instance) : string :=
  "test_hashes_" ++ self_timestamp self ++ ".txt".

Definition wordlist_file_name (self : instance) : string :=
  "test_wordlist_" ++ self_timestamp self ++ ".txt".

Definition failed_attack : attack_result :=
  {| time_seconds := PyInt 0; success := false |}.

(** One timed attack under its [try]/[except]. *)
Definition timed_attack (key : string) (argv : list string)
    (results : gmap string attack_result) : M (gmap string attack_result) :=
  try_except
    (let* start_time := time_time in
     let* result := subprocess_run h argv in
     let* end_time := time_time in
     let elapsed_time := SFsub prec emax end_time start_time in
     ret (<[key := {| time_seconds := PyFloat elapsed_time;
                      success := returncode result =? 0 |}]> results))
    (fun _ => ret (<[key := failed_attack]> results)).

(** The last block of [run_attack_performance_test] *)
Definition cleanup (hash_file wordlist_file : string) : M unit :=
  try_except
    (let* _ := os_remove h hash_file in os_remove h wordlist_file)
    (fun _ => ret tt).

(** The command lines of the two attacks. *)
Definition hashcat_attack (hash_file wordlist_file : string) : list string :=
  ["hashcat"; "-m"; "0"; hash_file; wordlist_file; "--potfile-disable"; "--quiet"].

Definition john_attack (hash_file wordlist_file : string) : list string :=
  ["john"; "--wordlist=" ++ wordlist_file; hash_file; "--format=Raw-MD5"].

Definition run_attack_performance_test (self : instance) :
    M (gmap string attack_result) :=
  let hash_file := hash_file_name self in
  let* _ := write_file h hash_file (lines_text test_hashes) in
  let wordlist_file := wordlist_file_name self in
  let* _ := write_file h wordlist_file (lines_text wordlist) in
  let results : gmap string attack_result := ∅ in
  let* results :=
    timed_attack "hashcat_dictionary" (hashcat_attack hash_file wordlist_file)
      results in
  let* results :=
    timed_attack "john_dictionary" (john_attack hash_file wordlist_file)
      results in
  let* _ := cleanup hash_file wordlist_file in
  ret results.

Definition generate_report (self : instance) : M report :=
  let* (hashcat_available, john_available) := check_tool_availability in
  let md :=
    {| md_timestamp := self_timestamp self;
       md_system_info := self_system_info self;
       md_tools_available :=
         {| hashcat := hashcat_available; john_the_ripper := john_available |} |} in
  let* bh :=
    if (hashcat_available : bool) then
      let* b := benchmark_hashcat in ret (Some b)
    else ret None in
  let* bj :=
    if (john_available : bool) then
      let* b := benchmark_john in ret (Some b)
    else ret None in
  let* tests :=
    if hashcat_available || john_available then run_attack_performance_test self
    else ret ∅ in
  ret {| rp_metadata := md;
         rp_benchmarks := {| bm_hashcat := bh; bm_john_the_ripper := bj |};
         rp_performance_tests := tests |}.

End Methods.

End Engine.

(** ** The vocabulary of the properties *)

Module Spec.

Import Py Host Bench Engine.

(** A decimal numeral: digits, then possibly a point and digits. *)
Definition is_numeral (s : string) : bool :=
  let '(ip, r) := span_digits s in
  negb (String.eqb ip EmptyString) &&
  match r with
  | EmptyString => true
  | String c fp =>
      Ascii.eqb c "." && all_digits fp && negb (String.eqb fp EmptyString)
  end.

(** The float a decimal numeral denotes: its digits as an integer, scaled
    by the number of digits after the point. *)
Definition numeral_value (s : string) : float :=
  let '(ip, r) := span_digits s in
  let fp := match r with String _ fp => fp | EmptyString => EmptyString end in
  float_of_decimal false (digits_value 0 (ip ++ fp)) (- Z.of_nat (String.length fp)).

(** The same, as a shape. *)
Inductive numeral_shape : string -> Prop :=
| shape_int (ip : string) :
    ip <> EmptyString -> all_digits ip = true -> numeral_shape ip
| shape_frac (ip fp : string) :
    ip <> EmptyString -> all_digits ip = true ->
    fp <> EmptyString -> all_digits fp = true ->
    numeral_shape (ip ++ String "." fp).

(** A string that does not start with a digit. *)
Definition no_digit_head (r : string) : Prop :=
  match r with
  | String c _ => is_digit c = false
  | EmptyString => True
  end.

(** A string of digits and points. *)
Fixpoint plain (s : string) : Prop :=
  match s with
  | EmptyString => True
  | String c s' => (is_digit c = true \/ c = "."%char) /\ plain s'
  end.

(** A numeral, alone or followed by one suffix of the table. *)
Definition well_formed {V} (table : list (ascii * V)) (s : string) : bool :=
  is_numeral s ||
  match last_char s with
  | Ok c => char_dict_mem table c && is_numeral (init s)
  | Raise _ => false
  end.

(** The string a normalizer hands to [float()]. *)
Definition float_operand {V} (table : list (ascii * V)) (s : string) : string :=
  match last_char s with
  | Ok c => if char_dict_mem table c then init s else s
  | Raise _ => s
  end.

(** The two normalizers are one function of the table. *)
Definition normalize (table : list (ascii * float)) (speed_str : string) : float :=
  match
    (c ← last_char speed_str;
     if char_dict_mem table c then
       x ← float_ (init speed_str);
       m ← char_dict_get table c;
       Ok (fmul x m)
     else float_ speed_str)
  with
  | Ok v => v
  | Raise _ => zero
  end.

(** The value [x] of the operand of [s], times the multiplier of the last
    character of [s] when that character is a key of the table. *)
Definition scaled (table : list (ascii * float)) (s : string) (x : float) : float :=
  match last_char s with
  | Ok c =>
      match char_dict_get table c with
      | Ok m => fmul x m
      | Raise _ => x
      end
  | Raise _ => x
  end.

(** What a normalizer [f] with suffix table [table] does: a numeral with
    a suffix of the table, a bare numeral, a string [float()] refuses, a
    numeral with an unknown last character, the empty string, and every
    string whose operand [float()] accepts. *)
Definition normalizer_spec (table : list (ascii * float)) (f : string -> float) : Prop :=
  (forall d c m, is_numeral d = true -> char_dict_get table c = Ok m ->
     f (d ++ String c EmptyString) = fmul (numeral_value d) m) /\
  (forall d, is_numeral d = true -> f d = numeral_value d) /\
  (forall s, float_of_str (float_operand table s) = None -> f s = zero) /\
  (forall d c, is_numeral d = true -> char_dict_mem table c = false ->
     is_digit c = false -> c <> "."%char -> is_float_space c = false ->
     f (d ++ String c EmptyString) = zero) /\
  f EmptyString = zero /\
  (forall s x, float_of_str (float_operand table s) = Some x ->
     f s = scaled table s x).

(** [0.0 <= x] *)
Definition nonneg (x : float) : Prop := fleb zero x = true.

(** A float that is a zero, a finite number or an infinity of sign [s]. *)
Definition has_sign (s : bool) (x : float) : Prop :=
  match x with
  | S754_zero s' | S754_infinity s' | S754_finite s' _ _ => s' = s
  | S754_nan => False
  end.

(** The index of the first token after index [i] that holds the unit
    marker. *)
Definition later_unit (parts : list string) (i : nat) : option nat :=
  find (fun j => contains "H/s" (nth j parts EmptyString))
       (range (i + 1) (length parts)).

(** A line of the first tool's grammar: the unit marker, and a known
    mode code with a later token that holds the unit marker. *)
Definition hashcat_line_matches (line : string) : bool :=
  contains "H/s" line &&
  existsb (fun ip : nat * string =>
             in_hash_types (snd ip) &&
             bool_decide (is_Some (later_unit (split line) (fst ip))))
          (enumerate (split line)).

(** The metric a mode code at index [i] yields when the first later
    token with the unit marker is at index [j]. *)
Definition metric_at (parts : list string) (j : nat) : hashcat_metric :=
  {| speed_hs := parse_hashcat_speed (nth (j - 1) parts EmptyString);
     speed_formatted :=
       nth (j - 1) parts EmptyString ++ " " ++ nth j parts EmptyString |}.

(** A line of the second tool's grammar: the unit marker in any case, a
    colon, and a speed in the field after the first colon. *)
Definition john_line_matches (line : string) : bool :=
  contains "c/s" (lower line) && contains ":" line &&
  match split_on ":" line with
  | _ :: p1 :: _ => bool_decide (is_Some (Re.search true john_speed_re (strip p1)))
  | _ => false
  end.

(** The label of a line of the second tool: the field before the first
    colon, trimmed. *)
Definition john_label (line : string) : string :=
  match split_on ":" line with
  | p0 :: _ => strip p0
  | [] => EmptyString
  end.

(** The language of a pattern. *)
Fixpoint all_match (ic : bool) (a : Re.atom) (w : string) : Prop :=
  match w with
  | EmptyString => True
  | String c w' => Re.matches ic a c = true /\ all_match ic a w'
  end.

Fixpoint lang (ic : bool) (r : Re.regex) (w : string) : Prop :=
  match r with
  | Re.Atom a => exists c, w = String c EmptyString /\ Re.matches ic a c = true
  | Re.Many a => all_match ic a w
  | Re.Many1 a => w <> EmptyString /\ all_match ic a w
  | Re.Maybe r1 => w = EmptyString \/ lang ic r1 w
  | Re.Cat r1 r2 => exists w1 w2, w = w1 ++ w2 /\ lang ic r1 w1 /\ lang ic r2 w2
  | Re.Group r1 => lang ic r1 w
  end.

Fixpoint group_free (r : Re.regex) : bool :=
  match r with
  | Re.Atom _ | Re.Many _ | Re.Many1 _ => true
  | Re.Maybe r1 => group_free r1
  | Re.Cat r1 r2 => group_free r1 && group_free r2
  | Re.Group _ => false
  end.

(** The dictionary [gather_system_info] starts from. *)
Definition info0 (h : host) : system_info :=
  {| timestamp := now_isoformat h; platform := sys_platform h;
     cpu := None; memory_gb := None; gpu := None |}.

(** One round of the loop over the tokens, in closed form. *)
Definition token_step (parts : list string)
    (r : gmap string hashcat_metric) (ip : nat * string) : gmap string hashcat_metric :=
  match hash_types !! snd ip, later_unit parts (fst ip) with
  | Some name, Some j => <[name := metric_at parts j]> r
  | _, _ => r
  end.

(** Worlds with one file less, one file more. *)
Definition without (path : string) (w : world) : world :=
  {| files := delete path (files w); clock := clock w |}.

Definition with_file (path content : string) (w : world) : world :=
  {| files := <[path := content]> (files w); clock := clock w |}.

(** The world [run_attack_performance_test] cleans up: both fixtures
    written, both attacks attempted. *)
Definition attacks_world (h : host) (self : instance) (w : world) : world :=
  let hf := hash_file_name self in
  let wf := wordlist_file_name self in
  let w2 := with_file wf (lines_text wordlist)
              (with_file hf (lines_text test_hashes) w) in
  let '(r1, wa) := timed_attack h "hashcat_dictionary" (hashcat_attack hf wf) ∅ w2 in
  let results1 := match r1 with Ok r => r | Raise _ => ∅ end in
  snd (timed_attack h "john_dictionary" (john_attack hf wf) results1 wa).

(** A fact of the host as one block of the collector yields it. *)
Definition fact {A} (proj : system_info -> option A)
    (r : result system_info * world) : option A :=
  match fst r with
  | Ok info => proj info
  | Raise _ => None
  end.

Definition put_cpu (o : option string) (i : system_info) : system_info :=
  match o with Some v => set_cpu v i | None => i end.

Definition put_memory_gb (o : option Z) (i : system_info) : system_info :=
  match o with Some v => set_memory_gb v i | None => i end.

Definition put_gpu (o : option string) (i : system_info) : system_info :=
  match o with Some v => set_gpu v i | None => i end.

(** The speed line of the second tool's grammar and its metric. *)
Definition raw_md5_line : string := "Raw-MD5 : 3456 c/s real, 3456 c/s virtual".

Definition nl : string := String "010" EmptyString.

Definition f12_4 : float := Eval vm_compute in float_of_decimal false 124 (-1).
Definition f12_4e6 : float := Eval vm_compute in float_of_decimal false 124 5.
Definition f3456 : float := Eval vm_compute in float_of_decimal false 3456 0.
Definition f100 : float := Eval vm_compute in float_of_decimal false 100 0.

Definition raw_md5_metric : john_metric :=
  {| speed_cs := f3456; john_speed_formatted := "3456 c/s" |}.

End Spec.

(** ** Sample machines *)

Module Sample.

Import Py Host Engine.

Definition no_error : string -> world -> option exn := fun _ _ => None.

(** Every subprocess ends with exit code 0 and no output. *)
Definition tools_succeed : list string -> world -> result completed * world :=
  fun _ w => (Ok {| returncode := 0; stdout := EmptyString; stderr := EmptyString |}, w).

(** No program can be launched. *)
Definition tools_absent : list string -> world -> result completed * world :=
  fun _ w => (Raise FileNotFoundError, w).

Definition machine (run : list string -> world -> result completed * world)
    (rd wr rm : string -> world -> option exn) : host :=
  {| now_isoformat := "2024-01-01T00:00:00";
     now_stamp := "20240101_000000";
     sys_platform := "linux";
     run_process := run;
     int_max_str_digits := Some 4300%nat;
     read_error := rd;
     write_error := wr;
     remove_error := rm |}.

(** The instance [__init__] builds on a machine without [nvidia-smi] and
    without [/proc]. *)
Definition self0 : instance :=
  {| self_system_info :=
       set_gpu "Not available"
         (Spec.info0 (machine tools_absent no_error no_error no_error));
     self_timestamp := "20240101_000000" |}.

Definition empty_world : world := {| files := ∅; clock := zero |}.

(** A machine with both tools and no refused operation. *)
Definition healthy : host := machine tools_succeed no_error no_error no_error.

(** A machine without the tools. *)
Definition bare : host := machine tools_absent no_error no_error no_error.

(** The word list cannot be written. *)
Definition wordlist_refused : host :=
  machine tools_succeed no_error
    (fun path _ => if String.prefix "test_wordlist_" path then Some OSError else None)
    no_error.

(** The hash file cannot be written. *)
Definition hashes_refused : host :=
  machine tools_succeed no_error
    (fun path _ => if String.prefix "test_hashes_" path then Some OSError else None)
    no_error.

(** [/proc/cpuinfo] exists and cannot be read; the memory size and the
    accelerator are there to be read. *)
Definition proc_world : world :=
  {| files := <["/proc/cpuinfo" := "model name : Example CPU"]>
                (<["/proc/meminfo" := "MemTotal:       16777216 kB"]> ∅);
     clock := zero |}.

Definition gpu_present : list string -> world -> result completed * world :=
  fun _ w => (Ok {| returncode := 0; stdout := "Example GPU" ++ Spec.nl;
                    stderr := EmptyString |}, w).


Definition all_readable : host := machine gpu_present no_error no_error no_error.

End Sample.

(** ** Further vocabulary *)

Module More.

Import Py Host Bench Engine Spec.

(** A string that does not start with a character of the class. *)
Definition no_head (ic : bool) (a : Re.atom) (s : string) : Prop :=
  match s with
  | String c _ => Re.matches ic a c = false
  | EmptyString => True
  end.

(** [w] occurs in [pre ++ s] at a position inside [pre]. *)
Fixpoint occurs_before (w pre s : string) : bool :=
  match pre with
  | EmptyString => false
  | String c pre' => String.prefix w (pre ++ s) || occurs_before w pre' s
  end.

(** A run of white space. *)
Fixpoint blank (s : string) : bool :=
  match s with
  | EmptyString => true
  | String c s' => is_space c && blank s'
  end.

(** A string with no white space at either end. *)
Definition trimmed (s : string) : Prop := strip s = s.

(** A string without white space. *)
Fixpoint solid (s : string) : bool :=
  match s with
  | EmptyString => true
  | String c s' => negb (is_space c) && solid s'
  end.


(** The five algorithm names. *)
Definition algorithms : list string := ["MD5"; "SHA1"; "SHA256"; "bcrypt"; "SHA512"].

(** A step of a loop that only adds entries: what it does to a
    dictionary is what it does to the empty one, laid over the
    dictionary. *)
Definition overlays {V B} (f : gmap string V -> B -> gmap string V) : Prop :=
  forall r x, f r x = f ∅ x ∪ r.

(** What may stand behind the numeral of a speed: nothing, or one of the
    letters K, M, G in either case. *)
Definition speed_suffix (suf : string) : Prop :=
  suf = EmptyString \/
  exists c, suf = String c EmptyString /\ mem_char (lower_char c) "kmg" = true.

(** What the pattern of the second parser has behind its group: white
    space and the unit, [\s*c/s]. *)
Definition john_unit_re : Re.regex :=
  Re.Cat (Re.Many Re.Space)
    (Re.Cat (Re.Atom (Re.Char "c"))
       (Re.Cat (Re.Atom (Re.Char "/")) (Re.Atom (Re.Char "s")))).

(** A line of the second tool: a label, a colon, and in the field behind
    it a numeral with its suffix, white space and the unit. *)
Definition speed_line (label lead d suf ws u rest : string) : string :=
  label ++ ":" ++ lead ++ d ++ suf ++ ws ++ u ++ rest.

(** The entry of an attack that started at time [start] and ended as
    [r]. *)
Definition attack_entry (start : float) (r : result completed * world) :
    attack_result :=
  match fst r with
  | Ok c => {| time_seconds := PyFloat (SFsub prec emax (clock (snd r)) start);
               success := returncode c =? 0 |}
  | Raise _ => failed_attack
  end.

(** A machine whose subprocesses leave the files as they are. *)
Definition tools_keep_files (h : host) : Prop :=
  forall argv w, files (snd (run_process h argv w)) = files w.

(** A machine that refuses no write and no removal. *)
Definition no_refusals (h : host) : Prop :=
  forall path w, write_error h path w = None /\ remove_error h path w = None.

(** The command lines of the probes and of the benchmarks. *)
Definition hashcat_probe : list string := ["hashcat"; "--version"].
Definition john_probe : list string := ["john"; "--version"].
Definition hashcat_bench : list string := ["hashcat"; "-b"; "-m"; "0,100,1400,3200,1800"].
Definition john_bench : list string := ["john"; "--test=10"].

(** A machine whose tools print speeds, with exit code 1. *)
Definition tools_report : list string -> world -> result completed * world :=
  fun _ w => (Ok {| returncode := 1;
                    stdout := "Raw-SHA1 : 2K c/s" ++ nl;
                    stderr := raw_md5_line |}, w).

Definition reporting : host :=
  Sample.machine tools_report Sample.no_error Sample.no_error Sample.no_error.

(** A machine with hashcat alone: every other program fails to launch. *)
Definition hashcat_only : list string -> world -> result completed * world :=
  fun argv w =>
    match argv with
    | prog :: _ =>
        if String.eqb prog "hashcat"
        then (Ok {| returncode := 0; stdout := "0 12.4 MH/s" ++ nl;
                    stderr := EmptyString |}, w)
        else (Raise FileNotFoundError, w)
    | [] => (Raise FileNotFoundError, w)
    end.

Definition one_tool : host :=
  Sample.machine hashcat_only Sample.no_error Sample.no_error Sample.no_error.

(** The report of that machine. *)
Definition one_tool_report : report :=
  {| rp_metadata :=
       {| md_timestamp := self_timestamp Sample.self0;
          md_system_info := self_system_info Sample.self0;
          md_tools_available := {| hashcat := true; john_the_ripper := false |} |};
     rp_benchmarks :=
       {| bm_hashcat := Some (parse_hashcat_benchmark ("0 12.4 MH/s" ++ nl));
          bm_john_the_ripper := None |};
     rp_performance_tests :=
       <["john_dictionary" := failed_attack]>
         (<["hashcat_dictionary" :=
              {| time_seconds := PyFloat zero; success := true |}]> ∅) |}.

(** The hash file cannot be removed. *)
Definition hashes_kept : host :=
  Sample.machine Sample.tools_succeed Sample.no_error Sample.no_error
    (fun path _ => if String.prefix "test_hashes_" path then Some OSError else None).

(** *** Saving the report

    What the libraries of the interpreter do is a parameter of the
    methods below: the text [json.dump] writes for a report, the text
    [csv.writer] writes for a list of rows, and the order in which a
    dictionary yields its entries (the order of first insertion, which
    the mappings of this development do not record). *)

(** A cell handed to [writer.writerow]. *)
Inductive cell : Type :=
| CStr (s : string)
| CNum (x : number).

Record library : Type :=
  { json_dump : report -> string;
    csv_text : list (list cell) -> string;
    dict_items : forall V : Type, gmap string V -> list (string * V) }.

(** A dictionary yields each entry once. *)
Definition items_are_entries (lib : library) : Prop :=
  forall (V : Type) (m : gmap string V), dict_items lib V m ≡ₚ map_to_list m.

(** [os.path.join(a, b)] of [posixpath] *)
Definition path_join (a b : string) : string :=
  if String.prefix "/" b then b
  else if String.eqb a EmptyString then a ++ b
  else match last_char a with
       | Ok c => if Ascii.eqb c "/" then a ++ b else a ++ "/" ++ b
       | Raise _ => a ++ b
       end.

Definition csv_header : list cell :=
  [CStr "Tool"; CStr "Hash Type"; CStr "Speed (H/s)"; CStr "Speed Formatted"].

Definition hashcat_row (kv : string * hashcat_metric) : list cell :=
  [CStr "Hashcat"; CStr (fst kv); CNum (PyFloat (speed_hs (snd kv)));
   CStr (speed_formatted (snd kv))].

Definition john_row (kv : string * john_metric) : list cell :=
  [CStr "John the Ripper"; CStr (fst kv); CNum (PyFloat (speed_cs (snd kv)));
   CStr (john_speed_formatted (snd kv))].

(** [report.get('benchmarks', {}).get(tool, {})] *)
Definition get_or_empty {V} (o : option (gmap string V)) : gmap string V :=
  match o with
  | Some m => m
  | None => ∅
  end.

Section Saving.

Variable h : host.
Variable lib : library.

Local Open Scope M_scope.

(** The rows [save_results] hands to the writer, in order. *)
Definition csv_rows (rep : report) : list (list cell) :=
  csv_header ::
  (map hashcat_row
     (dict_items lib _ (get_or_empty (bm_hashcat (rp_benchmarks rep)))) ++
   map john_row
     (dict_items lib _ (get_or_empty (bm_john_the_ripper (rp_benchmarks rep)))))%list.

Definition json_file_name (self : instance) (output_dir : string) : string :=
  path_join output_dir ("performance_report_" ++ self_timestamp self ++ ".json").

Definition csv_file_name (self : instance) (output_dir : string) : string :=
  path_join output_dir ("performance_summary_" ++ self_timestamp self ++ ".csv").

Definition save_results (self : instance) (rep : report) (output_dir : string) :
    M unit :=
  let json_file := json_file_name self output_dir in
  let* _ := write_file h json_file (json_dump lib rep) in
  let csv_file := csv_file_name self output_dir in
  let* _ := write_file h csv_file (csv_text lib (csv_rows rep)) in
  ret tt.

(** The command line of [main] after [parse_args]. *)
Record args : Type := { output_dir : string; quiet : bool; json_only : bool }.

(** [main], by the exit status of the process: 0 when it returns, 1 from
    [sys.exit(1)] in either handler.  The instance is built before the
    [try].  What [main] and [print_summary] print is no part of the
    world. *)
Definition main (a : args) : M Z :=
  let* benchmark := init_instance h in
  try_except
    (let* rep := generate_report h benchmark in
     let* _ := save_results benchmark rep (output_dir a) in
     ret 0)
    (fun _ => ret 1).

End Saving.

(** The libraries with the entries in the order of the keys. *)
Definition sorted_library : library :=
  {| json_dump := fun _ => "{}";
     csv_text := fun rows => EmptyString;
     dict_items := fun V m => map_to_list m |}.

(** The directory of the reports cannot be written to. *)
Definition reports_refused : host :=
  Sample.machine Sample.tools_succeed Sample.no_error
    (fun path _ => if String.prefix "out/" path then Some OSError else None)
    Sample.no_error.

End More.

(** * Properties *)

Import Py Host Bench Engine Spec Sample.
#[local] Arguments String.append !_ _ / : simpl nomatch.

(** ** The model on sample inputs *)

Example float_accepts :
  float_of_str "12.4" = Some f12_4 /\
  float_of_str " 3456 " = Some f3456 /\
  float_of_str "1_00" = Some f100 /\
  float_of_str "1e2" = Some f100 /\
  float_of_str "12." = Some (float_of_decimal false 12 0) /\
  float_of_str "-0" = Some (S754_zero true) /\
  float_of_str "Infinity" = Some (S754_infinity false) /\
  float_of_str "-nan" = Some S754_nan /\
  float_of_str "1e400" = Some (S754_infinity false).
Proof. vm_compute. repeat split. Qed.

Example float_refuses :
  float_of_str EmptyString = None /\
  float_of_str "." = None /\
  float_of_str "1e" = None /\
  float_of_str "1__0" = None /\
  float_of_str "12k" = None /\
  float_of_str "0x10" = None /\
  float_of_str "1 2" = None.
Proof. vm_compute. repeat split. Qed.

Example float_rounds_to_nearest_even :
  float_of_decimal false 9007199254740993 0 = S754_finite false 4503599627370496 1 /\
  float_of_decimal false 1 (-1) = S754_finite false 7205759403792794 (-56) /\
  fmul (float_of_decimal false 1001 (-3)) f1e3 <> float_of_decimal false 1001 0.
Proof. vm_compute. repeat split. discriminate. Qed.

Example split_samples :
  split "  0   12.4 MH/s " = ["0"; "12.4"; "MH/s"] /\
  split_on ":" "a:b::c" = ["a"; "b"; EmptyString; "c"] /\
  split_on "010" EmptyString = [EmptyString] /\
  strip "  Raw-MD5 " = "Raw-MD5".
Proof. vm_compute. repeat split. Qed.

Example search_samples :
  Re.search true john_speed_re "3456 c/s real, 3456 c/s virtual" =
    Some {| Re.group0 := "3456 c/s"; Re.groups := ["3456"] |} /\
  Re.search true john_speed_re "about 12.5k  C/S" =
    Some {| Re.group0 := "12.5k  C/S"; Re.groups := ["12.5k"] |} /\
  Re.search true john_speed_re "1. c/s" = None.
Proof. vm_compute. repeat split. Qed.

Example normalizer_samples :
  parse_hashcat_speed "12.4M" = f12_4e6 /\
  parse_hashcat_speed "12.4K" = zero /\
  parse_john_speed "2K" = float_of_decimal false 2000 0 /\
  parse_john_speed "2k" = zero /\
  parse_hashcat_speed "12." = float_of_decimal false 12 0 /\
  parse_hashcat_speed "nan" = S754_nan.
Proof. vm_compute. repeat split. Qed.

(** ** Signs of floats *)

Section FloatSign.

Lemma shr_1_nonneg (r : shr_record) : 0 <= shr_m r -> 0 <= shr_m (shr_1 r).
Proof.
  destruct r as [m r s]; simpl; intros Hm.
  destruct m as [|[p|p|]|p]; simpl; lia.
Qed.

Lemma iter_shr_1_nonneg (p : positive) (r : shr_record) :
  0 <= shr_m r -> 0 <= shr_m (SpecFloat.iter_pos shr_1 p r).
Proof.
  revert r; induction p as [p IH|p IH|]; intros r Hr; simpl.
  - apply IH, IH, shr_1_nonneg, Hr.
  - apply IH, IH, Hr.
  - apply shr_1_nonneg, Hr.
Qed.

Lemma shr_fexp_nonneg (m e : Z) (l : location) :
  0 <= m -> 0 <= shr_m (fst (shr_fexp prec emax m e l)).
Proof.
  intros Hm. unfold shr_fexp, shr.
  assert (H0 : 0 <= shr_m (shr_record_of_loc m l)).
  { destruct l as [|[]]; simpl; exact Hm. }
  destruct (fexp prec emax (Zdigits2 m + e) - e) as [|p|p]; simpl; auto.
  apply iter_shr_1_nonneg, H0.
Qed.

Lemma round_nearest_even_nonneg (m : Z) (l : location) :
  0 <= m -> 0 <= round_nearest_even m l.
Proof.
  intros Hm. destruct l as [|[]]; simpl; try lia.
  destruct (Z.even m); lia.
Qed.

Lemma binary_round_aux_sign (s : bool) (m e : Z) (l : location) :
  0 <= m -> has_sign s (binary_round_aux prec emax s m e l).
Proof.
  intros Hm. unfold binary_round_aux.
  pose proof (shr_fexp_nonneg m e l Hm) as H1.
  destruct (shr_fexp prec emax m e l) as [mrs' e'] eqn:E1. simpl in H1.
  pose proof (shr_fexp_nonneg _ e' loc_Exact
                (round_nearest_even_nonneg _ (loc_of_shr_record mrs') H1)) as H2.
  destruct (shr_fexp prec emax (round_nearest_even _ _) e' loc_Exact) as [mrs'' e''].
  simpl in H2.
  destruct (shr_m mrs'') as [|p|p]; simpl; auto; try lia.
  destruct (e'' <=? emax - prec); simpl; auto.
Qed.

Lemma binary_round_sign (s : bool) (m : positive) (e : Z) :
  has_sign s (binary_round prec emax s m e).
Proof.
  unfold binary_round.
  destruct (shl_align m e _) as [mz ez].
  apply binary_round_aux_sign. lia.
Qed.

Lemma float_of_decimal_sign (s : bool) (m e : Z) :
  has_sign s (float_of_decimal s m e).
Proof.
  unfold float_of_decimal.
  destruct m as [|p|p]; simpl; auto.
  destruct (0 <=? e) eqn:He.
  - apply binary_round_sign.
  - destruct (SFdiv_core_binary prec emax (Z.pos p) 0 (10 ^ (- e)) 0) as [[q e'] l] eqn:E.
    apply binary_round_aux_sign.
    unfold SFdiv_core_binary in E.
    set (m' := match _ - _ with Z.pos _ => _ | _ => _ end) in E.
    assert (Hm' : 0 <= m').
    { subst m'. destruct (_ - _ - _); try lia. apply Z.shiftl_nonneg. lia. }
    destruct (Z.div_eucl m' (10 ^ (- e))) as [q' r'] eqn:Ed.
    injection E as <- _ _.
    assert (q' = m' / 10 ^ (- e)) by (unfold Z.div; now rewrite Ed).
    subst q'. apply Z.div_pos; [exact Hm'|].
    apply Z.leb_gt in He. apply Z.pow_pos_nonneg; lia.
Qed.

Lemma has_sign_nonneg (x : float) : has_sign false x -> nonneg x.
Proof.
  unfold nonneg, fleb, SFleb, zero.
  destruct x as [s|s| |s m e]; simpl; intros H; try subst s; auto; contradiction.
Qed.

Lemma fmul_sign (x m : float) :
  has_sign false x ->
  (exists p e, m = S754_finite false p e) ->
  has_sign false (fmul x m).
Proof.
  intros Hx (p & e & ->). unfold fmul.
  destruct x as [s|s| |s mx ex]; simpl in *; try subst s; auto.
  apply (binary_round_aux_sign false). lia.
Qed.

End FloatSign.

Section Characters.

Lemma code_inj (c d : ascii) : code c = code d -> c = d.
Proof.
  unfold code. intros H. apply N2Z.inj in H.
  rewrite <- (ascii_N_embedding c), <- (ascii_N_embedding d). now rewrite H.
Qed.

Lemma eqb_code (c d : ascii) : Ascii.eqb c d = (code c =? code d).
Proof.
  destruct (Ascii.eqb_spec c d) as [->|Hne].
  - symmetry. apply Z.eqb_refl.
  - symmetry. apply Z.eqb_neq. intros H. apply Hne, code_inj, H.
Qed.

Lemma code_range (c : ascii) : 0 <= code c < 256.
Proof.
  unfold code. pose proof (N_ascii_bounded c). lia.
Qed.

End Characters.

(** Turn facts on characters into arithmetic on their codes. *)
Ltac literal_codes :=
  repeat match goal with
  | |- context [code (Ascii ?a ?b ?c ?d ?e ?f ?g ?h)] =>
      let v := eval vm_compute in (code (Ascii a b c d e f g h)) in
      change (code (Ascii a b c d e f g h)) with v
  | H : context [code (Ascii ?a ?b ?c ?d ?e ?f ?g ?h)] |- _ =>
      let v := eval vm_compute in (code (Ascii a b c d e f g h)) in
      change (code (Ascii a b c d e f g h)) with v in H
  end.

Ltac split_tests :=
  repeat match goal with
  | H : context [?a <=? ?b] |- _ => destruct (Z.leb_spec a b)
  | |- context [?a <=? ?b] => destruct (Z.leb_spec a b)
  | H : context [?a =? ?b] |- _ => destruct (Z.eqb_spec a b)
  | |- context [?a =? ?b] => destruct (Z.eqb_spec a b)
  end.

Ltac chars :=
  unfold is_digit, is_space, is_float_space, in_range in *;
  rewrite ?eqb_code in *; literal_codes; split_tests;
  simpl in *; try congruence; try lia.

Section Strings.

Lemma append_empty_r (s : string) : s ++ EmptyString = s.
Proof. induction s; simpl; congruence. Qed.

Lemma append_assoc (a b c : string) : (a ++ b) ++ c = a ++ (b ++ c).
Proof. induction a; simpl; congruence. Qed.

Lemma last_char_snoc (s : string) (c : ascii) :
  last_char (s ++ String c EmptyString) = Ok c.
Proof.
  induction s as [|d s IH]; simpl; auto.
  rewrite IH. destruct (s ++ String c EmptyString) eqn:E; auto.
  destruct s; discriminate.
Qed.

Lemma init_snoc (s : string) (c : ascii) : init (s ++ String c EmptyString) = s.
Proof.
  induction s as [|d s IH]; simpl; auto.
  rewrite IH. destruct (s ++ String c EmptyString) eqn:E; auto.
  destruct s; discriminate.
Qed.

Lemma snoc_last (s : string) (c : ascii) :
  last_char s = Ok c -> s = init s ++ String c EmptyString.
Proof.
  induction s as [|d s IH]; simpl; [discriminate|].
  destruct s as [|d' s'].
  - intros [= ->]. reflexivity.
  - intros H. simpl. f_equal. apply IH, H.
Qed.

Lemma last_char_app (s t : string) :
  t <> EmptyString -> last_char (s ++ t) = last_char t.
Proof.
  intros Ht. induction s as [|d s IH]; simpl; auto.
  rewrite IH. destruct (s ++ t) eqn:E; auto.
  destruct s; simpl in E; congruence.
Qed.

Lemma length_app (s t : string) :
  String.length (s ++ t) = (String.length s + String.length t)%nat.
Proof. induction s; simpl; congruence. Qed.

End Strings.

Section Digits.

Lemma span_digits_spec (s d r : string) :
  span_digits s = (d, r) ->
  s = d ++ r /\ all_digits d = true /\ no_digit_head r.
Proof.
  revert d r; induction s as [|c s IH]; simpl; intros d r.
  - intros [= <- <-]. simpl. auto.
  - destruct (is_digit c) eqn:Hc.
    + destruct (span_digits s) as [d' r']. intros [= <- <-].
      destruct (IH d' r' eq_refl) as (-> & Hd & Hr).
      simpl. rewrite Hc, Hd. auto.
    + intros [= <- <-]. simpl. auto.
Qed.

Lemma span_digits_app (d r : string) :
  all_digits d = true -> no_digit_head r -> span_digits (d ++ r) = (d, r).
Proof.
  intros Hd Hr. induction d as [|c d IH]; simpl in *.
  - destruct r as [|c r]; simpl in *; auto. now rewrite Hr.
  - apply andb_true_iff in Hd as [Hc Hd]. rewrite Hc, (IH Hd). reflexivity.
Qed.

Lemma all_digits_app (a b : string) :
  all_digits (a ++ b) = all_digits a && all_digits b.
Proof. induction a; simpl; auto. rewrite IHa. now rewrite andb_assoc. Qed.

Lemma eqb_empty (s : string) : String.eqb s EmptyString = false <-> s <> EmptyString.
Proof. destruct s; simpl; split; congruence. Qed.

Lemma is_numeral_shape (s : string) : is_numeral s = true <-> numeral_shape s.
Proof.
  unfold is_numeral. split.
  - destruct (span_digits s) as [ip r] eqn:E.
    apply span_digits_spec in E as (-> & Hip & Hr).
    intros H. apply andb_true_iff in H as [H1 H2].
    apply negb_true_iff, eqb_empty in H1.
    destruct r as [|c fp].
    + rewrite append_empty_r. now constructor.
    + apply andb_true_iff in H2 as [H2 H3]. apply andb_true_iff in H2 as [H2 H4].
      apply Ascii.eqb_eq in H2 as ->. apply negb_true_iff, eqb_empty in H3.
      now constructor.
  - intros [ip H1 H2|ip fp H1 H2 H3 H4].
    + rewrite <- (append_empty_r ip), span_digits_app by (simpl; auto).
      apply eqb_empty in H1. now rewrite H1.
    + rewrite span_digits_app by (simpl; auto).
      apply eqb_empty in H1, H3. rewrite H1, H3, H4. reflexivity.
Qed.

Lemma all_digits_last (s : string) (c : ascii) :
  all_digits s = true -> last_char s = Ok c -> is_digit c = true.
Proof.
  induction s as [|d s IH]; simpl; [discriminate|].
  intros H. apply andb_true_iff in H as [Hd Hs].
  destruct s; [intros [= <-]; exact Hd | apply IH, Hs].
Qed.

Lemma last_char_nonempty (s : string) :
  s <> EmptyString -> exists c, last_char s = Ok c.
Proof.
  induction s as [|d s IH]; [congruence|]. intros _. simpl.
  destruct s as [|d' s']; [eauto|]. apply IH. discriminate.
Qed.

Lemma numeral_last (s : string) :
  numeral_shape s -> exists c, last_char s = Ok c /\ is_digit c = true.
Proof.
  intros [ip H1 H2|ip fp H1 H2 H3 H4].
  - destruct (last_char_nonempty ip H1) as [c Hc].
    exists c. split; auto. eapply all_digits_last; eauto.
  - destruct (last_char_nonempty fp H3) as [c Hc].
    exists c. rewrite last_char_app by discriminate.
    split; [|eapply all_digits_last; eauto].
    simpl. destruct fp; [congruence|exact Hc].
Qed.

Lemma numeral_head (s : string) :
  numeral_shape s -> exists c s', s = String c s' /\ is_digit c = true.
Proof.
  intros [ip H1 H2|ip fp H1 H2 H3 H4];
    (destruct ip as [|c ip]; [congruence|]);
    simpl in H2; apply andb_true_iff in H2 as [Hc _]; simpl; eauto.
Qed.

Lemma plain_app (a b : string) : plain a -> plain b -> plain (a ++ b).
Proof. induction a; simpl; intuition. Qed.

Lemma all_digits_plain (s : string) : all_digits s = true -> plain s.
Proof.
  induction s; simpl; auto. intros H. apply andb_true_iff in H as [? ?]. auto.
Qed.

Lemma numeral_plain (s : string) : numeral_shape s -> plain s.
Proof.
  intros [ip H1 H2|ip fp H1 H2 H3 H4].
  - now apply all_digits_plain.
  - apply plain_app; [now apply all_digits_plain|].
    simpl. split; auto. now apply all_digits_plain.
Qed.

End Digits.

Section FloatOfStr.

Lemma drop_underscores_plain (prev : ascii) (s : string) :
  plain s -> Ascii.eqb prev "_" = false -> drop_underscores prev s = Some s.
Proof.
  revert prev; induction s as [|c s IH]; simpl; intros prev Hs Hp.
  - now rewrite Hp.
  - destruct Hs as [Hc Hs]. rewrite Hp. simpl.
    assert (Hu : Ascii.eqb c "_" = false) by (destruct Hc as [Hc| ->]; chars).
    rewrite Hu, (IH c Hs Hu). reflexivity.
Qed.

Lemma drop_underscores_snoc (prev c : ascii) (s : string) :
  plain s -> Ascii.eqb prev "_" = false -> Ascii.eqb c "_" = false ->
  drop_underscores prev (s ++ String c EmptyString) = Some (s ++ String c EmptyString).
Proof.
  revert prev; induction s as [|d s IH]; simpl; intros prev Hs Hp Hc.
  - now rewrite Hc, Hp.
  - destruct Hs as [Hd Hs]. rewrite Hp. simpl.
    assert (Hu : Ascii.eqb d "_" = false) by (destruct Hd as [Hd| ->]; chars).
    rewrite Hu, (IH d Hs Hu Hc). reflexivity.
Qed.

Lemma drop_underscores_trailing (prev : ascii) (s : string) :
  plain s -> drop_underscores prev (s ++ "_") = None.
Proof.
  revert prev; induction s as [|d s IH]; simpl; intros prev Hs.
  - destruct (is_digit prev); reflexivity.
  - destruct Hs as [Hd Hs].
    assert (Hu : Ascii.eqb d "_" = false) by (destruct Hd as [Hd| ->]; chars).
    rewrite Hu, (IH d Hs).
    destruct (Ascii.eqb prev "_" && negb (is_digit d)); reflexivity.
Qed.

Lemma rstrip_keep (sp : ascii -> bool) (s : string) (c : ascii) :
  last_char s = Ok c -> sp c = false -> rstrip_with sp s = s.
Proof.
  induction s as [|d s IH]; simpl; [discriminate|].
  destruct s as [|d' s'].
  - intros [= ->] Hc. simpl. now rewrite Hc.
  - intros Hl Hc. rewrite (IH Hl Hc). reflexivity.
Qed.

Lemma digit_not_float_space (c : ascii) :
  is_digit c = true -> is_float_space c = false.
Proof. intros H. chars. Qed.

Lemma lower_digit (c : ascii) : is_digit c = true -> lower_char c = c.
Proof.
  intros H. unfold lower_char.
  replace (in_range 65 90 c || in_range 192 222 c && negb (code c =? 215))
    with false; [reflexivity|]. chars.
Qed.

(** What [float()] does to a string that starts with a digit and does not
    end with a blank, once the underscores are dealt with. *)
Lemma float_body (s : string) (c0 cl : ascii) (s' : string) :
  s = String c0 s' -> is_digit c0 = true ->
  last_char s = Ok cl -> is_float_space cl = false ->
  drop_underscores "000" s = Some s ->
  float_of_str s =
    '(m, e) ← parse_decimal s; Some (float_of_decimal false m e).
Proof.
  intros Hs H0 Hl Hcl Hu. unfold float_of_str. rewrite Hu. simpl.
  assert (Hls : lstrip_with is_float_space s = s).
  { subst s. simpl. now rewrite (digit_not_float_space _ H0). }
  rewrite Hls, (rstrip_keep _ _ _ Hl Hcl).
  assert (Hts : take_sign s = (false, s)).
  { subst s. simpl. replace (Ascii.eqb c0 "-") with false by chars.
    replace (Ascii.eqb c0 "+") with false by chars. reflexivity. }
  rewrite Hts.
  subst s. simpl. rewrite (lower_digit _ H0).
  replace (Ascii.eqb c0 "i") with false by chars.
  replace (Ascii.eqb c0 "n") with false by chars.
  reflexivity.
Qed.

Lemma parse_decimal_numeral (s : string) :
  is_numeral s = true ->
  parse_decimal s =
    Some (let '(ip, r) := span_digits s in
          let fp := match r with String _ fp => fp | EmptyString => EmptyString end in
          (digits_value 0 (ip ++ fp), - Z.of_nat (String.length fp))).
Proof.
  unfold is_numeral, parse_decimal.
  destruct (span_digits s) as [ip r] eqn:E. intros H.
  apply andb_true_iff in H as [H1 H2].
  apply negb_true_iff, eqb_empty in H1.
  assert (Hlen : forall fp,
            (String.length ip + String.length fp =? 0)%nat = false).
  { intros fp. destruct ip; [congruence|]. reflexivity. }
  destruct r as [|c fp].
  - rewrite Hlen. reflexivity.
  - apply andb_true_iff in H2 as [H2 H3]. apply andb_true_iff in H2 as [H2 H4].
    rewrite H2.
    rewrite <- (append_empty_r fp) at 1.
    rewrite span_digits_app by (simpl; auto).
    rewrite Hlen. reflexivity.
Qed.

Lemma float_of_str_numeral (s : string) :
  is_numeral s = true -> float_of_str s = Some (numeral_value s).
Proof.
  intros H. pose proof H as Hsh. apply is_numeral_shape in Hsh.
  destruct (numeral_head s Hsh) as (c0 & s' & Hs & H0).
  destruct (numeral_last s Hsh) as (cl & Hl & Hcl).
  rewrite (float_body s c0 cl s' Hs H0 Hl (digit_not_float_space _ Hcl)).
  - rewrite (parse_decimal_numeral s H). unfold numeral_value.
    destruct (span_digits s) as [ip r]. reflexivity.
  - apply drop_underscores_plain; [now apply numeral_plain|reflexivity].
Qed.

Lemma numeral_value_sign (s : string) : has_sign false (numeral_value s).
Proof.
  unfold numeral_value. destruct (span_digits s) as [ip r].
  apply float_of_decimal_sign.
Qed.

(** A numeral followed by a character that is no digit, point or blank
    is no float. *)
Lemma float_of_str_trailing (d : string) (c : ascii) :
  is_numeral d = true ->
  is_digit c = false -> Ascii.eqb c "." = false -> is_float_space c = false ->
  float_of_str (d ++ String c EmptyString) = None.
Proof.
  intros H Hc1 Hc2 Hc3. pose proof H as Hsh. apply is_numeral_shape in Hsh.
  destruct (Ascii.eqb c "_") eqn:Hu.
  { apply Ascii.eqb_eq in Hu as ->. unfold float_of_str.
    rewrite drop_underscores_trailing by now apply numeral_plain. reflexivity. }
  destruct (numeral_head d Hsh) as (c0 & d' & Hd & H0).
  rewrite (float_body (d ++ String c EmptyString) c0 c (d' ++ String c EmptyString)).
  - unfold parse_decimal.
    assert (Hsp : exists ip fp,
               span_digits (d ++ String c EmptyString) = (ip, fp ++ String c EmptyString) /\
               (fp = EmptyString \/ exists fp', fp = String "." fp' /\ all_digits fp' = true)).
    { destruct Hsh as [ip H1 H2|ip fp H1 H2 H3 H4].
      - exists ip, EmptyString. split; [|auto]. apply span_digits_app; simpl; auto.
      - exists ip, (String "." fp). split; [|eauto].
        rewrite append_assoc. apply span_digits_app; simpl; auto. }
    destruct Hsp as (ip & fp & -> & Hfp).
    assert (Htail : forall ip fp,
      (if (String.length ip + String.length fp =? 0)%nat then None
       else
         match String c EmptyString with
         | EmptyString => Some (digits_value 0 (ip ++ fp), - Z.of_nat (String.length fp))
         | String c1 r3 =>
             if Ascii.eqb c1 "e" || Ascii.eqb c1 "E" then
               let '(eneg, r4) := take_sign r3 in
               let '(ed, r5) := span_digits r4 in
               if negb (String.eqb ed EmptyString) && String.eqb r5 EmptyString
               then let x := digits_value 0 ed in
                    Some (digits_value 0 (ip ++ fp),
                          (if eneg then - x else x) - Z.of_nat (String.length fp))
               else None
             else None
         end) = (None : option (Z * Z))).
    { intros ip' fp'. destruct (_ =? _)%nat; auto.
      destruct (Ascii.eqb c "e" || Ascii.eqb c "E"); reflexivity. }
    destruct Hfp as [->|(fp' & -> & Hfp')].
    + simpl. rewrite Hc2. rewrite Htail. reflexivity.
    + simpl. rewrite span_digits_app by (simpl; auto). rewrite Htail. reflexivity.
  - subst d. reflexivity.
  - exact H0.
  - apply last_char_snoc.
  - exact Hc3.
  - apply drop_underscores_snoc; [now apply numeral_plain|reflexivity|exact Hu].
Qed.

End FloatOfStr.

Section Normalizer.

Variable table : list (ascii * float).
Hypothesis keys_not_digits :
  forall c, is_digit c = true -> char_dict_mem table c = false.

Lemma normalize_rejected (s : string) :
  float_of_str (float_operand table s) = None -> normalize table s = zero.
Proof.
  unfold normalize, float_operand, mbind, result_bind, bind, float_.
  destruct (last_char s) as [c|e]; [|reflexivity].
  destruct (char_dict_mem table c); intros ->; reflexivity.
Qed.

Lemma normalize_accepted (s : string) (x : float) :
  float_of_str (float_operand table s) = Some x ->
  normalize table s = scaled table s x.
Proof.
  unfold normalize, scaled, float_operand, char_dict_mem, mbind, result_bind, bind,
    float_.
  destruct (last_char s) as [c|e] eqn:E.
  - destruct (char_dict_get table c) as [m|e]; simpl; now intros ->.
  - destruct s as [|a s']; [discriminate|].
    destruct (last_char_nonempty (String a s')) as [c Hc]; [discriminate|].
    congruence.
Qed.

Lemma normalize_spec : normalizer_spec table (normalize table).
Proof.
  split; [|split; [|split; [|split; [|split]]]];
    [| | | |reflexivity|apply normalize_accepted].
  - intros d c m Hd Hm. unfold normalize, mbind, result_bind, bind.
    rewrite last_char_snoc, init_snoc. unfold char_dict_mem. rewrite Hm. simpl.
    unfold float_. now rewrite (float_of_str_numeral d Hd).
  - intros d Hd. unfold normalize, mbind, result_bind, bind.
    destruct (numeral_last d (proj1 (is_numeral_shape d) Hd)) as (c & -> & Hc).
    rewrite (keys_not_digits c Hc). unfold float_.
    now rewrite (float_of_str_numeral d Hd).
  - apply normalize_rejected.
  - intros d c Hd Hk H1 H2 H3. apply normalize_rejected.
    unfold float_operand. rewrite last_char_snoc, Hk.
    apply float_of_str_trailing; auto.
    destruct (Ascii.eqb_spec c "."); congruence.
Qed.

End Normalizer.

Lemma hashcat_keys_not_digits (c : ascii) :
  is_digit c = true -> char_dict_mem hashcat_multipliers c = false.
Proof.
  intros H. unfold char_dict_mem, hashcat_multipliers, char_dict_get.
  replace (Ascii.eqb c "k") with false by chars.
  replace (Ascii.eqb c "M") with false by chars.
  replace (Ascii.eqb c "G") with false by chars.
  replace (Ascii.eqb c "T") with false by chars.
  reflexivity.
Qed.

Lemma john_keys_not_digits (c : ascii) :
  is_digit c = true -> char_dict_mem john_multipliers c = false.
Proof.
  intros H. unfold char_dict_mem, john_multipliers, char_dict_get.
  replace (Ascii.eqb c "K") with false by chars.
  replace (Ascii.eqb c "M") with false by chars.
  replace (Ascii.eqb c "G") with false by chars.
  reflexivity.
Qed.

(** Claim C1, as the code has it.  For each tool and its own suffix
    table: a decimal numeral followed by a suffix of the table yields the
    numeral's value times the multiplier of the suffix; a bare numeral
    yields its value; a string whose operand [float()] refuses yields
    [0.0], among them a numeral followed by a character that is no suffix
    of the table, no digit, no point and no blank, and the empty string.
    The normalizers return a float on every string: nothing is raised.
    What [float()] accepts beyond numerals (["inf"], ["nan"], a sign, an
    exponent, blanks around, underscores between digits) is not
    malformed for the code: whenever [float()] accepts the operand of a
    string, the result is the value [float()] gives, times the
    multiplier when the last character is a suffix of the table. *)
Theorem speed_normalizers :
  normalizer_spec hashcat_multipliers parse_hashcat_speed /\
  normalizer_spec john_multipliers parse_john_speed.
Proof.
  split.
  - exact (normalize_spec hashcat_multipliers hashcat_keys_not_digits).
  - exact (normalize_spec john_multipliers john_keys_not_digits).
Qed.

(** C1 at ["12.4M"] and ["-1e3k"] for the first tool, at ["3456"],
    ["12x"] and ["1_0K"] for the second. *)
Lemma speed_normalizers_witness :
  parse_hashcat_speed "12.4M" = fmul (numeral_value "12.4") f1e6 /\
  parse_john_speed "3456" = numeral_value "3456" /\
  parse_john_speed "12x" = zero /\
  parse_hashcat_speed "-1e3k" = fmul (float_of_decimal true 1 3) f1e3 /\
  parse_john_speed "1_0K" = fmul (float_of_decimal false 10 0) f1e3.
Proof.
  destruct speed_normalizers
    as [(H1 & _ & _ & _ & _ & H4) (_ & H2 & _ & H3 & _ & H5)].
  split; [|split; [|split; [|split]]].
  - apply (H1 "12.4" "M"%char f1e6); reflexivity.
  - apply (H2 "3456"); reflexivity.
  - apply (H3 "12" "x"%char); try reflexivity. discriminate.
  - apply (H4 "-1e3k" (float_of_decimal true 1 3)). reflexivity.
  - apply (H5 "1_0K" (float_of_decimal false 10 0)). reflexivity.
Defined.

(** Claim C1 as stated fails: ["inf"] is neither a numeral nor a numeral
    with a suffix, and the first normalizer returns the infinity, which
    is not [0.0]. *)
Lemma speed_normalizer_inf :
  well_formed hashcat_multipliers "inf" = false /\
  parse_hashcat_speed "inf" = S754_infinity false /\
  feqb (parse_hashcat_speed "inf") zero = false.
Proof. vm_compute. auto. Qed.

Section Regex.

Variable ic : bool.

Lemma many_sound {A} (a : Re.atom) (s : string) (k : string -> option A) (x : A) :
  Re.many ic a s k = Some x ->
  exists w s', s = w ++ s' /\ all_match ic a w /\ k s' = Some x.
Proof.
  induction s as [|c s IH]; simpl.
  - intros H. exists EmptyString, EmptyString. simpl. auto.
  - destruct (Re.matches ic a c) eqn:Hc.
    + destruct (Re.many ic a s k) as [y|] eqn:E.
      * intros [= ->]. destruct (IH eq_refl) as (w & s' & -> & Hw & Hk).
        exists (String c w), s'. simpl. auto.
      * intros H. exists EmptyString, (String c s). simpl. auto.
    + intros H. exists EmptyString, (String c s). simpl. auto.
Qed.

Lemma exec_sound {A} (r : Re.regex) :
  group_free r = true ->
  forall (s : string) (caps : list string)
         (k : list string -> string -> option A) (x : A),
    Re.exec ic r s caps k = Some x ->
    exists w s', s = w ++ s' /\ lang ic r w /\ k caps s' = Some x.
Proof.
  induction r as [a|a|a|r IH|r1 IH1 r2 IH2|r IH]; simpl; intros Hg s caps k x.
  - destruct s as [|c s]; [discriminate|].
    destruct (Re.matches ic a c) eqn:Hc; [|discriminate].
    intros H. exists (String c EmptyString), s. simpl. eauto.
  - intros H. apply many_sound in H as (w & s' & -> & Hw & Hk). eauto.
  - destruct s as [|c s]; [discriminate|].
    destruct (Re.matches ic a c) eqn:Hc; [|discriminate].
    intros H. apply many_sound in H as (w & s' & -> & Hw & Hk).
    exists (String c w), s'. simpl. repeat split; auto; discriminate.
  - destruct (Re.exec ic r s caps k) as [y|] eqn:E.
    + intros [= ->]. destruct (IH Hg _ _ _ _ E) as (w & s' & -> & Hw & Hk).
      exists w, s'. auto.
    + intros H. exists EmptyString, s. simpl. auto.
  - apply andb_true_iff in Hg as [Hg1 Hg2]. intros H.
    apply (IH1 Hg1) in H as (w1 & s1 & -> & Hw1 & H).
    apply (IH2 Hg2) in H as (w2 & s2 & -> & Hw2 & H).
    exists (w1 ++ w2), s2. rewrite append_assoc. repeat split; eauto.
  - discriminate.
Qed.

Lemma consumed_app (w s : string) : Re.consumed (w ++ s) s = w.
Proof.
  unfold Re.consumed. rewrite length_app.
  replace (String.length w + String.length s - String.length s)%nat
    with (String.length w) by lia.
  induction w as [|c w IH]; simpl.
  - destruct s; reflexivity.
  - now rewrite IH.
Qed.

Lemma search_match (r : Re.regex) (s : string) (m : Re.match_object) :
  Re.search ic r s = Some m -> exists t, Re.match_ ic r t = Some m.
Proof.
  induction s as [|c s IH]; simpl.
  - destruct (Re.match_ ic r EmptyString) eqn:E; [|discriminate].
    intros [= <-]. eauto.
  - destruct (Re.match_ ic r (String c s)) eqn:E.
    + intros [= <-]. eauto.
    + apply IH.
Qed.

End Regex.

Section JohnSpeed.

Lemma john_match_groups (s : string) (m : Re.match_object) :
  Re.search true john_speed_re s = Some m ->
  exists g, Re.groups m = [g] /\ lang true john_number_re g.
Proof.
  intros H. apply search_match in H as [t H].
  unfold Re.match_, john_speed_re in H. simpl in H.
  change (Re.exec true john_number_re t []
            (fun caps' s' =>
               Re.exec true
                 (Re.Cat (Re.Many Re.Space)
                    (Re.Cat (Re.Atom (Re.Char "c"))
                       (Re.Cat (Re.Atom (Re.Char "/")) (Re.Atom (Re.Char "s")))))
                 s' (caps' ++ [Re.consumed t s'])%list
                 (fun caps rest =>
                    Some {| Re.group0 := Re.consumed t rest; Re.groups := caps |}))
          = Some m) in H.
  apply exec_sound in H as (w & s' & -> & Hw & H); [|reflexivity].
  apply exec_sound in H as (w2 & s2 & _ & _ & H); [|reflexivity].
  injection H as <-. simpl. rewrite consumed_app. eauto.
Qed.

Lemma all_match_digits (w : string) :
  all_match true Re.Digit w -> all_digits w = true.
Proof.
  induction w as [|c w IH]; simpl; auto.
  intros [Hc Hw]. rewrite Hc. auto.
Qed.

Lemma code_chr (n : Z) : 0 <= n < 256 -> code (chr n) = n.
Proof.
  intros H. unfold code, chr. rewrite N_ascii_embedding; lia.
Qed.

Lemma lower_char_cases (c : ascii) :
  lower_char c = c \/
  (code (lower_char c) = code c + 32 /\
   (65 <= code c <= 90 \/ 192 <= code c <= 222)).
Proof.
  unfold lower_char.
  destruct (in_range 65 90 c || in_range 192 222 c && negb (code c =? 215)) eqn:E;
    [right|now left].
  assert (65 <= code c <= 90 \/ 192 <= code c <= 222) by (revert E; chars).
  split; [apply code_chr; lia|assumption].
Qed.

Lemma lower_char_point (c : ascii) :
  Ascii.eqb (lower_char c) (lower_char ".") = true -> c = "."%char.
Proof.
  change (lower_char ".") with "."%char. intros H. apply Ascii.eqb_eq in H.
  destruct (lower_char_cases c) as [E|[E R]]; [congruence|].
  rewrite H in E. exfalso. revert E. literal_codes. lia.
Qed.

(** The letters K, M, G in either case are no digits, points or blanks,
    and the lower-case ones are no keys of the table. *)
Lemma suffix_letter (c : ascii) :
  mem_char (lower_char c) "kmg" = true ->
  is_digit c = false /\ c <> "."%char /\ is_float_space c = false /\
  (char_dict_mem john_multipliers c = true ->
   exists p e, char_dict_get john_multipliers c = Ok (S754_finite false p e)).
Proof.
  intros H. simpl in H. rewrite orb_false_r in H.
  assert (Hr : 65 <= code c <= 90 \/ 97 <= code c <= 122).
  { destruct (lower_char_cases c) as [E|[E R]].
    - rewrite E in H. revert H. chars.
    - pose proof (code_range c). revert H. rewrite !eqb_code, E. literal_codes.
      intros H. split_tests; simpl in *; try congruence; lia. }
  repeat split.
  - chars.
  - intros ->. revert Hr. literal_codes. lia.
  - chars.
  - unfold char_dict_mem, john_multipliers, char_dict_get.
    destruct (Ascii.eqb c "K"); [intros _; unfold f1e3; eauto|].
    destruct (Ascii.eqb c "M"); [intros _; unfold f1e6; eauto|].
    destruct (Ascii.eqb c "G"); [intros _; unfold f1e9; eauto|].
    discriminate.
Qed.

(** What the first group of the pattern holds: a numeral, and possibly
    one of the letters K, M, G in either case. *)
Lemma john_number_shape (g : string) :
  lang true john_number_re g ->
  exists d, is_numeral d = true /\
    (g = d \/ exists c, g = d ++ String c EmptyString /\
                        mem_char (lower_char c) "kmg" = true).
Proof.
  unfold john_number_re. cbn [lang].
  intros (w1 & w2 & -> & (Hn1 & Hd1) & (w3 & w4 & -> & H3 & H4)).
  apply all_match_digits in Hd1.
  assert (Hd : is_numeral (w1 ++ w3) = true).
  { apply is_numeral_shape.
    destruct H3 as [->|(wa & wb & -> & (c & -> & Hc) & (Hn & Hb))].
    - rewrite append_empty_r. now constructor.
    - apply (lower_char_point c) in Hc as ->.
      apply (shape_frac w1 wb); auto. now apply all_match_digits. }
  exists (w1 ++ w3). split; [exact Hd|].
  destruct H4 as [->|(c & -> & Hc)].
  - left. now rewrite append_empty_r.
  - right. exists c. rewrite append_assoc. split; [reflexivity|exact Hc].
Qed.

Lemma parse_john_speed_group (g : string) :
  lang true john_number_re g -> has_sign false (parse_john_speed g).
Proof.
  intros H. apply john_number_shape in H as (d & Hd & [->|(c & -> & Hc)]).
  - destruct (normalize_spec john_multipliers john_keys_not_digits) as (_ & H2 & _). change (parse_john_speed d) with (normalize john_multipliers d).
    rewrite (H2 d Hd). apply numeral_value_sign.
  - destruct (suffix_letter c Hc) as (H1 & H2 & H3 & H4).
    destruct (char_dict_mem john_multipliers c) eqn:Hk.
    + destruct (H4 eq_refl) as (p & e & Hm).
      destruct (normalize_spec john_multipliers john_keys_not_digits) as (N1 & _).
      change (parse_john_speed (d ++ String c EmptyString))
        with (normalize john_multipliers (d ++ String c EmptyString)).
      rewrite (N1 d c _ Hd Hm). apply fmul_sign; eauto.
      apply numeral_value_sign.
    + destruct (normalize_spec john_multipliers john_keys_not_digits)
        as (_ & _ & _ & N4 & _).
      change (parse_john_speed (d ++ String c EmptyString))
        with (normalize john_multipliers (d ++ String c EmptyString)).
      rewrite (N4 d c Hd Hk H1 H2 H3). reflexivity.
Qed.

End JohnSpeed.

Section Indexing.

Lemma index_nat {A} (l : list A) (j : nat) (d : A) :
  (j < length l)%nat -> index l (Z.of_nat j) = Ok (nth j l d).
Proof.
  intros H. unfold index.
  replace (Z.of_nat j <? 0) with false by lia.
  replace (Z.of_nat j <? 0) with false by lia.
  rewrite Nat2Z.id.
  destruct (nth_error l j) as [a|] eqn:E.
  - now rewrite (nth_error_nth _ _ d E).
  - apply nth_error_None in E. lia.
Qed.

Lemma index_pred {A} (l : list A) (j : nat) (d : A) :
  (1 <= j < length l)%nat -> index l (Z.of_nat j - 1) = Ok (nth (j - 1) l d).
Proof.
  intros H. replace (Z.of_nat j - 1) with (Z.of_nat (j - 1)) by lia.
  apply index_nat. lia.
Qed.

Lemma in_range_bounds (lo hi j : nat) :
  In j (range lo hi) <-> (lo <= j < hi)%nat.
Proof. unfold range. rewrite in_seq. lia. Qed.

Lemma in_enumerate {A} (l : list A) (i : nat) (x : A) :
  In (i, x) (enumerate l) <-> nth_error l i = Some x.
Proof.
  unfold enumerate.
  assert (G : forall k, In (i, x) (combine (seq k (length l)) l) <->
                        (k <= i)%nat /\ nth_error l (i - k) = Some x).
  { induction l as [|a l IH]; intros k; simpl.
    - split; [tauto|]. intros [_ H]. destruct (i - k)%nat; discriminate.
    - rewrite IH. split.
      + intros [[= <- <-]|[H1 H2]].
        * rewrite Nat.sub_diag. auto.
        * split; [lia|]. replace (i - k)%nat with (S (i - S k)) by lia. exact H2.
      + intros [H1 H2]. destruct (Nat.eq_dec i k) as [->|Hne].
        * rewrite Nat.sub_diag in H2. injection H2 as ->. auto.
        * right. split; [lia|].
          replace (i - k)%nat with (S (i - S k)) in H2 by lia. exact H2. }
  rewrite G, Nat.sub_0_r. intuition lia.
Qed.

Lemma fold_left_invariant {A B} (P : A -> Prop) (f : A -> B -> A) (l : list B) :
  (forall x r, In x l -> P r -> P (f r x)) ->
  forall r, P r -> P (fold_left f l r).
Proof.
  induction l as [|x l IH]; simpl; intros Hf r Hr; [assumption|].
  apply IH; auto.
Qed.

Lemma fold_left_fixed {A B} (f : A -> B -> A) (l : list B) (r : A) :
  (forall x, In x l -> f r x = r) -> fold_left f l r = r.
Proof.
  induction l as [|x l IH]; simpl; intros Hf; [reflexivity|].
  rewrite Hf by auto. apply IH. auto.
Qed.

End Indexing.

Section Hashcat.

Lemma in_hash_types_get (part : string) :
  in_hash_types part = true -> exists name, hash_types !! part = Some name.
Proof.
  unfold in_hash_types. intros H. apply bool_decide_eq_true in H as [name H]. eauto.
Qed.

(** The search for the unit marker, in closed form. *)
Lemma find_speed_spec (parts : list string) (part name : string) (js : list nat)
    (results : gmap string hashcat_metric) :
  hash_types !! part = Some name ->
  (forall j, In j js -> (1 <= j < length parts)%nat) ->
  find_speed parts part js results =
    Ok match find (fun j => contains "H/s" (nth j parts EmptyString)) js with
       | Some j => <[name := metric_at parts j]> results
       | None => results
       end.
Proof.
  intros Hn. induction js as [|j js IH]; intros Hjs; [reflexivity|].
  assert (Hj : (1 <= j < length parts)%nat) by (apply Hjs; now left).
  cbn [find_speed find].
  rewrite (index_nat parts j EmptyString) by lia.
  cbn [mbind result_bind bind].
  destruct (contains "H/s" (nth j parts EmptyString)).
  - rewrite (index_pred parts j EmptyString) by lia.
    cbn [mbind result_bind bind]. unfold dict_get. rewrite Hn. reflexivity.
  - apply IH. intros j' Hj'. apply Hjs. now right.
Qed.

Lemma hashcat_token_spec (parts : list string) (i : nat) (part : string)
    (results : gmap string hashcat_metric) :
  hashcat_token parts results (i, part) =
    match hash_types !! part, later_unit parts i with
    | Some name, Some j => <[name := metric_at parts j]> results
    | _, _ => results
    end.
Proof.
  unfold hashcat_token, later_unit.
  destruct (in_hash_types part) eqn:E.
  - destruct (in_hash_types_get part E) as [name Hn]. rewrite Hn.
    rewrite (find_speed_spec parts part name); auto.
    intros j Hj. apply in_range_bounds in Hj. lia.
  - unfold in_hash_types in E. apply bool_decide_eq_false in E.
    destruct (hash_types !! part); [exfalso; eauto|reflexivity].
Qed.

Lemma find_speed_never_raises (parts : list string) (part : string) (i : nat)
    (results : gmap string hashcat_metric) :
  in_hash_types part = true ->
  raises (find_speed parts part (range (i + 1) (length parts)) results) = false.
Proof.
  intros E. destruct (in_hash_types_get part E) as [name Hn].
  rewrite (find_speed_spec parts part name); auto.
  intros j Hj. apply in_range_bounds in Hj. lia.
Qed.

Lemma hashcat_line_unmatched (results : gmap string hashcat_metric) (line : string) :
  hashcat_line_matches line = false -> hashcat_line results line = results.
Proof.
  unfold hashcat_line_matches, hashcat_line.
  destruct (contains "H/s" line); [simpl|reflexivity].
  intros H. apply fold_left_fixed. intros [i part] Hin.
  rewrite hashcat_token_spec.
  rewrite <- not_true_iff_false, existsb_exists in H.
  destruct (hash_types !! part) as [name|] eqn:Hn; [|reflexivity].
  destruct (later_unit (split line) i) as [j|] eqn:Hj; [|reflexivity].
  exfalso. apply H. exists (i, part). split; [exact Hin|]. simpl.
  unfold in_hash_types. rewrite Hn, Hj.
  rewrite !bool_decide_eq_true_2; eauto.
Qed.

End Hashcat.

Section John.

Lemma john_line_spec (results : gmap string john_metric) (line : string) :
  if john_line_matches line then
    exists m g,
      Re.search true john_speed_re (strip (nth 1 (split_on ":" line) EmptyString)) = Some m /\
      Re.groups m = [g] /\
      has_sign false (parse_john_speed g) /\
      john_line results line =
        Ok (<[john_label line :=
                {| speed_cs := parse_john_speed g;
                   john_speed_formatted := Re.group0 m |}]> results)
  else john_line results line = Ok results.
Proof.
  unfold john_line_matches, john_line, john_label.
  destruct (contains "c/s" (lower line)); [|reflexivity].
  destruct (contains ":" line); [|reflexivity]. simpl.
  destruct (split_on ":" line) as [|p0 [|p1 rest]]; try reflexivity.
  change ((2 <=? length (p0 :: p1 :: rest))%nat) with true.
  change (index (p0 :: p1 :: rest) 0) with (Ok p0).
  change (index (p0 :: p1 :: rest) 1) with (Ok p1).
  cbn [mbind result_bind bind nth].
  destruct (Re.search true john_speed_re (strip p1)) as [m|] eqn:E.
  - rewrite bool_decide_eq_true_2 by eauto.
    destruct (john_match_groups _ _ E) as (g & Hg & Hl).
    exists m, g. repeat split; auto.
    + now apply parse_john_speed_group.
    + unfold Re.group. rewrite Hg. reflexivity.
  - rewrite bool_decide_eq_false_2; [reflexivity|]. intros [? ?]. discriminate.
Qed.

Lemma john_line_ok (results : gmap string john_metric) (line : string) :
  exists r, john_line results line = Ok r /\
    (r = results \/
     exists v, r = <[john_label line := v]> results /\ has_sign false (speed_cs v)).
Proof.
  pose proof (john_line_spec results line) as H.
  destruct (john_line_matches line).
  - destruct H as (m & g & _ & _ & Hg & ->). eauto 6.
  - rewrite H. eauto.
Qed.

Lemma john_lines_ok (lines : list string) (results : gmap string john_metric) :
  map_Forall (fun _ v => has_sign false (speed_cs v)) results ->
  exists r, john_lines results lines = Ok r /\
            map_Forall (fun _ v => has_sign false (speed_cs v)) r.
Proof.
  revert results; induction lines as [|line lines IH]; intros results Hr; simpl.
  - eauto.
  - destruct (john_line_ok results line) as (r & -> & Hcase).
    cbn [mbind result_bind bind]. apply IH.
    destruct Hcase as [->|(v & -> & Hv)]; auto.
    apply map_Forall_insert_2; auto.
Qed.

End John.

Section Lines.

Lemma split_on_nonempty (sep : ascii) (s : string) : split_on sep s <> [].
Proof.
  destruct s as [|c s]; simpl; [discriminate|].
  destruct (Ascii.eqb c sep); [discriminate|].
  destruct (split_on sep s); discriminate.
Qed.

Lemma split_on_app (sep : ascii) (a b : string) :
  split_on sep (a ++ String sep b) = (split_on sep a ++ split_on sep b)%list.
Proof.
  induction a as [|c a IH]; simpl.
  - now rewrite Ascii.eqb_refl.
  - rewrite IH. destruct (Ascii.eqb c sep); [reflexivity|].
    pose proof (split_on_nonempty sep a).
    destruct (split_on sep a); [congruence|reflexivity].
Qed.

Lemma split_on_single (sep : ascii) (s : string) :
  mem_char sep s = false -> split_on sep s = [s].
Proof.
  induction s as [|c s IH]; simpl; [reflexivity|].
  intros H. apply orb_false_iff in H as [H1 H2].
  rewrite Ascii.eqb_sym, H1, (IH H2). reflexivity.
Qed.

Lemma lines_with (pre line post : string) :
  mem_char "010" line = false ->
  split_on "010" (pre ++ nl ++ line ++ nl ++ post) =
    (split_on "010" pre ++ line :: split_on "010" post)%list.
Proof.
  intros H. unfold nl. simpl.
  rewrite split_on_app, split_on_app, (split_on_single _ _ H). reflexivity.
Qed.

Lemma lines_without (pre post : string) :
  split_on "010" (pre ++ nl ++ post) =
    (split_on "010" pre ++ split_on "010" post)%list.
Proof. unfold nl. simpl. apply split_on_app. Qed.

Lemma john_lines_app (l1 l2 : list string) (r : gmap string john_metric) :
  john_lines r (l1 ++ l2) = (r1 ← john_lines r l1; john_lines r1 l2).
Proof.
  revert r; induction l1 as [|x l1 IH]; intros r; simpl; [reflexivity|].
  destruct (john_line r x); cbn [mbind result_bind bind]; auto.
Qed.

End Lines.

(** Claim C3.  [parse_john_benchmark] returns a mapping on every input
    and raises nothing; in [parse_hashcat_benchmark], which returns a
    mapping by its [try], the search under the [try] never raises
    either.  A line that does not match the grammar of its parser leaves
    the results as they are, and a text with such a line parses as the
    text without it. *)
Theorem parsers_total :
  (forall output, exists m, parse_john_benchmark output = Ok m) /\
  (forall parts part i results,
     in_hash_types part = true ->
     raises (find_speed parts part (range (i + 1) (length parts)) results) = false) /\
  (forall results line,
     hashcat_line_matches line = false -> hashcat_line results line = results) /\
  (forall results line,
     john_line_matches line = false -> john_line results line = Ok results) /\
  (forall pre line post,
     mem_char "010" line = false ->
     (hashcat_line_matches line = false ->
      parse_hashcat_benchmark (pre ++ nl ++ line ++ nl ++ post) =
      parse_hashcat_benchmark (pre ++ nl ++ post)) /\
     (john_line_matches line = false ->
      parse_john_benchmark (pre ++ nl ++ line ++ nl ++ post) =
      parse_john_benchmark (pre ++ nl ++ post))).
Proof.
  split; [|split; [|split; [|split]]].
  - intros output. unfold parse_john_benchmark.
    destruct (john_lines_ok (split_on "010" output) ∅) as (r & Hr & _); eauto.
    apply map_Forall_empty.
  - intros parts part i results. apply find_speed_never_raises.
  - apply hashcat_line_unmatched.
  - intros results line H. pose proof (john_line_spec results line) as L.
    now rewrite H in L.
  - intros pre line post Hnl. split; intros H.
    + unfold parse_hashcat_benchmark.
      rewrite (lines_with pre line post Hnl), lines_without.
      rewrite !fold_left_app. simpl. now rewrite hashcat_line_unmatched.
    + unfold parse_john_benchmark.
      rewrite (lines_with pre line post Hnl), lines_without.
      rewrite !john_lines_app.
      destruct (john_lines ∅ (split_on "010" pre)) as [r|e];
        cbn [mbind result_bind bind]; [|reflexivity].
      simpl. pose proof (john_line_spec r line) as L. rewrite H in L.
      now rewrite L.
Qed.

(** C3 on texts with a line outside the grammar. *)
Lemma parsers_total_witness :
  parse_hashcat_benchmark ("0 12.4 MH/s" ++ nl ++ "Stopped: now" ++ nl ++ EmptyString) =
    parse_hashcat_benchmark ("0 12.4 MH/s" ++ nl ++ EmptyString) /\
  parse_john_benchmark ("a: 1 c/s" ++ nl ++ "Benchmarking: x" ++ nl ++ EmptyString) =
    parse_john_benchmark ("a: 1 c/s" ++ nl ++ EmptyString) /\
  john_line ∅ "no colon c/s" = Ok ∅.
Proof.
  destruct parsers_total as (_ & _ & _ & H4 & H5).
  split; [|split].
  - apply (H5 "0 12.4 MH/s" "Stopped: now" EmptyString); reflexivity.
  - apply (H5 "a: 1 c/s" "Benchmarking: x" EmptyString); reflexivity.
  - apply H4. reflexivity.
Defined.

(** Claim C2 at the line ["0 12.4 MH/s"]: the code stores the rate 12.4
    with the display string ["12.4 MH/s"]; the multiplier of the unit
    token is not applied, so the rate is not 12.4e6 (which is 12.4 times
    the multiplier of [M]). *)
Theorem hashcat_mode_line_rate_unscaled :
  parse_hashcat_benchmark "0 12.4 MH/s" !! "MD5" =
    Some {| speed_hs := f12_4; speed_formatted := "12.4 MH/s" |} /\
  feqb f12_4 f12_4e6 = false /\
  fmul f12_4 f1e6 = f12_4e6.
Proof. vm_compute. auto. Qed.

Section HashcatRates.

Lemma hashcat_table_values (c : ascii) (m : float) :
  char_dict_get hashcat_multipliers c = Ok m ->
  exists p e, m = S754_finite false p e.
Proof.
  unfold hashcat_multipliers, char_dict_get.
  destruct (Ascii.eqb c "k"); [intros [= <-]; unfold f1e3; eauto|].
  destruct (Ascii.eqb c "M"); [intros [= <-]; unfold f1e6; eauto|].
  destruct (Ascii.eqb c "G"); [intros [= <-]; unfold f1e9; eauto|].
  destruct (Ascii.eqb c "T"); [intros [= <-]; unfold f1e12; eauto|].
  discriminate.
Qed.

Lemma well_formed_hashcat_sign (tok : string) :
  well_formed hashcat_multipliers tok = true ->
  has_sign false (parse_hashcat_speed tok).
Proof.
  destruct (normalize_spec hashcat_multipliers hashcat_keys_not_digits)
    as (N1 & N2 & _).
  change parse_hashcat_speed with (normalize hashcat_multipliers).
  unfold well_formed. intros H. apply orb_true_iff in H as [H|H].
  - rewrite (N2 tok H). apply numeral_value_sign.
  - destruct (last_char tok) as [c|e] eqn:E; [|discriminate].
    apply andb_true_iff in H as [Hk Hd].
    unfold char_dict_mem in Hk.
    destruct (char_dict_get hashcat_multipliers c) as [m|] eqn:Hm; [|discriminate].
    rewrite (snoc_last tok c E), (N1 _ c m Hd Hm).
    apply fmul_sign; [apply numeral_value_sign|].
    eapply hashcat_table_values; eauto.
Qed.

(** Every entry comes from a known mode code of a line and the first
    later token with the unit marker. *)
Lemma parse_hashcat_entries (P : string -> hashcat_metric -> Prop) (output : string) :
  (forall line i part name j,
     In line (split_on "010" output) ->
     nth_error (split line) i = Some part ->
     hash_types !! part = Some name ->
     later_unit (split line) i = Some j ->
     P name (metric_at (split line) j)) ->
  map_Forall P (parse_hashcat_benchmark output).
Proof.
  intros HP. unfold parse_hashcat_benchmark.
  apply fold_left_invariant; [|apply map_Forall_empty].
  intros line r Hline Hr. unfold hashcat_line.
  destruct (contains "H/s" line); [|exact Hr].
  apply fold_left_invariant; [|exact Hr].
  intros [i part] r' Hin Hr'. rewrite hashcat_token_spec.
  destruct (hash_types !! part) as [name|] eqn:Hn; [|exact Hr'].
  destruct (later_unit (split line) i) as [j|] eqn:Hj; [|exact Hr'].
  apply map_Forall_insert_2; [|exact Hr'].
  apply (HP line i part name j); auto. now apply in_enumerate.
Qed.

Lemma later_unit_spec (parts : list string) (i j : nat) :
  later_unit parts i = Some j ->
  (i < j < length parts)%nat /\
  contains "H/s" (nth j parts EmptyString) = true.
Proof.
  unfold later_unit. intros H. apply find_some in H as [H1 H2].
  apply in_range_bounds in H1. split; [lia|exact H2].
Qed.

End HashcatRates.

(** Claim C4, as the code has it.  Every rate [parse_john_benchmark]
    stores is non-negative.  Every entry [parse_hashcat_benchmark] stores
    comes from a mode code of a line and the first later token with the
    unit marker: its rate is the value of [parse_hashcat_speed] on the
    token just before that one, and it is non-negative when that token
    is a numeral with or without a suffix of the table.  On other tokens
    the rate is what [float()] makes of them: for the token ["nan"] it is
    the NaN, which is not [>= 0]. *)
Theorem rates_nonneg_amended :
  (forall output m key v,
     parse_john_benchmark output = Ok m -> m !! key = Some v ->
     nonneg (speed_cs v)) /\
  (forall output key v,
     parse_hashcat_benchmark output !! key = Some v ->
     exists line i part j,
       In line (split_on "010" output) /\
       nth_error (split line) i = Some part /\
       hash_types !! part = Some key /\
       later_unit (split line) i = Some j /\
       In (nth (j - 1) (split line) EmptyString) (split line) /\
       v = metric_at (split line) j /\
       speed_hs v = parse_hashcat_speed (nth (j - 1) (split line) EmptyString) /\
       (well_formed hashcat_multipliers (nth (j - 1) (split line) EmptyString) = true ->
        nonneg (speed_hs v))) /\
  speed_hs <$> (parse_hashcat_benchmark "0 nan H/s" !! "MD5") = Some S754_nan /\
  fleb zero S754_nan = false.
Proof.
  split; [|split; [|split; reflexivity]].
  - intros output m key v Hm Hv. unfold parse_john_benchmark in Hm.
    destruct (john_lines_ok (split_on "010" output) ∅) as (r & Hr & Hall).
    { apply map_Forall_empty. }
    rewrite Hr in Hm. injection Hm as <-.
    apply has_sign_nonneg. exact (Hall key v Hv).
  - intros output key v Hv.
    apply (parse_hashcat_entries
             (fun key v =>
                exists line i part j,
                  In line (split_on "010" output) /\
                  nth_error (split line) i = Some part /\
                  hash_types !! part = Some key /\
                  later_unit (split line) i = Some j /\
                  In (nth (j - 1) (split line) EmptyString) (split line) /\
                  v = metric_at (split line) j /\
                  speed_hs v =
                    parse_hashcat_speed (nth (j - 1) (split line) EmptyString) /\
                  (well_formed hashcat_multipliers
                     (nth (j - 1) (split line) EmptyString) = true ->
                   nonneg (speed_hs v)))
             output) in Hv; [exact Hv|].
    intros line i part name j Hline Hpart Hname Hj.
    exists line, i, part, j.
    destruct (later_unit_spec _ _ _ Hj) as [Hb _].
    do 4 (split; [assumption|]).
    split; [apply nth_In; lia|]. split; [reflexivity|]. split; [reflexivity|].
    intros Hw. apply has_sign_nonneg. now apply well_formed_hashcat_sign.
Qed.

(** C4 at the speed line of the second tool and at ["0 12.4M H/s"], where
    the token before the unit marker is ["12.4M"]. *)
Lemma rates_nonneg_amended_witness :
  nonneg f3456 /\
  nonneg (fmul f12_4 f1e6).
Proof.
  destruct rates_nonneg_amended as (HJ & HH & _). split.
  - apply (HJ raw_md5_line
             {[ "Raw-MD5" := {| speed_cs := f3456; john_speed_formatted := "3456 c/s" |} ]}
             "Raw-MD5"
             {| speed_cs := f3456; john_speed_formatted := "3456 c/s" |});
      vm_compute; reflexivity.
  - destruct (HH "0 12.4M H/s" "MD5"
                {| speed_hs := fmul f12_4 f1e6; speed_formatted := "12.4M H/s" |})
      as (line & i & part & j & Hline & Hpart & Hname & Hj & _ & Hv & _ & Hpos);
      [vm_compute; reflexivity|].
    apply Hpos.
    destruct Hline as [<-|[]].
    assert (Hi : i = 0%nat).
    { destruct i as [|[|[|i]]]; [reflexivity| | |];
        vm_compute in Hpart; try discriminate;
        injection Hpart as <-; vm_compute in Hname; discriminate. }
    subst i. vm_compute in Hj. injection Hj as <-. reflexivity.
Defined.

(** Claim C4 as stated fails: on the line ["0 -5 H/s"] the first parser
    stores the rate -5.0 for MD5, and [0.0 <= -5.0] is false. *)
Lemma hashcat_rate_negative :
  speed_hs <$> (parse_hashcat_benchmark "0 -5 H/s" !! "MD5") =
    Some (float_of_decimal true 5 0) /\
  fleb zero (float_of_decimal true 5 0) = false.
Proof. vm_compute. auto. Qed.

Section JohnLabel.

Lemma john_lines_other_labels (key : string) (lines : list string)
    (r r' : gmap string john_metric) :
  (forall l, In l lines -> john_line_matches l = true -> john_label l <> key) ->
  john_lines r lines = Ok r' -> r' !! key = r !! key.
Proof.
  revert r; induction lines as [|l lines IH]; simpl; intros r Hl.
  - now intros [= <-].
  - pose proof (john_line_spec r l) as L.
    destruct (john_line_matches l) eqn:E.
    + destruct L as (m & g & _ & _ & _ & ->). cbn [mbind result_bind bind].
      intros H. rewrite (IH _ (fun l' Hin => Hl l' (or_intror Hin)) H).
      apply lookup_insert_ne. apply Hl; auto.
    + rewrite L. cbn [mbind result_bind bind].
      apply IH. intros l' Hin. apply Hl. now right.
Qed.

Lemma john_line_raw_md5 (r : gmap string john_metric) :
  john_line r raw_md5_line = Ok (<["Raw-MD5" := raw_md5_metric]> r).
Proof.
  pose proof (john_line_spec r raw_md5_line) as L.
  change (john_line_matches raw_md5_line) with true in L.
  destruct L as (m & g & Hs & Hg & _ & ->).
  assert (Hm : m = {| Re.group0 := "3456 c/s"; Re.groups := ["3456"] |}).
  { vm_compute in Hs. now injection Hs as <-. }
  subst m. simpl in Hg. injection Hg as <-. reflexivity.
Qed.

End JohnLabel.

Lemma john_lines_total (lines : list string) (r : gmap string john_metric) :
  exists r', john_lines r lines = Ok r'.
Proof.
  revert r; induction lines as [|l lines IH]; intros r; simpl; [eauto|].
  destruct (john_line_ok r l) as (r1 & -> & _). apply IH.
Qed.

(** Claim C9, as the code has it.  When the speed line for Raw-MD5 is a
    line of the input and no later line of the grammar carries the label
    ["Raw-MD5"], the entry for ["Raw-MD5"] has the rate 3456.0 and the
    display string ["3456 c/s"]. *)
Theorem john_raw_md5_amended (output : string) (before after : list string) :
  split_on "010" output = (before ++ raw_md5_line :: after)%list ->
  (forall l, In l after -> john_line_matches l = true -> john_label l <> "Raw-MD5") ->
  exists m, parse_john_benchmark output = Ok m /\
            m !! "Raw-MD5" = Some raw_md5_metric.
Proof.
  intros Hsplit Hafter. unfold parse_john_benchmark. rewrite Hsplit.
  rewrite john_lines_app.
  destruct (john_lines_total before ∅) as (r1 & ->).
  cbn [mbind result_bind bind john_lines]. rewrite john_line_raw_md5.
  cbn [mbind result_bind bind].
  destruct (john_lines_total after (<["Raw-MD5" := raw_md5_metric]> r1)) as (r2 & Hr2).
  exists r2. split; [exact Hr2|].
  rewrite (john_lines_other_labels "Raw-MD5" after _ r2 Hafter Hr2).
  apply lookup_insert_eq.
Qed.

(** C9 on a text with the line between two others. *)
Lemma john_raw_md5_amended_witness :
  exists m,
    parse_john_benchmark
      ("Raw-MD5 : 1 c/s" ++ nl ++ raw_md5_line ++ nl ++ "Raw-SHA1 : 2K c/s") = Ok m /\
    m !! "Raw-MD5" = Some raw_md5_metric.
Proof.
  apply (john_raw_md5_amended _ ["Raw-MD5 : 1 c/s"] ["Raw-SHA1 : 2K c/s"]).
  - reflexivity.
  - intros l [<-|[]] _. vm_compute. discriminate.
Defined.

(** Claim C9 as stated fails: a text holds the line and, after it, another
    line with the same label; the later line wins and the entry has the
    rate 1.0. *)
Lemma john_raw_md5_overwritten :
  In raw_md5_line (split_on "010" (raw_md5_line ++ nl ++ "Raw-MD5 : 1 c/s")) /\
  exists m,
    parse_john_benchmark (raw_md5_line ++ nl ++ "Raw-MD5 : 1 c/s") = Ok m /\
    m !! "Raw-MD5" =
      Some {| speed_cs := float_of_decimal false 1 0;
              john_speed_formatted := "1 c/s" |} /\
    m !! "Raw-MD5" <> Some raw_md5_metric.
Proof.
  split; [left; reflexivity|].
  eexists. split; [vm_compute; reflexivity|].
  split; [vm_compute; reflexivity|]. vm_compute. discriminate.
Qed.

Section HashcatKeys.

Lemma hashcat_token_keeps (parts : list string) (ip : nat * string) (key : string)
    (r : gmap string hashcat_metric) :
  is_Some (r !! key) -> is_Some (hashcat_token parts r ip !! key).
Proof.
  destruct ip as [i part]. rewrite hashcat_token_spec. intros H.
  destruct (hash_types !! part) as [name|]; [|exact H].
  destruct (later_unit parts i) as [j|]; [|exact H].
  rewrite lookup_insert. destruct (decide (name = key)); [eauto|exact H].
Qed.

Lemma hashcat_line_keeps (line key : string) (r : gmap string hashcat_metric) :
  is_Some (r !! key) -> is_Some (hashcat_line r line !! key).
Proof.
  intros H. unfold hashcat_line. destruct (contains "H/s" line); [|exact H].
  apply (fold_left_invariant (fun r => is_Some (r !! key))); [|exact H].
  intros x r' _. apply hashcat_token_keeps.
Qed.

Lemma fold_left_reaches {A B} (P : A -> Prop) (f : A -> B -> A) (l : list B) (x : B) :
  In x l ->
  (forall r, P (f r x)) ->
  (forall r y, P r -> P (f r y)) ->
  forall r, P (fold_left f l r).
Proof.
  intros Hin Hx Hk. apply in_split in Hin as (l1 & l2 & ->). intros r.
  rewrite fold_left_app. simpl.
  apply fold_left_invariant; auto.
Qed.

End HashcatKeys.

(** Claim C10.  On a line with the unit marker, the loop over the tokens
    treats every token alike: each token that is a key of [hash_types]
    starts the search for a later token with the unit marker and, when
    there is one, stores a metric under its algorithm, whatever the token
    stands for in the line.  So the algorithm of such a token is a key of
    the result, and the line ["0 100 MH/s"] yields both MD5 and SHA1. *)
Theorem every_code_token_extracts :
  (forall results line,
     contains "H/s" line = true ->
     hashcat_line results line =
       fold_left (token_step (split line)) (enumerate (split line)) results) /\
  (forall output line i part alg,
     In line (split_on "010" output) ->
     contains "H/s" line = true ->
     nth_error (split line) i = Some part ->
     hash_types !! part = Some alg ->
     is_Some (later_unit (split line) i) ->
     is_Some (parse_hashcat_benchmark output !! alg)) /\
  parse_hashcat_benchmark "0 100 MH/s" =
    <["MD5" := {| speed_hs := f100; speed_formatted := "100 MH/s" |}]>
      (<["SHA1" := {| speed_hs := f100; speed_formatted := "100 MH/s" |}]> ∅).
Proof.
  split; [|split].
  - intros results line H. unfold hashcat_line. rewrite H.
    revert results. generalize (enumerate (split line)).
    induction l as [|[i part] l IH]; intros results; cbn [fold_left]; [reflexivity|].
    rewrite hashcat_token_spec. apply IH.
  - intros output line i part alg Hline Hunit Hpart Halg [j Hj].
    unfold parse_hashcat_benchmark.
    apply (fold_left_reaches (fun r => is_Some (r !! alg)) hashcat_line _ line Hline);
      [|intros r y; apply hashcat_line_keeps].
    intros r. unfold hashcat_line. rewrite Hunit.
    apply (fold_left_reaches (fun r => is_Some (r !! alg)) _ _ (i, part));
      [now apply in_enumerate| |intros r' y; apply hashcat_token_keeps].
    intros r'. rewrite hashcat_token_spec, Halg, Hj, lookup_insert_eq. eauto.
  - vm_compute. reflexivity.
Qed.

(** C10 at the token ["100"] of ["0 100 MH/s"]. *)
Lemma every_code_token_extracts_witness :
  is_Some (parse_hashcat_benchmark "0 100 MH/s" !! "SHA1").
Proof.
  destruct every_code_token_extracts as (_ & H & _).
  apply (H "0 100 MH/s" "0 100 MH/s" 1%nat "100" "SHA1").
  - left. reflexivity.
  - reflexivity.
  - reflexivity.
  - reflexivity.
  - exists 2%nat. reflexivity.
Defined.

Section Runner.

Variable h : host.

Lemma timed_attack_ok (key : string) (argv : list string)
    (r : gmap string attack_result) (w : world) :
  exists v w', timed_attack h key argv r w = (Ok (<[key := v]> r), w').
Proof.
  unfold timed_attack, try_except, bindM, time_time, subprocess_run, ret.
  destruct (run_process h argv w) as [[c|e] w']; eauto.
Qed.

Lemma cleanup_ok (hf wf : string) (w : world) :
  exists w', cleanup h hf wf w = (Ok tt, w').
Proof.
  unfold cleanup, try_except, bindM, ret.
  destruct (os_remove h hf w) as [[[]|e] w1]; eauto.
  destruct (os_remove h wf w1) as [[[]|e] w2]; eauto.
Qed.

Lemma os_remove_done (path : string) (w : world) :
  remove_error h path w = None -> is_Some (files w !! path) ->
  os_remove h path w = (Ok tt, without path w).
Proof.
  intros H1 [c H2]. unfold os_remove. now rewrite H1, H2.
Qed.

Lemma cleanup_done (hf wf : string) (w : world) :
  remove_error h hf w = None -> is_Some (files w !! hf) ->
  remove_error h wf (without hf w) = None ->
  is_Some (files (without hf w) !! wf) ->
  cleanup h hf wf w = (Ok tt, without wf (without hf w)).
Proof.
  intros H1 H2 H3 H4. unfold cleanup, try_except, bindM.
  rewrite (os_remove_done hf w H1 H2), (os_remove_done wf _ H3 H4). reflexivity.
Qed.

End Runner.

(** Claim C5 on the code.  Once both fixture files are written,
    [run_attack_performance_test] returns both scenario entries and
    raises nothing, whatever the two tool invocations do (return any
    code, raise, time out); it ends with the clean-up of the world the
    attacks left, the clean-up raises nothing, and when both removals
    succeed both files are gone.  The writes themselves stand before the
    first [try] and the clean-up is a trailing block: when the word
    list cannot be written, the method leaves by that exception without
    reaching the clean-up, and the hash file it has just written stays;
    when the hash file cannot be written it leaves at once. *)
Theorem fixtures_removed_unless_write_fails (h : host) (self : instance) (w : world) :
  let hf := hash_file_name self in
  let wf := wordlist_file_name self in
  let w1 := with_file hf (lines_text test_hashes) w in
  let w3 := attacks_world h self w in
  let w4 := snd (cleanup h hf wf w3) in
  (write_error h hf w = None -> write_error h wf w1 = None ->
   (exists results,
      run_attack_performance_test h self w = (Ok results, w4) /\
      is_Some (results !! "hashcat_dictionary") /\
      is_Some (results !! "john_dictionary")) /\
   fst (cleanup h hf wf w3) = Ok tt /\
   (remove_error h hf w3 = None -> is_Some (files w3 !! hf) ->
    remove_error h wf (without hf w3) = None ->
    is_Some (files (without hf w3) !! wf) ->
    files w4 !! hf = None /\ files w4 !! wf = None)) /\
  (forall e, write_error h hf w = None -> write_error h wf w1 = Some e ->
     run_attack_performance_test h self w = (Raise e, w1) /\
     files (snd (run_attack_performance_test h self w)) !! hf =
       Some (lines_text test_hashes)) /\
  (forall e, write_error h hf w = Some e ->
     run_attack_performance_test h self w = (Raise e, w)).
Proof.
  intros hf wf w1 w3 w4. split; [|split].
  - intros Hw1 Hw2. unfold w1, with_file in Hw2.
    subst w4 w3. unfold attacks_world. fold hf wf. unfold with_file.
    unfold run_attack_performance_test.
    fold hf wf. unfold bindM at 1. unfold write_file at 1. rewrite Hw1.
    unfold bindM at 1. unfold write_file at 1. rewrite Hw2.
    set (w2 := {| files := <[wf := _]> _; clock := _ |}).
    unfold bindM at 1.
    destruct (timed_attack_ok h "hashcat_dictionary" (hashcat_attack hf wf) ∅ w2)
      as (v1 & wa & ->).
    unfold bindM at 1.
    destruct (timed_attack_ok h "john_dictionary" (john_attack hf wf)
                (<["hashcat_dictionary" := v1]> ∅) wa)
      as (v2 & w3 & ->).
    unfold bindM at 1. cbn [snd].
    destruct (cleanup_ok h hf wf w3) as (w4 & Hc). rewrite Hc. unfold ret. cbn [fst snd].
    split; [|split].
    + exists (<["john_dictionary" := v2]> (<["hashcat_dictionary" := v1]> ∅)).
      split; [reflexivity|]. split.
      * rewrite lookup_insert_ne by discriminate. rewrite lookup_insert_eq. eauto.
      * rewrite lookup_insert_eq. eauto.
    + reflexivity.
    + intros R1 R2 R3 R4. rewrite (cleanup_done h hf wf w3 R1 R2 R3 R4) in Hc.
      injection Hc as <-. simpl. split.
      * rewrite lookup_delete. destruct (decide (wf = hf)); [reflexivity|].
        apply lookup_delete_eq.
      * apply lookup_delete_eq.
  - intros e Hw1 Hw2.
    assert (E : run_attack_performance_test h self w = (Raise e, w1)).
    { unfold run_attack_performance_test.
      fold hf wf. unfold bindM at 1. unfold write_file at 1. rewrite Hw1.
      unfold bindM at 1. unfold write_file at 1.
      unfold w1, with_file in Hw2. now rewrite Hw2. }
    split; [exact E|]. rewrite E. unfold w1. cbn [snd with_file files].
    apply lookup_insert_eq.
  - intros e Hw1. unfold run_attack_performance_test, bindM, write_file.
    fold hf. now rewrite Hw1.
Qed.

(** C5 on a machine where everything succeeds, and on one where the
    word list cannot be written. *)
Lemma fixtures_removed_unless_write_fails_witness :
  files (snd (cleanup healthy (hash_file_name self0) (wordlist_file_name self0)
                (attacks_world healthy self0 empty_world)))
    !! hash_file_name self0 = None /\
  run_attack_performance_test wordlist_refused self0 empty_world =
    (Raise OSError, with_file (hash_file_name self0) (lines_text test_hashes) empty_world) /\
  files (snd (run_attack_performance_test wordlist_refused self0 empty_world))
    !! hash_file_name self0 = Some (lines_text test_hashes).
Proof.
  split.
  - destruct (fixtures_removed_unless_write_fails healthy self0 empty_world)
      as (Hok & _).
    destruct (Hok eq_refl eq_refl) as (_ & _ & Hgone).
    apply Hgone; vm_compute; eauto.
  - destruct (fixtures_removed_unless_write_fails wordlist_refused self0 empty_world)
      as (_ & Hleft & _).
    apply (Hleft OSError); reflexivity.
Defined.




Ltac break_match :=
  match goal with
  | |- context [match ?x with _ => _ end] => destruct x eqn:?
  end.

Section Collector.

Variable h : host.

Lemma collect_cpu_factor (info : system_info) (w : world) :
  collect_cpu h info w =
    (match fst (collect_cpu h (info0 h) w) with
     | Ok i => Ok (put_cpu (cpu i) info)
     | Raise e => Raise e
     end, w).
Proof.
  unfold collect_cpu, bindM, path_exists, read_file, lift, ret.
  destruct (bool_decide _); [|reflexivity].
  destruct (read_error h _ w); [reflexivity|].
  destruct (files w !! _); [|reflexivity].
  repeat (break_match; simpl; try reflexivity; try congruence).
Qed.

Lemma collect_memory_factor (info : system_info) (w : world) :
  collect_memory h info w =
    (match fst (collect_memory h (info0 h) w) with
     | Ok i => Ok (put_memory_gb (memory_gb i) info)
     | Raise e => Raise e
     end, w).
Proof.
  unfold collect_memory, bindM, path_exists, read_file, lift, ret.
  destruct (bool_decide _); [|reflexivity].
  destruct (read_error h _ w); [reflexivity|].
  destruct (files w !! _); [|reflexivity].
  repeat (break_match; simpl; try reflexivity; try congruence).
Qed.

Lemma collect_gpu_factor (info : system_info) (w : world) :
  collect_gpu h info w =
    (Ok (put_gpu (fact gpu (collect_gpu h (info0 h) w)) info),
     snd (collect_gpu h (info0 h) w)).
Proof.
  unfold fact, collect_gpu, try_except, bindM, subprocess_run, lift, ret.
  destruct (run_process h nvidia_smi w) as [[c|e] w1]; [|reflexivity].
  destruct (returncode c =? 0); [|reflexivity].
  destruct (index _ 0); reflexivity.
Qed.

Lemma gather_system_info_factor (w : world) :
  gather_system_info h w =
    match fst (collect_cpu h (info0 h) w) with
    | Raise e => if is_Exception e then (Ok (info0 h), w) else (Raise e, w)
    | Ok i1 =>
        let info1 := put_cpu (cpu i1) (info0 h) in
        match fst (collect_memory h (info0 h) w) with
        | Raise e => if is_Exception e then (Ok info1, w) else (Raise e, w)
        | Ok i2 =>
            (Ok (put_gpu (fact gpu (collect_gpu h (info0 h) w))
                   (put_memory_gb (memory_gb i2) info1)),
             snd (collect_gpu h (info0 h) w))
        end
    end.
Proof.
  unfold gather_system_info. fold (info0 h).
  rewrite (collect_cpu_factor (info0 h) w) at 1.
  destruct (fst (collect_cpu h (info0 h) w)) as [i1|e1]; [|reflexivity].
  cbn zeta. rewrite (collect_memory_factor (put_cpu (cpu i1) (info0 h)) w).
  destruct (fst (collect_memory h (info0 h) w)) as [i2|e2]; [|reflexivity].
  now rewrite collect_gpu_factor.
Qed.

End Collector.




Section Constructor.

Lemma gather_system_info_stamp (h : host) (w w' : world) (info : system_info) :
  gather_system_info h w = (Ok info, w') ->
  timestamp info = now_isoformat h /\ platform info = sys_platform h.
Proof.
  rewrite gather_system_info_factor.
  destruct (fst (collect_cpu h (info0 h) w)) as [i1|e1].
  - destruct (fst (collect_memory h (info0 h) w)) as [i2|e2]; cbn zeta.
    + intros [= <- _].
      destruct (cpu i1), (memory_gb i2), (fact gpu _); auto.
    + destruct (is_Exception e2); [|discriminate]. intros [= <- _].
      destruct (cpu i1); auto.
  - destruct (is_Exception e1); [|discriminate]. intros [= <- _]. auto.
Qed.

End Constructor.

(** Claim C8.  When [check_tool_availability] reports both tools
    unavailable, [generate_report] returns a report with no benchmark
    entry and no attack result, both availability flags false, and the
    system information of the instance, which holds the time stamp and
    the platform of the host. *)
Theorem report_without_tools (h : host) (self : instance) (w0 w1 w w' : world) :
  init_instance h w0 = (Ok self, w1) ->
  check_tool_availability h w = (Ok (false, false), w') ->
  generate_report h self w =
    (Ok {| rp_metadata :=
             {| md_timestamp := self_timestamp self;
                md_system_info := self_system_info self;
                md_tools_available :=
                  {| hashcat := false; john_the_ripper := false |} |};
           rp_benchmarks := {| bm_hashcat := None; bm_john_the_ripper := None |};
           rp_performance_tests := ∅ |}, w') /\
  timestamp (self_system_info self) = now_isoformat h /\
  platform (self_system_info self) = sys_platform h.
Proof.
  intros Hi H. split.
  - unfold generate_report. unfold bindM at 1. rewrite H. reflexivity.
  - unfold init_instance, bindM, ret in Hi.
    destruct (gather_system_info h w0) as [[info|e] w2] eqn:E; [|discriminate].
    injection Hi as <- <-. simpl. eapply gather_system_info_stamp; eauto.
Qed.

(** C8 on a machine without the tools. *)
Lemma report_without_tools_witness :
  generate_report bare self0 empty_world =
    (Ok {| rp_metadata :=
             {| md_timestamp := self_timestamp self0;
                md_system_info := self_system_info self0;
                md_tools_available :=
                  {| hashcat := false; john_the_ripper := false |} |};
           rp_benchmarks := {| bm_hashcat := None; bm_john_the_ripper := None |};
           rp_performance_tests := ∅ |}, empty_world) /\
  timestamp (self_system_info self0) = now_isoformat bare /\
  platform (self_system_info self0) = sys_platform bare.
Proof.
  apply (report_without_tools bare self0 empty_world empty_world); vm_compute; reflexivity.
Defined.

(** * Further properties *)

Import More.

(** ** Matches that the matcher finds *)

Section RegexFinds.

Variable ic : bool.

Lemma many_greedy {A} (a : Re.atom) (w rest : string)
    (k : string -> option A) (x : A) :
  all_match ic a w -> no_head ic a rest -> k rest = Some x ->
  Re.many ic a (w ++ rest) k = Some x.
Proof.
  intros Hw Hr Hk. induction w as [|c w IH]; simpl.
  - destruct rest as [|c r]; simpl in *; [exact Hk|]. now rewrite Hr.
  - destruct Hw as [Hc Hw]. now rewrite Hc, (IH Hw).
Qed.

Lemma exec_atom {A} (a : Re.atom) (c : ascii) (s : string) (caps : list string)
    (k : list string -> string -> option A) :
  Re.matches ic a c = true ->
  Re.exec ic (Re.Atom a) (String c s) caps k = k caps s.
Proof. intros H. simpl. now rewrite H. Qed.

Lemma exec_many {A} (a : Re.atom) (w rest : string) (caps : list string)
    (k : list string -> string -> option A) (x : A) :
  all_match ic a w -> no_head ic a rest -> k caps rest = Some x ->
  Re.exec ic (Re.Many a) (w ++ rest) caps k = Some x.
Proof. intros. simpl. now apply many_greedy. Qed.

Lemma exec_many1 {A} (a : Re.atom) (w rest : string) (caps : list string)
    (k : list string -> string -> option A) (x : A) :
  w <> EmptyString ->
  all_match ic a w -> no_head ic a rest -> k caps rest = Some x ->
  Re.exec ic (Re.Many1 a) (w ++ rest) caps k = Some x.
Proof.
  intros Hn Hw Hr Hk. destruct w as [|c w]; [congruence|].
  destruct Hw as [Hc Hw]. simpl. rewrite Hc. now apply many_greedy.
Qed.

Lemma exec_cat {A} (r1 r2 : Re.regex) (s : string) (caps : list string)
    (k : list string -> string -> option A) :
  Re.exec ic (Re.Cat r1 r2) s caps k =
    Re.exec ic r1 s caps (fun caps' s' => Re.exec ic r2 s' caps' k).
Proof. reflexivity. Qed.

Lemma exec_group {A} (r : Re.regex) (s : string) (caps : list string)
    (k : list string -> string -> option A) :
  Re.exec ic (Re.Group r) s caps k =
    Re.exec ic r s caps (fun caps' s' => k (caps' ++ [Re.consumed s s'])%list s').
Proof. reflexivity. Qed.

Lemma exec_maybe_take {A} (r : Re.regex) (s : string) (caps : list string)
    (k : list string -> string -> option A) (x : A) :
  Re.exec ic r s caps k = Some x -> Re.exec ic (Re.Maybe r) s caps k = Some x.
Proof. intros H. simpl. now rewrite H. Qed.

Lemma exec_maybe_skip {A} (r : Re.regex) (s : string) (caps : list string)
    (k : list string -> string -> option A) :
  Re.exec ic r s caps k = None -> Re.exec ic (Re.Maybe r) s caps k = k caps s.
Proof. intros H. simpl. now rewrite H. Qed.

Lemma exec_word_here {A} (w s : string) (r : Re.regex) (caps : list string)
    (k : list string -> string -> option A) :
  ic = false ->
  Re.exec ic (Re.word w r) (w ++ s) caps k = Re.exec ic r s caps k.
Proof.
  intros ->. induction w as [|c w IH]; simpl; [reflexivity|].
  now rewrite Ascii.eqb_refl.
Qed.

Lemma prefix_cons (c d : ascii) (w s : string) :
  String.prefix (String c w) (String d s) = Ascii.eqb c d && String.prefix w s.
Proof.
  change (String.prefix (String c w) (String d s))
    with (if ascii_dec c d then String.prefix w s else false).
  destruct (ascii_dec c d) as [->|Hne].
  - now rewrite Ascii.eqb_refl.
  - destruct (Ascii.eqb_spec c d); [congruence|reflexivity].
Qed.

Lemma exec_word_absent {A} (w s : string) (r : Re.regex) (caps : list string)
    (k : list string -> string -> option A) :
  ic = false -> String.prefix w s = false ->
  Re.exec ic (Re.word w r) s caps k = None.
Proof.
  intros ->. revert s; induction w as [|c w IH]; intros s H.
  - destruct s; discriminate.
  - destruct s as [|d s]; [reflexivity|].
    rewrite prefix_cons in H. simpl. rewrite Ascii.eqb_sym.
    destruct (Ascii.eqb c d); [apply IH, H|reflexivity].
Qed.

Lemma search_skips (w : string) (r : Re.regex) (pre s : string) :
  ic = false -> occurs_before w pre s = false ->
  Re.search ic (Re.word w r) (pre ++ s) = Re.search ic (Re.word w r) s.
Proof.
  intros Hic. induction pre as [|c pre IH]; simpl; [reflexivity|].
  intros H. apply orb_false_iff in H as [H1 H2].
  change (String c pre ++ s) with (String c (pre ++ s)) in H1.
  unfold Re.match_ at 1.
  rewrite (exec_word_absent w (String c (pre ++ s)) r [] _ Hic H1).
  apply IH, H2.
Qed.

End RegexFinds.

(** ** The facts of the host *)

Section HostFacts.

Lemma search_here (ic : bool) (r : Re.regex) (s : string) (m : Re.match_object) :
  Re.match_ ic r s = Some m -> Re.search ic r s = Some m.
Proof. intros H. destruct s; simpl; now rewrite H. Qed.

Lemma blank_all_match (ic : bool) (ws : string) :
  blank ws = true -> all_match ic Re.Space ws.
Proof.
  induction ws as [|c ws IH]; simpl; [auto|].
  intros H. apply andb_true_iff in H as [Hc Hw]. auto.
Qed.

Lemma digits_all_match (ic : bool) (d : string) :
  all_digits d = true -> all_match ic Re.Digit d.
Proof.
  induction d as [|c d IH]; simpl; [auto|].
  intros H. apply andb_true_iff in H as [Hc Hw]. auto.
Qed.


Lemma digit_no_space_head (ic : bool) (d rest : string) :
  d <> EmptyString -> all_digits d = true -> no_head ic Re.Space (d ++ rest).
Proof.
  destruct d as [|c d]; [congruence|]. simpl. intros _ H.
  apply andb_true_iff in H as [Hc _]. chars.
Qed.

Lemma mem_total_found (ws digits rest : string) :
  blank ws = true -> digits <> EmptyString -> all_digits digits = true ->
  no_digit_head rest ->
  exists g0,
    Re.match_ false mem_total_re ("MemTotal:" ++ ws ++ digits ++ rest) =
      Some {| Re.group0 := g0; Re.groups := [digits] |}.
Proof.
  intros Hws Hn Hd Hr. eexists. unfold Re.match_, mem_total_re.
  rewrite exec_word_here by reflexivity.
  rewrite exec_cat. apply exec_many.
  - now apply blank_all_match.
  - now apply digit_no_space_head.
  - rewrite exec_group.
    apply exec_many1;
      [exact Hn | now apply digits_all_match | destruct rest; simpl in *; auto |].
    rewrite consumed_app. reflexivity.
Qed.


Lemma int_digits (h : host) (digits : string) :
  digits <> EmptyString -> all_digits digits = true ->
  (forall n, int_max_str_digits h = Some n -> (String.length digits <= n)%nat) ->
  int_ h digits = Ok (digits_value 0 digits).
Proof.
  intros Hn Hd Hl. unfold int_. destruct digits as [|c d]; [congruence|].
  rewrite Hd. simpl negb. cbv iota.
  destruct (int_max_str_digits h) as [n|]; [|reflexivity].
  specialize (Hl n eq_refl).
  destruct (Nat.ltb_spec n (String.length (String c d))); [lia|reflexivity].
Qed.

Lemma path_present (w : world) (path content : string) :
  files w !! path = Some content ->
  bool_decide (is_Some (files w !! path)) = true.
Proof. intros H. apply bool_decide_eq_true_2. eauto. Qed.

End HostFacts.

(** Property X1: the memory size.  The memory block finds the first
    [MemTotal:] of [/proc/meminfo], reads the digits after it as a number of
    KiB and stores its quotient by 1024 * 1024, rounded down: the size in
    GiB, 0 below one GiB.  [gather_system_info] returns that value when the
    CPU block has not raised. *)
Theorem memory_gb_is_floor_of_gib (h : host) (w : world) (info : system_info)
    (pre ws digits rest : string) :
  files w !! "/proc/meminfo" =
    Some (pre ++ "MemTotal:" ++ ws ++ digits ++ rest) ->
  read_error h "/proc/meminfo" w = None ->
  occurs_before "MemTotal:" pre ("MemTotal:" ++ ws ++ digits ++ rest) = false ->
  blank ws = true ->
  digits <> EmptyString -> all_digits digits = true -> no_digit_head rest ->
  (forall n, int_max_str_digits h = Some n -> (String.length digits <= n)%nat) ->
  collect_memory h info w =
    (Ok (set_memory_gb (digits_value 0 digits / 1048576) info), w) /\
  (raises (fst (collect_cpu h (info0 h) w)) = false ->
   exists info' w',
     gather_system_info h w = (Ok info', w') /\
     memory_gb info' = Some (digits_value 0 digits / 1048576)).
Proof.
  intros Hf Hr Hpre Hws Hn Hd Hrest Hlim.
  assert (Hblock : forall i,
            collect_memory h i w =
              (Ok (set_memory_gb (digits_value 0 digits / 1048576) i), w)).
  { intros i.
    unfold collect_memory, bindM, path_exists, read_file, lift, ret.
    rewrite (path_present w _ _ Hf), Hr, Hf.
    unfold mem_total_re. rewrite search_skips by (reflexivity || exact Hpre).
    destruct (mem_total_found ws digits rest Hws Hn Hd Hrest) as [g0 Hm].
    unfold mem_total_re in Hm. rewrite (search_here _ _ _ _ Hm).
    change (Re.group {| Re.group0 := g0; Re.groups := [digits] |} 1) with (Ok digits).
    cbv beta iota. rewrite (int_digits h digits Hn Hd Hlim).
    do 3 f_equal. rewrite Z.div_div by lia. reflexivity. }
  split; [apply Hblock|].
  intros Hcpu. rewrite gather_system_info_factor, (Hblock (info0 h)).
  destruct (fst (collect_cpu h (info0 h) w)) as [i1|e]; [|discriminate].
  cbn [fst]. cbv zeta. do 2 eexists. split; [reflexivity|].
  destruct (fact gpu (collect_gpu h (info0 h) w)); reflexivity.
Qed.

Lemma memory_gb_is_floor_of_gib_witness :
  collect_memory all_readable (info0 all_readable) proc_world =
    (Ok (set_memory_gb 16 (info0 all_readable)), proc_world).
Proof.
  apply (memory_gb_is_floor_of_gib all_readable proc_world (info0 all_readable)
           EmptyString "       " "16777216" " kB");
    try reflexivity; try discriminate.
  intros n [= <-]. simpl. lia.
Defined.



(** ** Trimming *)

Section Trimming.

Variable sp : ascii -> bool.

Lemma rstrip_app (y r : string) (cl : ascii) :
  last_char y = Ok cl -> sp cl = false ->
  rstrip_with sp (y ++ r) = y ++ rstrip_with sp r.
Proof.
  induction y as [|c y IH]; simpl; [discriminate|].
  destruct y as [|c' y'].
  - intros [= ->] Hc. simpl. destruct (rstrip_with sp r); [now rewrite Hc|reflexivity].
  - intros Hl Hc. rewrite (IH Hl Hc). reflexivity.
Qed.

Lemma rstrip_prefix (s : string) :
  exists t, s = rstrip_with sp s ++ t.
Proof.
  induction s as [|c s [t IH]]; simpl; [now exists EmptyString|].
  destruct (rstrip_with sp s) as [|d u] eqn:E.
  - destruct (sp c).
    + exists (String c s). reflexivity.
    + exists s. reflexivity.
  - exists t. simpl in *. now f_equal.
Qed.


End Trimming.





(** ** Substrings, fields and tokens *)

Section Substrings.

Lemma prefix_nil (s : string) : String.prefix EmptyString s = true.
Proof. destruct s; reflexivity. Qed.

Lemma prefix_app (n t b : string) :
  String.prefix n t = true -> String.prefix n (t ++ b) = true.
Proof.
  revert t; induction n as [|c n IH]; intros t H; [apply prefix_nil|].
  destruct t as [|d t]; [discriminate|].
  change (String d t ++ b) with (String d (t ++ b)).
  rewrite prefix_cons in *. apply andb_true_iff in H as [-> H]. now apply IH.
Qed.

Lemma prefix_self (n b : string) : String.prefix n (n ++ b) = true.
Proof.
  induction n as [|c n IH]; [apply prefix_nil|].
  change (String c n ++ b) with (String c (n ++ b)).
  now rewrite prefix_cons, Ascii.eqb_refl.
Qed.

Lemma contains_app_r (n a t : string) :
  contains n t = true -> contains n (a ++ t) = true.
Proof.
  intros H. induction a as [|c a IH]; simpl; [exact H|].
  rewrite IH. apply orb_true_r.
Qed.

Lemma contains_app_l (n t b : string) :
  contains n t = true -> contains n (t ++ b) = true.
Proof.
  induction t as [|c t IH]; cbn [contains String.append].
  - rewrite orb_false_r. intros H.
    destruct n; [|discriminate]. destruct b; reflexivity.
  - intros H. apply orb_true_iff in H as [H|H].
    + change (String c (t ++ b)) with (String c t ++ b).
      now rewrite (prefix_app _ _ b H).
    + rewrite (IH H). apply orb_true_r.
Qed.

Lemma contains_prefix (n s : string) :
  String.prefix n s = true -> contains n s = true.
Proof. intros H. destruct s; cbn [contains]; now rewrite H. Qed.

Lemma mem_char_app (c : ascii) (a b : string) :
  mem_char c (a ++ b) = mem_char c a || mem_char c b.
Proof. induction a as [|d a IH]; simpl; [reflexivity|]. now rewrite IH, orb_assoc. Qed.

Lemma lower_app (a b : string) : lower (a ++ b) = lower a ++ lower b.
Proof. induction a as [|c a IH]; simpl; [reflexivity|]. now rewrite IH. Qed.

(** A field of [split_on] is a piece of the string, the first one at its
    start, and holds no separator. *)
Lemma split_on_pieces (sep : ascii) (s : string) :
  match split_on sep s with
  | first :: rest =>
      (exists b, s = first ++ b) /\
      (forall p, In p rest -> exists a b, s = a ++ p ++ b)
  | [] => False
  end.
Proof.
  induction s as [|c s IH]; simpl.
  - split; [now exists EmptyString|]. intros p [].
  - destruct (split_on sep s) as [|first rest]; [contradiction|].
    destruct IH as [[b Hb] Hrest].
    destruct (Ascii.eqb c sep).
    + split; [now exists (String c s)|].
      intros p [<-|Hp].
      * exists (String c EmptyString), b. simpl. now f_equal.
      * destruct (Hrest p Hp) as (a & b' & ->).
        exists (String c a), b'. reflexivity.
    + split; [exists b; simpl; now f_equal|].
      intros p Hp. destruct (Hrest p Hp) as (a & b' & ->).
      exists (String c a), b'. reflexivity.
Qed.

Lemma split_on_piece (sep : ascii) (s p : string) :
  In p (split_on sep s) -> exists a b, s = a ++ p ++ b.
Proof.
  intros H. pose proof (split_on_pieces sep s) as P.
  destruct (split_on sep s) as [|first rest]; [contradiction|].
  destruct P as [[b Hb] Hrest]. destruct H as [<-|H].
  - exists EmptyString, b. exact Hb.
  - now apply Hrest.
Qed.

Lemma split_on_no_sep (sep : ascii) (s p : string) :
  In p (split_on sep s) -> mem_char sep p = false.
Proof.
  revert p; induction s as [|c s IH]; simpl; intros p.
  - intros [<-|[]]. reflexivity.
  - pose proof (split_on_nonempty sep s) as Hne.
    destruct (split_on sep s) as [|first rest]; [congruence|].
    destruct (Ascii.eqb c sep) eqn:E.
    + intros [<-|H]; [reflexivity|]. now apply IH.
    + intros [<-|H].
      * simpl. rewrite Ascii.eqb_sym, E. apply IH. now left.
      * apply IH. now right.
Qed.

Lemma contains_piece (n s a b : string) :
  contains n s = true -> contains n (a ++ s ++ b) = true.
Proof. intros H. apply contains_app_r, contains_app_l, H. Qed.

End Substrings.

Section Tokens.

Lemma split_solid (s tok : string) :
  In tok (split s) -> tok <> EmptyString /\ solid tok = true.
Proof.
  revert tok; induction s as [|c s IH]; intros tok; simpl; [intros []|].
  destruct (is_space c) eqn:Hc; [apply IH|].
  destruct s as [|c' s'].
  - intros [<-|[]]. simpl. rewrite Hc. split; [discriminate|reflexivity].
  - destruct (is_space c') eqn:Hc'.
    + intros [<-|H]; [|now apply IH].
      simpl. rewrite Hc. split; [discriminate|reflexivity].
    + destruct (split (String c' s')) as [|cur rest] eqn:E.
      * intros [<-|[]]. simpl. rewrite Hc. split; [discriminate|reflexivity].
      * intros [<-|H].
        -- destruct (IH cur (or_introl eq_refl)) as [_ Hs].
           simpl. rewrite Hc, Hs. split; [discriminate|reflexivity].
        -- apply IH. now right.
Qed.

Lemma split_token (a rest : string) (sp : ascii) :
  a <> EmptyString -> solid a = true -> is_space sp = true ->
  split (a ++ String sp rest) = a :: split rest.
Proof.
  intros Hn Ha Hsp. induction a as [|c a IH]; [congruence|].
  simpl in Ha. apply andb_true_iff in Ha as [Hc Ha].
  apply negb_true_iff in Hc.
  change (split (String c a ++ String sp rest))
    with (split (String c (a ++ String sp rest))).
  cbn [split]. rewrite Hc.
  destruct a as [|c' a'].
  - simpl. now rewrite Hsp.
  - change (String c' a' ++ String sp rest) with (String c' (a' ++ String sp rest)).
    simpl in Ha. apply andb_true_iff in Ha as [Hc' Ha'].
    apply negb_true_iff in Hc'. rewrite Hc'.
    change (String c' (a' ++ String sp rest)) with (String c' a' ++ String sp rest).
    rewrite IH; [reflexivity|discriminate|].
    simpl. now rewrite Hc', Ha'.
Qed.

Lemma split_one (a : string) :
  a <> EmptyString -> solid a = true -> split a = [a].
Proof.
  intros Hn Ha. induction a as [|c a IH]; [congruence|].
  simpl in Ha. apply andb_true_iff in Ha as [Hc Ha].
  apply negb_true_iff in Hc. cbn [split]. rewrite Hc.
  destruct a as [|c' a']; [reflexivity|].
  pose proof Ha as Ha0.
  simpl in Ha. apply andb_true_iff in Ha as [Hc' Ha'].
  apply negb_true_iff in Hc'. rewrite Hc'.
  rewrite IH; [reflexivity|discriminate|exact Ha0].
Qed.

(** A token, a blank, a token: two tokens again. *)
Lemma split_pair (a b : string) :
  a <> EmptyString -> solid a = true -> b <> EmptyString -> solid b = true ->
  split (a ++ " " ++ b) = [a; b].
Proof.
  intros Ha1 Ha2 Hb1 Hb2.
  change (a ++ " " ++ b) with (a ++ String " " b).
  rewrite split_token by auto. now rewrite split_one.
Qed.

End Tokens.

(** ** The entries of the first parser *)

Section HashcatEntries.

Lemma hash_types_values (part name : string) :
  hash_types !! part = Some name -> In name algorithms.
Proof.
  unfold hash_types, algorithms.
  rewrite !lookup_insert_Some, lookup_empty. simpl. intuition congruence.
Qed.



End HashcatEntries.

(** Property X4: the keys of the first parser.  Whatever the text, the
    mapping of [parse_hashcat_benchmark] has no key outside the five
    algorithm names of [hash_types]. *)
Theorem hashcat_keys_are_algorithms (output key : string) :
  is_Some (parse_hashcat_benchmark output !! key) -> In key algorithms.
Proof.
  intros [v Hv].
  apply (parse_hashcat_entries (fun k _ => In k algorithms) output) in Hv; auto.
  intros line i part name j _ _ Hn _. eapply hash_types_values; eauto.
Qed.

Lemma hashcat_keys_are_algorithms_witness : In "MD5" algorithms.
Proof.
  apply (hashcat_keys_are_algorithms "0 12.4 MH/s" "MD5"). vm_compute. eauto.
Defined.

(** Property X5: rate and display string of the first parser.  In every
    entry the display string is two tokens, the second of which holds the
    unit marker, and the rate is the normalizer's value of the first:
    splitting the display string gives back what the rate was computed from. *)
Theorem hashcat_rate_matches_display (output key : string) (v : hashcat_metric) :
  parse_hashcat_benchmark output !! key = Some v ->
  exists number unit,
    split (speed_formatted v) = [number; unit] /\
    speed_hs v = parse_hashcat_speed number /\
    contains "H/s" unit = true.
Proof.
  intros Hv.
  apply (parse_hashcat_entries
           (fun _ v => exists number unit,
              split (speed_formatted v) = [number; unit] /\
              speed_hs v = parse_hashcat_speed number /\
              contains "H/s" unit = true) output) in Hv; auto.
  intros line i part name j _ _ _ Hj.
  apply later_unit_spec in Hj as [Hb Hu].
  exists (nth (j - 1) (split line) EmptyString), (nth j (split line) EmptyString).
  assert (H1 : In (nth (j - 1) (split line) EmptyString) (split line))
    by (apply nth_In; lia).
  assert (H2 : In (nth j (split line) EmptyString) (split line))
    by (apply nth_In; lia).
  apply split_solid in H1 as [? ?], H2 as [? ?].
  split; [|split; [reflexivity|exact Hu]].
  unfold metric_at. cbn [speed_formatted]. now apply split_pair.
Qed.

Lemma hashcat_rate_matches_display_witness :
  exists number unit,
    split "12.4 MH/s" = [number; unit] /\
    f12_4 = parse_hashcat_speed number /\
    contains "H/s" unit = true.
Proof.
  apply (hashcat_rate_matches_display "0 12.4 MH/s" "MD5"
           {| speed_hs := f12_4; speed_formatted := "12.4 MH/s" |}).
  vm_compute. reflexivity.
Defined.

(** ** Texts put together *)

Section Overlay.

Context {V B : Type}.

Lemma fold_left_overlays (f : gmap string V -> B -> gmap string V) :
  overlays f -> overlays (fun r l => fold_left f l r).
Proof.
  intros Hf r l. revert r; induction l as [|x l IH]; intros r; simpl.
  - now rewrite (left_id_L ∅ (∪)).
  - rewrite (IH (f r x)), (IH (f ∅ x)), (Hf r x).
    now rewrite (assoc_L (∪)).
Qed.

Lemma insert_overlay (k : string) (v : V) (r : gmap string V) :
  <[k := v]> r = <[k := v]> ∅ ∪ r.
Proof. now rewrite insert_empty, insert_union_singleton_l. Qed.

End Overlay.

Section HashcatOverlay.

Lemma hashcat_token_overlays (parts : list string) :
  overlays (hashcat_token parts).
Proof.
  intros r [i part]. rewrite !hashcat_token_spec.
  destruct (hash_types !! part); [|now rewrite (left_id_L ∅ (∪))].
  destruct (later_unit parts i); [|now rewrite (left_id_L ∅ (∪))].
  apply insert_overlay.
Qed.

Lemma hashcat_line_overlays : overlays hashcat_line.
Proof.
  intros r line. unfold hashcat_line.
  destruct (contains "H/s" line); [|now rewrite (left_id_L ∅ (∪))].
  apply (fold_left_overlays _ (hashcat_token_overlays (split line))).
Qed.

End HashcatOverlay.

Section JohnOverlay.

(** What a line of the second parser adds. *)
Lemma john_line_overlays (r : gmap string john_metric) (line : string) :
  exists m, john_line ∅ line = Ok m /\ john_line r line = Ok (m ∪ r).
Proof.
  pose proof (john_line_spec r line) as H1.
  pose proof (john_line_spec ∅ line) as H0.
  destruct (john_line_matches line).
  - destruct H1 as (m1 & g1 & S1 & G1 & _ & ->).
    destruct H0 as (m0 & g0 & S0 & G0 & _ & ->).
    rewrite S1 in S0. injection S0 as <-. rewrite G1 in G0. injection G0 as <-.
    eexists. split; [reflexivity|]. f_equal. apply insert_overlay.
  - rewrite H1, H0. exists ∅. now rewrite (left_id_L ∅ (∪)).
Qed.

Lemma john_lines_overlays (lines : list string) (r : gmap string john_metric) :
  exists m, john_lines ∅ lines = Ok m /\ john_lines r lines = Ok (m ∪ r).
Proof.
  revert r; induction lines as [|line lines IH]; intros r; simpl.
  - exists ∅. now rewrite (left_id_L ∅ (∪)).
  - destruct (john_line_overlays r line) as (m1 & H0 & ->).
    rewrite H0. cbn [mbind result_bind bind].
    destruct (IH (m1 ∪ r)) as (m2 & E2 & ->).
    destruct (IH m1) as (m2' & E2' & ->).
    rewrite E2 in E2'. injection E2' as <-.
    exists (m2 ∪ m1). split; [reflexivity|]. now rewrite (assoc_L (∪)).
Qed.

End JohnOverlay.

Lemma john_two_texts (a b : string) :
  exists ma mb,
    parse_john_benchmark a = Ok ma /\
    parse_john_benchmark b = Ok mb /\
    parse_john_benchmark (a ++ nl ++ b) = Ok (mb ∪ ma).
Proof.
  unfold parse_john_benchmark. rewrite lines_without, john_lines_app.
  destruct (john_lines_total (split_on "010" a) ∅) as [ma Ha].
  rewrite Ha. cbn [mbind result_bind bind].
  destruct (john_lines_overlays (split_on "010" b) ma) as (mb & Hb & ->).
  eauto.
Qed.

(** Property X6: texts put together.  The parse of one text followed, on a
    new line, by another is the parse of the second laid over the parse of
    the first: the entries of the second text win, the others stay.  This
    holds for both parsers. *)
Theorem parse_of_two_texts (a b : string) :
  parse_hashcat_benchmark (a ++ nl ++ b) =
    parse_hashcat_benchmark b ∪ parse_hashcat_benchmark a /\
  exists ma mb,
    parse_john_benchmark a = Ok ma /\
    parse_john_benchmark b = Ok mb /\
    parse_john_benchmark (a ++ nl ++ b) = Ok (mb ∪ ma).
Proof.
  split.
  - unfold parse_hashcat_benchmark. rewrite lines_without, fold_left_app.
    apply (fold_left_overlays _ hashcat_line_overlays).
  - apply john_two_texts.
Qed.

(** ** Texts without a unit marker *)

Section NoMarker.

Lemma line_contains (n text line : string) :
  In line (split_on "010" text) ->
  contains n line = true -> contains n text = true.
Proof.
  intros Hin H. apply split_on_piece in Hin as (a & b & ->).
  now apply contains_piece.
Qed.

Lemma line_lower_contains (n text line : string) :
  In line (split_on "010" text) ->
  contains n (lower line) = true -> contains n (lower text) = true.
Proof.
  intros Hin H. apply split_on_piece in Hin as (a & b & ->).
  rewrite !lower_app. now apply contains_piece.
Qed.

Lemma john_lines_fixed (lines : list string) (r : gmap string john_metric) :
  (forall l, In l lines -> john_line r l = Ok r) -> john_lines r lines = Ok r.
Proof.
  induction lines as [|l lines IH]; simpl; intros H; [reflexivity|].
  rewrite (H l) by now left. cbn [mbind result_bind bind].
  apply IH. intros l' Hl'. apply H. now right.
Qed.

End NoMarker.

(** Property X7: texts without a unit marker.  A text in which ["H/s"] does
    not occur gives the empty mapping with [parse_hashcat_benchmark]; a text
    in which ["c/s"] does not occur in any case, or which has no colon,
    gives the empty mapping with [parse_john_benchmark]. *)
Theorem no_marker_no_entries (output : string) :
  (contains "H/s" output = false -> parse_hashcat_benchmark output = ∅) /\
  (contains "c/s" (lower output) = false \/ contains ":" output = false ->
   parse_john_benchmark output = Ok ∅).
Proof.
  split.
  - intros H. unfold parse_hashcat_benchmark. apply fold_left_fixed.
    intros line Hin. unfold hashcat_line.
    destruct (contains "H/s" line) eqn:E; [|reflexivity].
    rewrite (line_contains _ _ _ Hin E) in H. discriminate.
  - intros H. unfold parse_john_benchmark. apply john_lines_fixed.
    intros line Hin. unfold john_line.
    destruct (contains "c/s" (lower line)) eqn:E1; [|reflexivity].
    destruct (contains ":" line) eqn:E2; [|reflexivity].
    rewrite (line_lower_contains _ _ _ Hin E1), (line_contains _ _ _ Hin E2) in H.
    destruct H; discriminate.
Qed.

Lemma no_marker_no_entries_witness :
  parse_hashcat_benchmark ("hashcat: command failed" ++ nl ++ "0 12.4 MB") = ∅ /\
  parse_john_benchmark ("No password hashes loaded" ++ nl ++ "speed 5 C/S") = Ok ∅.
Proof.
  split.
  - apply (no_marker_no_entries ("hashcat: command failed" ++ nl ++ "0 12.4 MB")).
    reflexivity.
  - apply (no_marker_no_entries ("No password hashes loaded" ++ nl ++ "speed 5 C/S")).
    right. reflexivity.
Defined.

(** ** The entries of the second parser *)

Section JohnEntries.

Lemma lstrip_head (sp : ascii -> bool) (s : string) :
  match lstrip_with sp s with
  | String c _ => sp c = false
  | EmptyString => True
  end.
Proof.
  induction s as [|c s IH]; simpl; [exact I|].
  destruct (sp c) eqn:E; [exact IH|exact E].
Qed.

Lemma lstrip_suffix (sp : ascii -> bool) (s : string) :
  exists a, s = a ++ lstrip_with sp s.
Proof.
  induction s as [|c s [a IH]]; simpl; [now exists EmptyString|].
  destruct (sp c).
  - exists (String c a). simpl. now f_equal.
  - now exists EmptyString.
Qed.

Lemma rstrip_idem (sp : ascii -> bool) (s : string) :
  rstrip_with sp (rstrip_with sp s) = rstrip_with sp s.
Proof.
  induction s as [|c s IH]; simpl; [reflexivity|].
  destruct (rstrip_with sp s) as [|d u] eqn:E.
  - destruct (sp c) eqn:Hc; simpl; [reflexivity|now rewrite Hc].
  - change (rstrip_with sp (String c (String d u)))
      with (match rstrip_with sp (String d u) with
            | EmptyString => if sp c then EmptyString else String c EmptyString
            | String e r => String c (String e r)
            end).
    now rewrite IH.
Qed.

Lemma strip_idem (s : string) : strip (strip s) = strip s.
Proof.
  unfold strip.
  pose proof (lstrip_head is_space s) as Hh.
  destruct (rstrip_prefix is_space (lstrip_with is_space s)) as [t Ht].
  destruct (rstrip_with is_space (lstrip_with is_space s)) as [|d u] eqn:E;
    [reflexivity|].
  rewrite Ht in Hh. simpl in Hh.
  cbn [lstrip_with]. rewrite Hh. rewrite <- E. apply rstrip_idem.
Qed.

Lemma strip_chars (c : ascii) (s : string) :
  mem_char c s = false -> mem_char c (strip s) = false.
Proof.
  unfold strip. intros H.
  destruct (lstrip_suffix is_space s) as [a Ha].
  destruct (rstrip_prefix is_space (lstrip_with is_space s)) as [t Ht].
  rewrite Ha, Ht, !mem_char_app in H.
  apply orb_false_iff in H as [_ H]. now apply orb_false_iff in H as [H _].
Qed.

Lemma piece_chars (c : ascii) (s a p b : string) :
  s = a ++ p ++ b -> mem_char c s = false -> mem_char c p = false.
Proof.
  intros -> H. rewrite !mem_char_app in H.
  apply orb_false_iff in H as [_ H]. now apply orb_false_iff in H as [H _].
Qed.

Lemma john_label_clean (text line : string) :
  In line (split_on "010" text) ->
  trimmed (john_label line) /\
  mem_char ":" (john_label line) = false /\
  mem_char "010" (john_label line) = false.
Proof.
  intros Hin. unfold john_label, trimmed.
  pose proof (split_on_nonempty ":" line) as Hne.
  destruct (split_on ":" line) as [|p0 rest] eqn:E; [congruence|].
  assert (H0 : In p0 (split_on ":" line)) by (rewrite E; now left).
  split; [apply strip_idem|]. split.
  - apply strip_chars. eapply split_on_no_sep; eauto.
  - apply strip_chars.
    destruct (split_on_piece _ _ _ H0) as (a & b & Hp).
    eapply piece_chars; [exact Hp|]. eapply split_on_no_sep; eauto.
Qed.

(** Every entry comes from a line of the grammar. *)
Lemma parse_john_entries (P : string -> john_metric -> Prop) (output : string) :
  (forall line m g,
     In line (split_on "010" output) ->
     Re.search true john_speed_re (strip (nth 1 (split_on ":" line) EmptyString)) = Some m ->
     Re.groups m = [g] ->
     P (john_label line)
       {| speed_cs := parse_john_speed g; john_speed_formatted := Re.group0 m |}) ->
  forall r, parse_john_benchmark output = Ok r -> map_Forall P r.
Proof.
  intros HP. unfold parse_john_benchmark.
  assert (G : forall lines r0 r,
             (forall l, In l lines -> In l (split_on "010" output)) ->
             map_Forall P r0 -> john_lines r0 lines = Ok r -> map_Forall P r).
  { induction lines as [|l lines IH]; simpl; intros r0 r Hsub H0.
    - now intros [= <-].
    - pose proof (john_line_spec r0 l) as L.
      destruct (john_line_matches l).
      + destruct L as (m & g & Hs & Hg & _ & ->). cbn [mbind result_bind bind].
        apply IH; [intros; apply Hsub; now right|].
        apply map_Forall_insert_2; [|exact H0].
        apply (HP l m g); auto.
      + rewrite L. cbn [mbind result_bind bind].
        apply IH; [intros; apply Hsub; now right|exact H0]. }
  intros r. apply G; [auto|apply map_Forall_empty].
Qed.

End JohnEntries.

(** Property X8: the keys of the second parser.  Every key of the mapping of
    [parse_john_benchmark] has no white space at either end and holds
    neither a colon nor a line break. *)
Theorem john_keys_are_clean (output key : string) (r : gmap string john_metric) :
  parse_john_benchmark output = Ok r ->
  is_Some (r !! key) ->
  trimmed key /\ mem_char ":" key = false /\ mem_char "010" key = false.
Proof.
  intros Hr [v Hv].
  apply (parse_john_entries
           (fun k _ => trimmed k /\ mem_char ":" k = false /\ mem_char "010" k = false)
           output) in Hr.
  - exact (Hr key v Hv).
  - intros line m g Hin _ _. eapply john_label_clean; eauto.
Qed.

Lemma john_keys_are_clean_witness :
  trimmed "Raw-MD5" /\ mem_char ":" "Raw-MD5" = false /\ mem_char "010" "Raw-MD5" = false.
Proof.
  apply (john_keys_are_clean raw_md5_line "Raw-MD5" {[ "Raw-MD5" := raw_md5_metric ]}).
  - vm_compute. reflexivity.
  - vm_compute. eauto.
Defined.

(** ** What the second parser stores *)

Section JohnDisplay.

(** A match of the speed pattern: the number of its group, then what
    the rest of the pattern matches. *)
Lemma john_match_shape (s : string) (m : Re.match_object) :
  Re.search true john_speed_re s = Some m ->
  exists g t,
    Re.groups m = [g] /\ Re.group0 m = g ++ t /\
    lang true john_number_re g /\ lang true john_unit_re t.
Proof.
  intros H. apply search_match in H as [t H].
  unfold Re.match_, john_speed_re in H. simpl in H.
  change (Re.exec true john_number_re t []
            (fun caps' s' =>
               Re.exec true john_unit_re
                 s' (caps' ++ [Re.consumed t s'])%list
                 (fun caps rest =>
                    Some {| Re.group0 := Re.consumed t rest; Re.groups := caps |}))
          = Some m) in H.
  apply exec_sound in H as (g & s' & -> & Hg & H); [|reflexivity].
  apply exec_sound in H as (w2 & s2 & -> & Hw2 & H); [|reflexivity].
  injection H as <-. cbn [Re.groups Re.group0 app].
  rewrite consumed_app, <- append_assoc, consumed_app.
  exists g, w2. auto.
Qed.

End JohnDisplay.

(** Property X9: rate and display of the second parser.  In every entry
    of [parse_john_benchmark] the display string is a match of the
    pattern [(\d+(?:\.\d+)?[KMG]?)\s*c/s] read without regard to case, as
    the text has it: the string of the group, which the pattern of the
    group matches, followed by a string that the rest of the pattern
    matches; and the rate is [parse_john_speed] of the string of the
    group. *)
Theorem john_rate_matches_display (output key : string)
    (r : gmap string john_metric) (v : john_metric) :
  parse_john_benchmark output = Ok r ->
  r !! key = Some v ->
  exists g t,
    john_speed_formatted v = g ++ t /\
    speed_cs v = parse_john_speed g /\
    lang true john_number_re g /\
    lang true john_unit_re t /\
    lang true john_speed_re (john_speed_formatted v).
Proof.
  intros Hr Hv.
  apply (parse_john_entries
           (fun _ v => exists g t,
              john_speed_formatted v = g ++ t /\
              speed_cs v = parse_john_speed g /\
              lang true john_number_re g /\
              lang true john_unit_re t /\
              lang true john_speed_re (john_speed_formatted v))
           output) in Hr.
  - exact (Hr key v Hv).
  - intros line m g Hin Hs Hg.
    apply john_match_shape in Hs as (g' & t & Hg' & H0 & Hl & Ht).
    rewrite Hg in Hg'. injection Hg' as <-.
    exists g, t. cbn [john_speed_formatted speed_cs].
    do 4 (split; [auto|]). rewrite H0. exists g, t. auto.
Qed.

Lemma john_rate_matches_display_witness :
  exists g t,
    john_speed_formatted raw_md5_metric = g ++ t /\
    speed_cs raw_md5_metric = parse_john_speed g /\
    lang true john_number_re g /\
    lang true john_unit_re t /\
    lang true john_speed_re (john_speed_formatted raw_md5_metric).
Proof.
  apply (john_rate_matches_display raw_md5_line "Raw-MD5"
           {[ "Raw-MD5" := raw_md5_metric ]} raw_md5_metric).
  - vm_compute. reflexivity.
  - vm_compute. reflexivity.
Defined.

(** ** Lines of the second tool that the pattern finds *)

Section JohnFinds.

Lemma lower_c (c : ascii) (l : ascii) :
  lower_char c = l -> 97 <= code l <= 122 ->
  65 <= code c <= 90 \/ 97 <= code c <= 122.
Proof.
  intros H Hl. destruct (lower_char_cases c) as [E|[E R]].
  - rewrite E in H. subst l. now right.
  - rewrite H in E. pose proof (code_range c). lia.
Qed.

Lemma letter_heads (c : ascii) :
  65 <= code c <= 90 \/ 97 <= code c <= 122 ->
  is_digit c = false /\ is_space c = false /\
  Re.matches true (Re.Char ".") c = false.
Proof.
  intros H. repeat split.
  - chars.
  - chars.
  - cbn [Re.matches]. destruct (Ascii.eqb _ _) eqn:E; [|reflexivity].
    apply lower_char_point in E. subst c. revert H. literal_codes. lia.
Qed.

Lemma suffix_is_letter (c : ascii) :
  mem_char (lower_char c) "kmg" = true ->
  65 <= code c <= 90 \/ 97 <= code c <= 122.
Proof.
  intros H. simpl in H. rewrite orb_false_r in H.
  apply orb_true_iff in H as [H|H]; [|apply orb_true_iff in H as [H|H]];
    apply Ascii.eqb_eq in H; apply (lower_c c _ H); literal_codes; lia.
Qed.

Lemma space_heads (c : ascii) :
  is_space c = true ->
  is_digit c = false /\
  Re.matches true (Re.Char ".") c = false /\
  Re.matches true (Re.OneOf "KMG") c = false.
Proof.
  intros H. repeat split.
  - chars.
  - cbn [Re.matches]. destruct (Ascii.eqb _ _) eqn:E; [|reflexivity].
    apply lower_char_point in E. subst c. discriminate.
  - cbn [Re.matches]. change (lower "KMG") with "kmg".
    destruct (mem_char (lower_char c) "kmg") eqn:E; [|reflexivity].
    apply suffix_is_letter in E. revert H. chars.
Qed.

(** The unit in some case: three characters. *)
Lemma unit_chars (u : string) :
  lower u = "c/s" ->
  exists c1 c2 c3,
    u = String c1 (String c2 (String c3 EmptyString)) /\
    lower_char c1 = "c"%char /\ lower_char c2 = "/"%char /\ lower_char c3 = "s"%char.
Proof.
  destruct u as [|c1 [|c2 [|c3 [|c4 u]]]]; simpl; try discriminate.
  intros [= H1 H2 H3]. eauto 8.
Qed.

Lemma unit_head (u rest : string) (a : Re.atom) :
  lower u = "c/s" ->
  a = Re.Digit \/ a = Re.Space \/ a = Re.Char "." \/ a = Re.OneOf "KMG" ->
  no_head true a (u ++ rest).
Proof.
  intros Hu Ha. apply unit_chars in Hu as (c1 & c2 & c3 & -> & H1 & _ & _).
  cbn [String.append no_head].
  assert (L : 65 <= code c1 <= 90 \/ 97 <= code c1 <= 122).
  { apply (lower_c c1 _ H1). literal_codes. lia. }
  destruct (letter_heads c1 L) as (Hd & Hs & Hp).
  destruct Ha as [->|[->|[->| ->]]]; auto.
  cbn [Re.matches]. now rewrite H1.
Qed.

Lemma blank_head (ws t : string) (a : Re.atom) :
  blank ws = true ->
  a = Re.Digit \/ a = Re.Char "." \/ a = Re.OneOf "KMG" ->
  no_head true a t -> no_head true a (ws ++ t).
Proof.
  destruct ws as [|c ws]; [auto|]. cbn [blank String.append no_head].
  intros H Ha _. apply andb_true_iff in H as [Hc _].
  destruct (space_heads c Hc) as (Hd & Hp & Hk).
  destruct Ha as [->|[->| ->]]; auto.
Qed.

Lemma suffix_head (suf t : string) (a : Re.atom) :
  speed_suffix suf ->
  a = Re.Digit \/ a = Re.Char "." ->
  no_head true a t -> no_head true a (suf ++ t).
Proof.
  intros [->|(c & -> & Hc)] Ha Ht; [exact Ht|].
  cbn [String.append no_head].
  destruct (letter_heads c (suffix_is_letter c Hc)) as (Hd & _ & Hp).
  destruct Ha as [->| ->]; auto.
Qed.

Lemma exec_atom_absent {A} (ic : bool) (a : Re.atom) (s : string)
    (caps : list string) (k : list string -> string -> option A) :
  no_head ic a s -> Re.exec ic (Re.Atom a) s caps k = None.
Proof. destruct s as [|c s]; simpl; [reflexivity|]. now intros ->. Qed.

Lemma exec_suffix {A} (suf t : string) (caps : list string)
    (k : list string -> string -> option A) (x : A) :
  speed_suffix suf -> no_head true (Re.OneOf "KMG") t ->
  k caps t = Some x ->
  Re.exec true (Re.Maybe (Re.Atom (Re.OneOf "KMG"))) (suf ++ t) caps k = Some x.
Proof.
  intros [->|(c & -> & Hc)] Ht Hk.
  - change (EmptyString ++ t) with t.
    rewrite exec_maybe_skip; [exact Hk|]. now apply exec_atom_absent.
  - apply exec_maybe_take. change (String c EmptyString ++ t) with (String c t).
    rewrite exec_atom; [exact Hk|]. exact Hc.
Qed.

Lemma exec_unit {A} (ws u rest : string) (caps : list string)
    (k : list string -> string -> option A) (x : A) :
  blank ws = true -> lower u = "c/s" -> k caps rest = Some x ->
  Re.exec true
    (Re.Cat (Re.Many Re.Space)
       (Re.Cat (Re.Atom (Re.Char "c"))
          (Re.Cat (Re.Atom (Re.Char "/")) (Re.Atom (Re.Char "s")))))
    (ws ++ u ++ rest) caps k = Some x.
Proof.
  intros Hws Hu Hk. rewrite exec_cat.
  apply exec_many;
    [now apply blank_all_match | apply unit_head; auto |].
  apply unit_chars in Hu as (c1 & c2 & c3 & -> & H1 & H2 & H3).
  cbn [String.append]. rewrite exec_cat, exec_atom, exec_cat, exec_atom, exec_atom;
    [exact Hk| | |]; cbn [Re.matches]; [rewrite H3|rewrite H2|rewrite H1]; reflexivity.
Qed.

Lemma exec_number {A} (d suf t : string) (caps : list string)
    (k : list string -> string -> option A) (x : A) :
  is_numeral d = true -> speed_suffix suf ->
  no_head true Re.Digit t -> no_head true (Re.Char ".") t ->
  no_head true (Re.OneOf "KMG") t ->
  k caps t = Some x ->
  Re.exec true john_number_re (d ++ suf ++ t) caps k = Some x.
Proof.
  intros Hd Hsuf T1 T2 T3 Hk. unfold john_number_re. rewrite exec_cat.
  apply is_numeral_shape in Hd.
  destruct Hd as [ip Hn Hip|ip fp Hn Hip Hnf Hfp].
  - apply exec_many1;
      [exact Hn | now apply digits_all_match | apply suffix_head; auto |].
    rewrite exec_cat, exec_maybe_skip.
    + now apply exec_suffix.
    + rewrite exec_cat. apply exec_atom_absent. apply suffix_head; auto.
  - rewrite append_assoc. apply exec_many1;
      [exact Hn | now apply digits_all_match | reflexivity |].
    rewrite exec_cat. apply exec_maybe_take.
    cbn [String.append]. rewrite exec_cat, exec_atom by reflexivity.
    apply exec_many1;
      [exact Hnf | now apply digits_all_match | apply suffix_head; auto |].
    now apply exec_suffix.
Qed.

(** The pattern matches a speed at the start of a string, and the match
    is the one it reports. *)
Lemma john_speed_found (d suf ws u rest : string) :
  is_numeral d = true -> speed_suffix suf ->
  blank ws = true -> lower u = "c/s" ->
  Re.search true john_speed_re (d ++ suf ++ ws ++ u ++ rest) =
    Some {| Re.group0 := d ++ suf ++ ws ++ u; Re.groups := [d ++ suf] |}.
Proof.
  intros Hd Hsuf Hws Hu. apply search_here.
  unfold Re.match_, john_speed_re. rewrite exec_cat, exec_group.
  apply exec_number; auto.
  - apply blank_head; auto. apply unit_head; auto.
  - apply blank_head; auto. apply unit_head; auto.
  - apply blank_head; auto. apply unit_head; auto.
  - apply exec_unit; auto. cbn [app]. f_equal. f_equal.
    + rewrite <- (append_assoc ws), <- (append_assoc suf), <- (append_assoc d).
      rewrite consumed_app. reflexivity.
    + rewrite <- (append_assoc d). rewrite consumed_app. reflexivity.
Qed.

End JohnFinds.

Section JohnLine.

(** A colon or a line break is no character of a speed. *)
Lemma blank_free (c : ascii) (s : string) :
  is_space c = false -> blank s = true -> mem_char c s = false.
Proof.
  intros Hc. induction s as [|x s IH]; simpl; [reflexivity|].
  intros H. apply andb_true_iff in H as [Hx Hs]. rewrite (IH Hs), orb_false_r.
  destruct (Ascii.eqb_spec c x); [congruence|reflexivity].
Qed.

Lemma plain_free (c : ascii) (s : string) :
  is_digit c = false -> c <> "."%char -> plain s -> mem_char c s = false.
Proof.
  intros Hd Hp. induction s as [|x s IH]; simpl; [reflexivity|].
  intros [Hx Hs]. rewrite (IH Hs), orb_false_r.
  destruct (Ascii.eqb_spec c x) as [->|]; [|reflexivity].
  destruct Hx; congruence.
Qed.

Lemma suffix_free (c : ascii) (suf : string) :
  code c < 65 -> speed_suffix suf -> mem_char c suf = false.
Proof.
  intros Hc [->|(x & -> & Hx)]; [reflexivity|]. simpl. rewrite orb_false_r.
  apply suffix_is_letter in Hx.
  destruct (Ascii.eqb_spec c x) as [->|]; [lia|reflexivity].
Qed.

Lemma unit_free (c : ascii) (u : string) :
  code c < 65 -> c <> "/"%char -> lower u = "c/s" -> mem_char c u = false.
Proof.
  intros Hc Hs Hu. apply unit_chars in Hu as (c1 & c2 & c3 & -> & H1 & H2 & H3).
  assert (L1 : 65 <= code c1 <= 90 \/ 97 <= code c1 <= 122)
    by (apply (lower_c c1 _ H1); literal_codes; lia).
  assert (L3 : 65 <= code c3 <= 90 \/ 97 <= code c3 <= 122)
    by (apply (lower_c c3 _ H3); literal_codes; lia).
  assert (L2 : c2 = "/"%char).
  { destruct (lower_char_cases c2) as [E|[E R]]; [congruence|].
    rewrite H2 in E. revert E. literal_codes. lia. }
  subst c2. simpl. rewrite orb_false_r.
  destruct (Ascii.eqb_spec c c1) as [->|]; [lia|].
  destruct (Ascii.eqb_spec c "/") as [->|]; [congruence|].
  destruct (Ascii.eqb_spec c c3) as [->|]; [lia|reflexivity].
Qed.

Lemma speed_free (c : ascii) (lead d suf ws u : string) :
  code c < 48 \/ code c = 58 -> is_space c = false -> c <> "."%char -> c <> "/"%char ->
  blank lead = true -> is_numeral d = true -> speed_suffix suf ->
  blank ws = true -> lower u = "c/s" ->
  mem_char c (lead ++ d ++ suf ++ ws ++ u) = false.
Proof.
  intros Hc Hsp Hp Hs Hl Hd Hsuf Hws Hu. rewrite !mem_char_app.
  rewrite (blank_free c lead Hsp Hl), (blank_free c ws Hsp Hws).
  rewrite (plain_free c d); [| chars | exact Hp |
    now apply numeral_plain, is_numeral_shape].
  rewrite (suffix_free c suf) by (auto; lia).
  rewrite (unit_free c u) by (auto; lia). reflexivity.
Qed.

Lemma split_on_prepend (sep : ascii) (x r : string) :
  mem_char sep x = false ->
  split_on sep (x ++ r) =
    match split_on sep r with
    | p :: more => (x ++ p) :: more
    | [] => [x]
    end.
Proof.
  induction x as [|c x IH]; cbn [String.append mem_char].
  - intros _. pose proof (split_on_nonempty sep r).
    destruct (split_on sep r); [congruence|reflexivity].
  - intros H. apply orb_false_iff in H as [H1 H2].
    cbn [split_on]. rewrite Ascii.eqb_sym, H1, (IH H2).
    pose proof (split_on_nonempty sep r).
    destruct (split_on sep r); [congruence|reflexivity].
Qed.

Lemma lstrip_lead (lead s : string) :
  blank lead = true ->
  lstrip_with is_space (lead ++ s) = lstrip_with is_space s.
Proof.
  induction lead as [|c lead IH]; cbn [String.append blank lstrip_with]; [reflexivity|].
  intros H. apply andb_true_iff in H as [-> H]. now apply IH.
Qed.

Lemma numeral_starts (d s : string) :
  is_numeral d = true -> lstrip_with is_space (d ++ s) = d ++ s.
Proof.
  intros Hd. apply is_numeral_shape in Hd.
  destruct (numeral_head d Hd) as (c & d' & -> & Hc).
  cbn [String.append lstrip_with].
  replace (is_space c) with false by chars. reflexivity.
Qed.

Lemma unit_last (y u : string) :
  lower u = "c/s" ->
  exists cl, last_char (y ++ u) = Ok cl /\ is_space cl = false.
Proof.
  intros Hu. apply unit_chars in Hu as (c1 & c2 & c3 & -> & _ & _ & H3).
  exists c3. split.
  - rewrite last_char_app by discriminate. reflexivity.
  - assert (L3 : 65 <= code c3 <= 90 \/ 97 <= code c3 <= 122)
      by (apply (lower_c c3 _ H3); literal_codes; lia).
    chars.
Qed.

(** The field behind the first colon, trimmed. *)
Lemma speed_field (label lead d suf ws u rest : string) :
  mem_char ":" label = false ->
  blank lead = true -> is_numeral d = true -> speed_suffix suf ->
  blank ws = true -> lower u = "c/s" ->
  exists tail more,
    split_on ":" (speed_line label lead d suf ws u rest) =
      label :: (lead ++ d ++ suf ++ ws ++ u ++ tail) :: more /\
    strip (lead ++ d ++ suf ++ ws ++ u ++ tail) =
      d ++ suf ++ ws ++ u ++ rstrip_with is_space tail.
Proof.
  intros Hlab Hl Hd Hsuf Hws Hu. unfold speed_line.
  pose proof (split_on_nonempty ":" rest) as Hne.
  destruct (split_on ":" rest) as [|tail more] eqn:E; [congruence|].
  exists tail, more. split.
  - change (label ++ ":" ++ lead ++ d ++ suf ++ ws ++ u ++ rest)
      with (label ++ String ":" (lead ++ d ++ suf ++ ws ++ u ++ rest)).
    rewrite split_on_app, (split_on_single _ _ Hlab). cbn [app]. f_equal.
    replace (lead ++ d ++ suf ++ ws ++ u ++ rest)
      with ((lead ++ d ++ suf ++ ws ++ u) ++ rest) by now rewrite !append_assoc.
    rewrite split_on_prepend, E.
    + now rewrite !append_assoc.
    + apply speed_free; auto; try discriminate; try (right; reflexivity).
  - unfold strip. rewrite (lstrip_lead _ _ Hl), (numeral_starts _ _ Hd).
    destruct (unit_last (d ++ suf ++ ws) u Hu) as (cl & Hcl & Hs).
    replace (d ++ suf ++ ws ++ u ++ tail)
      with (((d ++ suf ++ ws) ++ u) ++ tail) by now rewrite !append_assoc.
    rewrite (rstrip_app is_space _ _ cl Hcl Hs). now rewrite !append_assoc.
Qed.

(** What a line of the grammar adds. *)
Lemma john_line_speed (r : gmap string john_metric)
    (label lead d suf ws u rest : string) :
  mem_char ":" label = false ->
  blank lead = true -> is_numeral d = true -> speed_suffix suf ->
  blank ws = true -> lower u = "c/s" ->
  john_line r (speed_line label lead d suf ws u rest) =
    Ok (<[strip label :=
            {| speed_cs := parse_john_speed (d ++ suf);
               john_speed_formatted := d ++ suf ++ ws ++ u |}]> r).
Proof.
  intros Hlab Hl Hd Hsuf Hws Hu.
  destruct (speed_field label lead d suf ws u rest) as (tail & more & Hsplit & Hstrip);
    auto.
  pose proof (john_speed_found d suf ws u (rstrip_with is_space tail) Hd Hsuf Hws Hu)
    as Hfound.
  pose proof (john_line_spec r (speed_line label lead d suf ws u rest)) as L.
  assert (Hm : john_line_matches (speed_line label lead d suf ws u rest) = true).
  { unfold john_line_matches. rewrite Hsplit, Hstrip, Hfound.
    rewrite bool_decide_eq_true_2 by eauto. rewrite andb_true_r.
    apply andb_true_iff. split.
    - unfold speed_line. rewrite !lower_app, Hu.
      do 6 apply contains_app_r. apply contains_prefix, prefix_self.
    - unfold speed_line. apply contains_app_r, contains_prefix, prefix_self. }
  rewrite Hm in L. destruct L as (m & g & Hs & Hg & _ & ->).
  rewrite Hsplit in Hs. cbn [nth] in Hs. rewrite Hstrip, Hfound in Hs.
  injection Hs as <-. cbn [Re.groups Re.group0] in *. injection Hg as <-.
  unfold john_label. rewrite Hsplit. reflexivity.
Qed.

End JohnLine.

(** Property X10: a speed line of the second tool.  A line of the text with
    a label without colon, a colon, white space, a decimal numeral with at
    most one of the letters K, M, G in either case, white space and the unit
    in either case gives the entry of the trimmed label: the rate is
    [parse_john_speed] of numeral and letter, the display string is the
    match as the text has it.  The entry stands in the result when no later
    line of the grammar has the same label. *)
Theorem john_speed_line_entry (output : string) (before after : list string)
    (label lead d suf ws u rest : string) :
  split_on "010" output =
    (before ++ speed_line label lead d suf ws u rest :: after)%list ->
  mem_char ":" label = false ->
  blank lead = true -> is_numeral d = true -> speed_suffix suf ->
  blank ws = true -> lower u = "c/s" ->
  (forall l, In l after -> john_line_matches l = true -> john_label l <> strip label) ->
  exists m,
    parse_john_benchmark output = Ok m /\
    m !! strip label =
      Some {| speed_cs := parse_john_speed (d ++ suf);
              john_speed_formatted := d ++ suf ++ ws ++ u |}.
Proof.
  intros Hsplit Hlab Hl Hd Hsuf Hws Hu Hafter.
  unfold parse_john_benchmark. rewrite Hsplit, john_lines_app.
  destruct (john_lines_total before ∅) as (r1 & ->).
  cbn [mbind result_bind bind john_lines].
  rewrite (john_line_speed r1 label lead d suf ws u rest) by auto.
  cbn [mbind result_bind bind].
  destruct (john_lines_total after
              (<[strip label :=
                   {| speed_cs := parse_john_speed (d ++ suf);
                      john_speed_formatted := d ++ suf ++ ws ++ u |}]> r1))
    as (r2 & Hr2).
  exists r2. split; [exact Hr2|].
  rewrite (john_lines_other_labels (strip label) after _ r2 Hafter Hr2).
  apply lookup_insert_eq.
Qed.

Lemma john_speed_line_entry_witness :
  exists m,
    parse_john_benchmark
      ("Benchmarking: descrypt" ++ nl ++ " Many salts :" ++ "  " ++ "12.5" ++ "M" ++
       " " ++ "C/S" ++ " real: x" ++ nl ++ "done") = Ok m /\
    m !! "Many salts" =
      Some {| speed_cs := parse_john_speed "12.5M";
              john_speed_formatted := "12.5M C/S" |}.
Proof.
  apply (john_speed_line_entry _ ["Benchmarking: descrypt"] ["done"]
           " Many salts " "  " "12.5" "M" " " "C/S" " real: x").
  - vm_compute. reflexivity.
  - reflexivity.
  - reflexivity.
  - reflexivity.
  - right. exists "M"%char. split; reflexivity.
  - reflexivity.
  - reflexivity.
  - intros l [<-|[]] H. discriminate H.
Defined.

(** Property X11: the suffix in lower case.  The pattern of the second
    parser takes the letters K, M, G in either case, the table of
    [parse_john_speed] only the capitals: on a one-line text with a numeral
    and a capital letter of the table the rate is the numeral times the
    multiplier, on the same text with the letter k, m or g the display
    string keeps the letter and the rate is [0.0]. *)
Theorem john_suffix_case (label d : string) (c : ascii) :
  mem_char ":" label = false -> mem_char "010" label = false ->
  is_numeral d = true ->
  (forall mult, char_dict_get john_multipliers c = Ok mult ->
     parse_john_benchmark (speed_line label " " d (String c EmptyString) " " "c/s" EmptyString) =
       Ok {[ strip label :=
               {| speed_cs := fmul (numeral_value d) mult;
                  john_speed_formatted := d ++ String c EmptyString ++ " c/s" |} ]}) /\
  (mem_char c "kmg" = true ->
     parse_john_benchmark (speed_line label " " d (String c EmptyString) " " "c/s" EmptyString) =
       Ok {[ strip label :=
               {| speed_cs := zero;
                  john_speed_formatted := d ++ String c EmptyString ++ " c/s" |} ]}).
Proof.
  intros Hlab Hnl Hd.
  destruct (normalize_spec john_multipliers john_keys_not_digits)
    as (N1 & _ & _ & N4 & _).
  assert (Hline : forall suf, speed_suffix suf ->
            parse_john_benchmark (speed_line label " " d suf " " "c/s" EmptyString) =
              Ok {[ strip label :=
                      {| speed_cs := parse_john_speed (d ++ suf);
                         john_speed_formatted := d ++ suf ++ " c/s" |} ]}).
  { intros suf Hsuf. unfold parse_john_benchmark.
    rewrite split_on_single.
    - cbn [john_lines]. rewrite john_line_speed by auto.
      cbn [mbind result_bind bind]. now rewrite insert_empty.
    - unfold speed_line. rewrite mem_char_app, Hnl.
      change (":" ++ " " ++ d ++ suf ++ " " ++ "c/s" ++ EmptyString)
        with (String ":" (" " ++ d ++ suf ++ " " ++ "c/s" ++ EmptyString)).
      cbn [mem_char orb]. change (Ascii.eqb "010" ":") with false. cbn [orb].
      rewrite append_empty_r, !mem_char_app.
      rewrite (plain_free "010" d);
        [| reflexivity | discriminate | now apply numeral_plain, is_numeral_shape].
      rewrite (suffix_free "010" suf) by (auto; reflexivity). reflexivity. }
  split.
  - intros mult Hm.
    assert (Hsuf : speed_suffix (String c EmptyString)).
    { right. exists c. split; [reflexivity|].
      revert Hm. unfold john_multipliers, char_dict_get.
      destruct (Ascii.eqb_spec c "K") as [->|]; [reflexivity|].
      destruct (Ascii.eqb_spec c "M") as [->|]; [reflexivity|].
      destruct (Ascii.eqb_spec c "G") as [->|]; [reflexivity|discriminate]. }
    rewrite (Hline _ Hsuf).
    change (parse_john_speed (d ++ String c EmptyString))
      with (normalize john_multipliers (d ++ String c EmptyString)).
    now rewrite (N1 d c mult Hd Hm).
  - intros Hc.
    assert (Hlow : c = "k"%char \/ c = "m"%char \/ c = "g"%char).
    { simpl in Hc. rewrite orb_false_r in Hc.
      apply orb_true_iff in Hc as [H|H]; [|apply orb_true_iff in H as [H|H]];
        apply Ascii.eqb_eq in H; auto. }
    assert (Hsuf : speed_suffix (String c EmptyString)).
    { right. exists c. split; [reflexivity|].
      destruct Hlow as [->|[->| ->]]; reflexivity. }
    rewrite (Hline _ Hsuf).
    change (parse_john_speed (d ++ String c EmptyString))
      with (normalize john_multipliers (d ++ String c EmptyString)).
    rewrite (N4 d c Hd); [reflexivity| | | |];
      destruct Hlow as [->|[->| ->]]; try reflexivity; discriminate.
Qed.

Lemma john_suffix_case_witness :
  parse_john_benchmark "Raw-SHA1: 2K c/s" =
    Ok {[ "Raw-SHA1" := {| speed_cs := fmul (numeral_value "2") f1e3;
                           john_speed_formatted := "2K c/s" |} ]} /\
  parse_john_benchmark "Raw-SHA1: 2k c/s" =
    Ok {[ "Raw-SHA1" := {| speed_cs := zero; john_speed_formatted := "2k c/s" |} ]}.
Proof.
  split.
  - apply (john_suffix_case "Raw-SHA1" "2" "K"); reflexivity.
  - apply (john_suffix_case "Raw-SHA1" "2" "k"); reflexivity.
Defined.

Section ModeCodes.

Lemma hash_types_keys (part name : string) :
  hash_types !! part = Some name ->
  In part ["0"; "100"; "1400"; "3200"; "1800"].
Proof.
  unfold hash_types.
  rewrite !lookup_insert_Some, lookup_empty. simpl. intuition congruence.
Qed.

Lemma solid_free (s : string) (c : ascii) :
  is_space c = true -> solid s = true -> mem_char c s = false.
Proof.
  intros Hc. induction s as [|x s IH]; simpl; [reflexivity|].
  intros H. apply andb_true_iff in H as [Hx Hs]. rewrite (IH Hs), orb_false_r.
  destruct (Ascii.eqb_spec c x) as [->|]; [|reflexivity].
  rewrite Hc in Hx. discriminate.
Qed.

End ModeCodes.

(** Property X12: a mode code next to the unit.  The rate is read from the
    token before the first token with the unit marker, whatever that token
    is: on a line of a mode code and a unit token alone the mode code itself
    is read as the rate, so the line ["100 MH/s"] records SHA1 at 100.0. *)
Theorem mode_code_taken_as_rate (code name unit : string) :
  hash_types !! code = Some name ->
  unit <> EmptyString -> solid unit = true -> contains "H/s" unit = true ->
  parse_hashcat_benchmark (code ++ " " ++ unit) =
    {[ name := {| speed_hs := numeral_value code;
                  speed_formatted := code ++ " " ++ unit |} ]}.
Proof.
  intros Hn Hne Hs Hu.
  assert (Hc : code <> EmptyString /\ solid code = true /\
               mem_char "010" code = false /\ is_numeral code = true).
  { apply hash_types_keys in Hn. simpl in Hn.
    destruct Hn as [<-|[<-|[<-|[<-|[<-|[]]]]]]; repeat split; discriminate. }
  destruct Hc as (C1 & C2 & C3 & C4).
  unfold parse_hashcat_benchmark. rewrite split_on_single.
  - cbn [fold_left]. unfold hashcat_line.
    rewrite (contains_app_r "H/s" code (" " ++ unit)) by now apply contains_app_r.
    rewrite (split_pair code unit C1 C2 Hne Hs).
    cbn [enumerate fold_left]. change (enumerate [code; unit]) with [(0%nat, code); (1%nat, unit)].
    cbn [fold_left]. rewrite !hashcat_token_spec, Hn.
    assert (L0 : later_unit [code; unit] 0 = Some 1%nat).
    { unfold later_unit. change (range (0 + 1) (length [code; unit])) with [1%nat].
      cbn [find nth]. now rewrite Hu. }
    assert (L1 : later_unit [code; unit] 1 = None) by reflexivity.
    rewrite L0, L1. unfold metric_at. cbn [nth Nat.sub].
    destruct (hash_types !! unit); rewrite insert_empty;
      change (parse_hashcat_speed code) with (normalize hashcat_multipliers code);
      destruct (normalize_spec hashcat_multipliers hashcat_keys_not_digits)
        as (_ & N2 & _); now rewrite (N2 code C4).
  - rewrite !mem_char_app, C3, (solid_free unit "010" eq_refl Hs). reflexivity.
Qed.

Lemma mode_code_taken_as_rate_witness :
  parse_hashcat_benchmark ("100" ++ " " ++ "MH/s") =
    {[ "SHA1" := {| speed_hs := numeral_value "100";
                    speed_formatted := "100" ++ " " ++ "MH/s" |} ]}.
Proof. apply (mode_code_taken_as_rate "100" "SHA1" "MH/s"); reflexivity || discriminate. Defined.

(** ** Probes and benchmarks *)

Section Tools.

Variable h : host.

Lemma check_tool_availability_flags (w : world) :
  check_tool_availability h w =
    (Ok (negb (raises (fst (run_process h hashcat_probe w))),
         negb (raises (fst (run_process h john_probe
                              (snd (run_process h hashcat_probe w)))))),
     snd (run_process h john_probe (snd (run_process h hashcat_probe w)))).
Proof.
  unfold check_tool_availability, try_except, bindM, subprocess_run, ret.
  fold hashcat_probe john_probe.
  destruct (run_process h hashcat_probe w) as [[c1|e1] w1]; cbn [fst snd];
    destruct (run_process h john_probe w1) as [[c2|e2] w2]; reflexivity.
Qed.

Lemma benchmark_hashcat_cases (w : world) :
  benchmark_hashcat h w =
    match run_process h hashcat_bench w with
    | (Ok c, w') =>
        (Ok (if returncode c =? 0 then parse_hashcat_benchmark (stdout c) else ∅), w')
    | (Raise e, w') => (if is_Exception e then Ok ∅ else Raise e, w')
    end.
Proof.
  unfold benchmark_hashcat, try_except_Exception, try_except, bindM,
    subprocess_run, ret, raise.
  fold hashcat_bench.
  destruct (run_process h hashcat_bench w) as [[c|e] w'].
  - destruct (returncode c =? 0); reflexivity.
  - destruct (is_Exception e); reflexivity.
Qed.

Lemma parse_john_total (s : string) : exists m, parse_john_benchmark s = Ok m.
Proof. apply john_lines_total. Qed.

Lemma benchmark_john_cases (w : world) :
  benchmark_john h w =
    match run_process h john_bench w with
    | (Ok c, w') => (parse_john_benchmark (stdout c ++ stderr c), w')
    | (Raise e, w') => (if is_Exception e then Ok ∅ else Raise e, w')
    end.
Proof.
  unfold benchmark_john, try_except_Exception, try_except, bindM,
    subprocess_run, ret, raise, lift.
  fold john_bench.
  destruct (run_process h john_bench w) as [[c|e] w'].
  - destruct (parse_john_total (stdout c ++ stderr c)) as [m ->]. reflexivity.
  - destruct (is_Exception e); reflexivity.
Qed.

End Tools.

(** Property X13: the probes.  [check_tool_availability] raises nothing,
    whatever the launches raise; a tool counts as available exactly when its
    probe could be launched and returned, whatever its exit code; and the
    second probe runs after the first whatever the first did. *)
Theorem probes_need_only_a_launch (h : host) (w : world) :
  let r1 := run_process h hashcat_probe w in
  let r2 := run_process h john_probe (snd r1) in
  exists a b,
    check_tool_availability h w = (Ok (a, b), snd r2) /\
    (a = true <-> exists c, fst r1 = Ok c) /\
    (b = true <-> exists c, fst r2 = Ok c).
Proof.
  intros r1 r2. rewrite check_tool_availability_flags. fold r1 r2.
  eexists _, _. split; [reflexivity|]. split.
  - destruct (fst r1) as [c|e]; simpl; split; eauto.
    + discriminate.
    + intros [c [=]].
  - destruct (fst r2) as [c|e]; simpl; split; eauto.
    + discriminate.
    + intros [c [=]].
Qed.

Lemma probes_need_only_a_launch_witness :
  exists a b,
    check_tool_availability reporting empty_world = (Ok (a, b), empty_world) /\
    a = true /\ b = true.
Proof.
  destruct (probes_need_only_a_launch reporting empty_world) as (a & b & H & Ha & Hb).
  exists a, b. split; [exact H|]. split.
  - apply Ha. eexists. reflexivity.
  - apply Hb. eexists. reflexivity.
Defined.

(** Property X14: the benchmark of the first tool.  [benchmark_hashcat]
    raises no [Exception]; every key of its mapping is one of the five
    algorithm names; and a mapping with an entry is the parse of the
    standard output of a run that ended with exit code 0: nothing is parsed
    after another exit code, and the error stream is never parsed. *)
Theorem benchmark_hashcat_outcomes (h : host) (w : world) :
  (forall e, fst (benchmark_hashcat h w) = Raise e -> is_Exception e = false) /\
  (forall r key,
     fst (benchmark_hashcat h w) = Ok r -> is_Some (r !! key) ->
     In key algorithms /\
     exists c,
       fst (run_process h hashcat_bench w) = Ok c /\
       returncode c = 0 /\ r = parse_hashcat_benchmark (stdout c)).
Proof.
  rewrite benchmark_hashcat_cases.
  destruct (run_process h hashcat_bench w) as [[c|e] w']; cbn [fst]; split.
  - discriminate.
  - intros r key [= <-] Hk. destruct (Z.eqb_spec (returncode c) 0) as [E|E].
    + split; [|eauto].
      destruct Hk as [v Hv].
      apply (parse_hashcat_entries (fun k _ => In k algorithms) (stdout c)) in Hv;
        auto.
      intros line i part name j _ _ Hn _. eapply hash_types_values; eauto.
    + rewrite lookup_empty in Hk. destruct Hk as [? [=]].
  - intros e'. destruct (is_Exception e) eqn:E; [discriminate|]. now intros [= <-].
  - intros r key. destruct (is_Exception e); [|discriminate].
    intros [= <-] Hk. rewrite lookup_empty in Hk. destruct Hk as [? [=]].
Qed.

Lemma benchmark_hashcat_outcomes_witness :
  In "MD5" algorithms /\
  exists c,
    fst (run_process one_tool hashcat_bench empty_world) = Ok c /\
    returncode c = 0 /\
    parse_hashcat_benchmark ("0 12.4 MH/s" ++ nl) = parse_hashcat_benchmark (stdout c).
Proof.
  destruct (benchmark_hashcat_outcomes one_tool empty_world) as [_ H].
  apply (H (parse_hashcat_benchmark ("0 12.4 MH/s" ++ nl)) "MD5").
  - reflexivity.
  - vm_compute. eauto.
Defined.

(** Property X15: the benchmark of the second tool.  [benchmark_john] raises
    no [Exception] and does not look at the exit code: when the run returns,
    the mapping is the parse of standard output followed by the error
    stream, and when the standard output ends with a line break it is the
    parse of the error stream laid over the parse of the standard output. *)
Theorem benchmark_john_reads_both_streams (h : host) (w : world) :
  (forall e, fst (benchmark_john h w) = Raise e -> is_Exception e = false) /\
  (forall c w',
     run_process h john_bench w = (Ok c, w') ->
     (exists m, benchmark_john h w = (Ok m, w') /\
                parse_john_benchmark (stdout c ++ stderr c) = Ok m) /\
     (forall out, stdout c = out ++ nl ->
        exists ma mb,
          parse_john_benchmark out = Ok ma /\
          parse_john_benchmark (stderr c) = Ok mb /\
          benchmark_john h w = (Ok (mb ∪ ma), w'))).
Proof.
  rewrite benchmark_john_cases. split.
  - destruct (run_process h john_bench w) as [[c|e] w']; cbn [fst].
    + destruct (parse_john_total (stdout c ++ stderr c)) as [m ->]. discriminate.
    + intros e'. destruct (is_Exception e) eqn:E; [discriminate|]. now intros [= <-].
  - intros c w' ->. split.
    + destruct (parse_john_total (stdout c ++ stderr c)) as [m ->]. eauto.
    + intros out ->. rewrite append_assoc.
      destruct (john_two_texts out (stderr c)) as (ma & mb & Ha & Hb & ->). eauto.
Qed.

Lemma benchmark_john_reads_both_streams_witness :
  exists ma mb,
    parse_john_benchmark "Raw-SHA1 : 2K c/s" = Ok ma /\
    parse_john_benchmark raw_md5_line = Ok mb /\
    benchmark_john reporting empty_world = (Ok (mb ∪ ma), empty_world).
Proof.
  destruct (benchmark_john_reads_both_streams reporting empty_world) as [_ H].
  destruct (H {| returncode := 1; stdout := "Raw-SHA1 : 2K c/s" ++ nl;
                 stderr := raw_md5_line |} empty_world eq_refl) as [_ H2].
  apply (H2 "Raw-SHA1 : 2K c/s"). reflexivity.
Defined.

(** ** The attacks and their files *)

Section Attacks.

Variable h : host.

Lemma timed_attack_entry (key : string) (argv : list string)
    (r : gmap string attack_result) (w : world) :
  timed_attack h key argv r w =
    (Ok (<[key := attack_entry (clock w) (run_process h argv w)]> r),
     snd (run_process h argv w)).
Proof.
  unfold timed_attack, try_except, bindM, time_time, subprocess_run, ret, attack_entry.
  destruct (run_process h argv w) as [[c|e] w']; reflexivity.
Qed.

Lemma fixture_names_differ (self : instance) :
  hash_file_name self <> wordlist_file_name self.
Proof. unfold hash_file_name, wordlist_file_name. cbn [String.append]. discriminate. Qed.

(** The method once both files are written. *)
Lemma run_attack_written (self : instance) (w : world) :
  let hf := hash_file_name self in
  let wf := wordlist_file_name self in
  let w2 := with_file wf (lines_text wordlist)
              (with_file hf (lines_text test_hashes) w) in
  let r1 := run_process h (hashcat_attack hf wf) w2 in
  let r2 := run_process h (john_attack hf wf) (snd r1) in
  write_error h hf w = None ->
  write_error h wf (with_file hf (lines_text test_hashes) w) = None ->
  run_attack_performance_test h self w =
    (Ok (<["john_dictionary" := attack_entry (clock (snd r1)) r2]>
           (<["hashcat_dictionary" := attack_entry (clock w2) r1]> ∅)),
     snd (cleanup h hf wf (snd r2))).
Proof.
  intros hf wf w2 r1 r2 H1 H2. unfold run_attack_performance_test.
  fold hf wf. unfold bindM at 1. unfold write_file at 1. rewrite H1.
  unfold bindM at 1. unfold write_file at 1. unfold with_file in H2. rewrite H2.
  fold (with_file hf (lines_text test_hashes) w).
  fold (with_file wf (lines_text wordlist) (with_file hf (lines_text test_hashes) w)).
  fold w2. unfold bindM at 1. rewrite timed_attack_entry. fold r1.
  unfold bindM at 1. rewrite timed_attack_entry. fold r2.
  unfold bindM. destruct (cleanup_ok h hf wf (snd r2)) as [w4 ->]. reflexivity.
Qed.


Lemma run_attack_keys (self : instance) (w w' : world)
    (results : gmap string attack_result) :
  run_attack_performance_test h self w = (Ok results, w') ->
  is_Some (results !! "hashcat_dictionary") /\
  is_Some (results !! "john_dictionary").
Proof.
  destruct (write_error h (hash_file_name self) w) as [e1|] eqn:H1.
  - unfold run_attack_performance_test, bindM, write_file. rewrite H1. discriminate.
  - destruct (write_error h (wordlist_file_name self)
                (with_file (hash_file_name self) (lines_text test_hashes) w))
      as [e2|] eqn:H2.
    + unfold run_attack_performance_test. unfold bindM at 1. unfold write_file at 1.
      rewrite H1. unfold bindM at 1. unfold write_file at 1.
      unfold with_file in H2. rewrite H2. discriminate.
    + rewrite (run_attack_written self w H1 H2). intros [= <- _]. split.
      * rewrite lookup_insert_ne by discriminate. rewrite lookup_insert_eq. eauto.
      * rewrite lookup_insert_eq. eauto.
Qed.

End Attacks.

(** Property X16: the two attack scenarios.  Once both fixture files are
    written, [run_attack_performance_test] attempts both attacks, one after
    the other, whatever [check_tool_availability] found and whatever the
    first attack did.  Each entry is that of its own run: the time between
    start and end and success exactly for exit code 0 when the run returns,
    and the integer 0 with [False] when the launch raises anything. *)
Theorem attack_entries (h : host) (self : instance) (w : world) :
  let hf := hash_file_name self in
  let wf := wordlist_file_name self in
  let w2 := with_file wf (lines_text wordlist)
              (with_file hf (lines_text test_hashes) w) in
  let r1 := run_process h (hashcat_attack hf wf) w2 in
  let r2 := run_process h (john_attack hf wf) (snd r1) in
  write_error h hf w = None ->
  write_error h wf (with_file hf (lines_text test_hashes) w) = None ->
  exists results,
    fst (run_attack_performance_test h self w) = Ok results /\
    results !! "hashcat_dictionary" = Some (attack_entry (clock w2) r1) /\
    results !! "john_dictionary" = Some (attack_entry (clock (snd r1)) r2) /\
    (forall key, key <> "hashcat_dictionary" -> key <> "john_dictionary" ->
       results !! key = None) /\
    (forall e, fst r1 = Raise e -> results !! "hashcat_dictionary" = Some failed_attack) /\
    (forall e, fst r2 = Raise e -> results !! "john_dictionary" = Some failed_attack).
Proof.
  intros hf wf w2 r1 r2 H1 H2.
  rewrite (run_attack_written h self w H1 H2). fold hf wf w2 r1 r2.
  eexists. split; [reflexivity|].
  assert (E1 : (<["john_dictionary" := attack_entry (clock (snd r1)) r2]>
                  (<["hashcat_dictionary" := attack_entry (clock w2) r1]> ∅) : gmap _ _)
               !! "hashcat_dictionary" = Some (attack_entry (clock w2) r1)).
  { rewrite lookup_insert_ne by discriminate. apply lookup_insert_eq. }
  assert (E2 : (<["john_dictionary" := attack_entry (clock (snd r1)) r2]>
                  (<["hashcat_dictionary" := attack_entry (clock w2) r1]> ∅) : gmap _ _)
               !! "john_dictionary" = Some (attack_entry (clock (snd r1)) r2)).
  { apply lookup_insert_eq. }
  split; [exact E1|]. split; [exact E2|]. split; [|split].
  - intros key K1 K2. rewrite !lookup_insert_ne by congruence. apply lookup_empty.
  - intros e He. rewrite E1. unfold attack_entry. now rewrite He.
  - intros e He. rewrite E2. unfold attack_entry. now rewrite He.
Qed.

Lemma attack_entries_witness :
  exists results,
    fst (run_attack_performance_test one_tool self0 empty_world) = Ok results /\
    results !! "hashcat_dictionary" =
      Some {| time_seconds := PyFloat zero; success := true |} /\
    results !! "john_dictionary" = Some failed_attack.
Proof.
  destruct (attack_entries one_tool self0 empty_world eq_refl eq_refl)
    as (results & H & H1 & H2 & _ & _ & H3).
  exists results. split; [exact H|]. split.
  - rewrite H1. vm_compute. reflexivity.
  - apply (H3 FileNotFoundError). reflexivity.
Defined.

(** Property X17: the clean-up stops at the first failure.  When the hash
    file cannot be removed, because the removal is refused or the file is
    gone, the clean-up changes nothing and the word list stays; when only
    the word list cannot be removed, the hash file alone is removed.
    Nothing is raised in either case. *)
Theorem cleanup_stops_at_first_failure (h : host) (hf wf : string) (w : world) :
  (remove_error h hf w <> None \/ files w !! hf = None ->
   cleanup h hf wf w = (Ok tt, w)) /\
  (remove_error h hf w = None -> is_Some (files w !! hf) ->
   remove_error h wf (without hf w) <> None \/ files (without hf w) !! wf = None ->
   cleanup h hf wf w = (Ok tt, without hf w)).
Proof.
  split.
  - intros H. unfold cleanup, try_except, bindM, os_remove, ret.
    destruct (remove_error h hf w); [reflexivity|].
    destruct H as [H|H]; [congruence|]. now rewrite H.
  - intros H1 H2 H3. unfold cleanup, try_except, bindM.
    rewrite (os_remove_done h hf w H1 H2). unfold os_remove, ret.
    destruct (remove_error h wf (without hf w)); [reflexivity|].
    destruct H3 as [H3|H3]; [congruence|]. now rewrite H3.
Qed.

Lemma cleanup_stops_at_first_failure_witness :
  cleanup hashes_kept "test_hashes_1.txt" "test_wordlist_1.txt"
    (with_file "test_wordlist_1.txt" "w" (with_file "test_hashes_1.txt" "h" empty_world)) =
    (Ok tt,
     with_file "test_wordlist_1.txt" "w" (with_file "test_hashes_1.txt" "h" empty_world)).
Proof.
  apply (cleanup_stops_at_first_failure hashes_kept).
  left. discriminate.
Defined.

Section Frame.

Lemma delete_fixtures (hf wf : string) (a b : string) (m : gmap string string) :
  delete wf (delete hf (<[wf := b]> (<[hf := a]> m))) = delete wf (delete hf m).
Proof.
  apply map_eq. intros k. rewrite !lookup_delete.
  destruct (decide (wf = k)); [reflexivity|].
  destruct (decide (hf = k)); [reflexivity|].
  rewrite !lookup_insert_ne by assumption. reflexivity.
Qed.

Lemma delete_absent (k : string) (m : gmap string string) :
  m !! k = None -> delete k m = m.
Proof.
  intros H. apply map_eq. intros j. rewrite lookup_delete.
  destruct (decide (k = j)); [congruence|reflexivity].
Qed.

End Frame.

(** Property X18: the files after the attacks.  On a machine whose tools
    leave the files as they are and that refuses no write and no removal,
    [run_attack_performance_test] ends with the files it found, less the two
    fixture paths: every other file is as before, a file that was at a
    fixture path is lost, and when no file was there the files are exactly
    those of the start. *)
Theorem fixtures_leave_no_trace (h : host) (self : instance) (w : world) :
  tools_keep_files h -> no_refusals h ->
  let hf := hash_file_name self in
  let wf := wordlist_file_name self in
  let w' := snd (run_attack_performance_test h self w) in
  files w' = delete wf (delete hf (files w)) /\
  (files w !! hf = None -> files w !! wf = None -> files w' = files w).
Proof.
  intros Hk Hr hf wf w'.
  assert (E : files w' = delete wf (delete hf (files w))).
  { subst w'. rewrite (run_attack_written h self w) by apply Hr.
    fold hf wf. cbn [snd].
    set (w2 := with_file wf (lines_text wordlist)
                 (with_file hf (lines_text test_hashes) w)).
    set (w3 := snd (run_process h (john_attack hf wf)
                      (snd (run_process h (hashcat_attack hf wf) w2)))).
    assert (F3 : files w3 = files w2) by (unfold w3; now rewrite !Hk).
    assert (Hne : hf <> wf) by apply fixture_names_differ.
    rewrite (cleanup_done h hf wf w3).
    - cbn [snd without files]. rewrite F3. apply delete_fixtures.
    - apply Hr.
    - rewrite F3. unfold w2. cbn [with_file files].
      rewrite lookup_insert_ne by congruence. rewrite lookup_insert_eq. eauto.
    - apply Hr.
    - cbn [without files]. rewrite F3. unfold w2. cbn [with_file files].
      rewrite lookup_delete_ne by congruence. rewrite lookup_insert_eq. eauto. }
  split; [exact E|].
  intros H1 H2. rewrite E. rewrite (delete_absent hf _ H1). now apply delete_absent.
Qed.

Lemma fixtures_leave_no_trace_witness :
  files (snd (run_attack_performance_test healthy self0 proc_world)) = files proc_world.
Proof.
  destruct (fixtures_leave_no_trace healthy self0 proc_world) as [_ H].
  - intros argv w. reflexivity.
  - intros path w. split; reflexivity.
  - apply H; reflexivity.
Defined.

(** ** The report *)

Section Report.

Variable h : host.



(** [generate_report], step by step. *)
Lemma generate_report_steps (self : instance) (w : world) :
  exists a b w1,
    check_tool_availability h w = (Ok (a, b), w1) /\
    generate_report h self w =
      bindM (if a then bindM (benchmark_hashcat h) (fun x => ret (Some x)) else ret None)
        (fun bh =>
           bindM (if b then bindM (benchmark_john h) (fun x => ret (Some x)) else ret None)
             (fun bj =>
                bindM (if a || b then run_attack_performance_test h self else ret ∅)
                  (fun tests =>
                     ret {| rp_metadata :=
                              {| md_timestamp := self_timestamp self;
                                 md_system_info := self_system_info self;
                                 md_tools_available :=
                                   {| hashcat := a; john_the_ripper := b |} |};
                            rp_benchmarks :=
                              {| bm_hashcat := bh; bm_john_the_ripper := bj |};
                            rp_performance_tests := tests |}))) w1.
Proof.
  eexists _, _, _. split; [apply check_tool_availability_flags|].
  unfold generate_report. unfold bindM at 1.
  rewrite check_tool_availability_flags. reflexivity.
Qed.

End Report.

(** Property X19: the shape of the report.  A report that [generate_report]
    returns carries the time stamp and the system information of the
    instance and the two flags [check_tool_availability] found; it has a
    benchmark mapping for a tool exactly when the tool's flag is set; and
    its attack results hold both scenarios as soon as one flag is set, also
    the scenario of the tool that is not available, and are empty when none
    is. *)
Theorem report_shape (h : host) (self : instance) (w w' : world) (rep : report) :
  generate_report h self w = (Ok rep, w') ->
  let t := md_tools_available (rp_metadata rep) in
  fst (check_tool_availability h w) = Ok (hashcat t, john_the_ripper t) /\
  md_timestamp (rp_metadata rep) = self_timestamp self /\
  md_system_info (rp_metadata rep) = self_system_info self /\
  (is_Some (bm_hashcat (rp_benchmarks rep)) <-> hashcat t = true) /\
  (is_Some (bm_john_the_ripper (rp_benchmarks rep)) <-> john_the_ripper t = true) /\
  (hashcat t || john_the_ripper t = true ->
   is_Some (rp_performance_tests rep !! "hashcat_dictionary") /\
   is_Some (rp_performance_tests rep !! "john_dictionary")) /\
  (hashcat t || john_the_ripper t = false -> rp_performance_tests rep = ∅).
Proof.
  destruct (generate_report_steps h self w) as (a & b & w1 & Hc & ->).
  rewrite Hc. cbn [fst]. unfold bindM at 1.
  assert (Hsome : forall A (x : A), is_Some (Some x) <-> true = true)
    by (intros; split; eauto).
  assert (Hnone : forall A, is_Some (@None A) <-> false = true).
  { intros; split; [intros [? [=]]|discriminate]. }
  destruct a.
  - unfold bindM at 1.
    destruct (benchmark_hashcat h w1) as [[bh|e] w2]; [|discriminate].
    unfold ret at 1. unfold bindM at 1.
    destruct b.
    + unfold bindM at 1.
      destruct (benchmark_john h w2) as [[bj|e] w3]; [|discriminate].
      unfold ret at 1. unfold bindM. cbn [orb].
      destruct (run_attack_performance_test h self w3) as [[tests|e] w4] eqn:R;
        [|discriminate].
      intros [= <- <-]. cbn.
      do 3 (split; [reflexivity|]).
      do 2 (split; [first [apply Hsome | apply Hnone]|]).
      split; [intros _; eapply run_attack_keys; eauto | discriminate].
    + unfold ret at 1. unfold bindM. cbn [orb].
      destruct (run_attack_performance_test h self w2) as [[tests|e] w4] eqn:R;
        [|discriminate].
      intros [= <- <-]. cbn.
      do 3 (split; [reflexivity|]).
      do 2 (split; [first [apply Hsome | apply Hnone]|]).
      split; [intros _; eapply run_attack_keys; eauto | discriminate].
  - unfold ret at 1. unfold bindM at 1.
    destruct b.
    + unfold bindM at 1.
      destruct (benchmark_john h w1) as [[bj|e] w3]; [|discriminate].
      unfold ret at 1. unfold bindM. cbn [orb].
      destruct (run_attack_performance_test h self w3) as [[tests|e] w4] eqn:R;
        [|discriminate].
      intros [= <- <-]. cbn.
      do 3 (split; [reflexivity|]).
      do 2 (split; [first [apply Hsome | apply Hnone]|]).
      split; [intros _; eapply run_attack_keys; eauto | discriminate].
    + unfold ret, bindM. cbn [orb]. intros [= <- <-]. cbn.
      do 3 (split; [reflexivity|]).
      do 2 (split; [first [apply Hsome | apply Hnone]|]).
      split; [discriminate | reflexivity].
Qed.

Lemma report_shape_witness :
  bm_john_the_ripper (rp_benchmarks one_tool_report) = None /\
  is_Some (rp_performance_tests one_tool_report !! "john_dictionary").
Proof.
  assert (E : generate_report one_tool self0 empty_world =
              (Ok one_tool_report, empty_world)) by (vm_compute; reflexivity).
  destruct (report_shape one_tool self0 empty_world empty_world one_tool_report E)
    as (_ & _ & _ & _ & _ & Ht & _).
  split; [reflexivity|]. apply Ht. reflexivity.
Defined.



(** ** Saving the report *)

Section Paths.

Lemma append_inv_head (a x y : string) : a ++ x = a ++ y -> x = y.
Proof.
  induction a as [|c a IH]; cbn [String.append]; [auto|].
  intros [= H]. auto.
Qed.


Lemma path_join_inj (a b1 b2 : string) :
  String.prefix "/" b1 = false -> String.prefix "/" b2 = false ->
  path_join a b1 = path_join a b2 -> b1 = b2.
Proof.
  intros H1 H2. unfold path_join. rewrite H1, H2.
  destruct (String.eqb a EmptyString); [apply append_inv_head|].
  destruct (last_char a) as [c|e]; [|apply append_inv_head].
  destruct (Ascii.eqb c "/"); [apply append_inv_head|].
  intros H. apply append_inv_head in H. now apply append_inv_head in H.
Qed.

Lemma report_files_differ (self : instance) (dir : string) :
  json_file_name self dir <> csv_file_name self dir.
Proof.
  unfold json_file_name, csv_file_name. intros H.
  apply path_join_inj in H; [|reflexivity|reflexivity].
  cbn [String.append] in H. discriminate.
Qed.

End Paths.

(** Property X21: the two report files.  [save_results] writes the JSON
    report first and the CSV summary second, to two different paths of the
    output directory.  A refused first write leaves the files as they are; a
    refused second write leaves the JSON report in place; in both cases the
    exception leaves the method. *)
Theorem save_results_writes_json_first (h : host) (lib : library)
    (self : instance) (rep : report) (dir : string) (w : world) :
  let jf := json_file_name self dir in
  let cf := csv_file_name self dir in
  let w1 := with_file jf (json_dump lib rep) w in
  jf <> cf /\
  (forall e, write_error h jf w = Some e ->
     save_results h lib self rep dir w = (Raise e, w)) /\
  (write_error h jf w = None ->
     (forall e, write_error h cf w1 = Some e ->
        save_results h lib self rep dir w = (Raise e, w1)) /\
     (write_error h cf w1 = None ->
        save_results h lib self rep dir w =
          (Ok tt, with_file cf (csv_text lib (csv_rows lib rep)) w1) /\
        files (snd (save_results h lib self rep dir w)) !! jf =
          Some (json_dump lib rep))).
Proof.
  intros jf cf w1. split; [apply report_files_differ|]. split.
  - intros e H. unfold save_results, bindM, write_file. fold jf. now rewrite H.
  - intros H. split.
    + intros e H2. unfold save_results. fold jf cf.
      unfold bindM at 1. unfold write_file at 1. rewrite H.
      fold (with_file jf (json_dump lib rep) w). fold w1.
      unfold bindM, write_file. now rewrite H2.
    + intros H2.
      assert (E : save_results h lib self rep dir w =
                  (Ok tt, with_file cf (csv_text lib (csv_rows lib rep)) w1)).
      { unfold save_results. fold jf cf.
        unfold bindM at 1. unfold write_file at 1. rewrite H.
        fold (with_file jf (json_dump lib rep) w). fold w1.
        unfold bindM, write_file. now rewrite H2. }
      split; [exact E|]. rewrite E. cbn [snd with_file files].
      rewrite lookup_insert_ne by (intros Heq; now apply (report_files_differ self dir)).
      apply lookup_insert_eq.
Qed.

Lemma save_results_writes_json_first_witness :
  save_results reports_refused sorted_library self0
    {| rp_metadata :=
         {| md_timestamp := self_timestamp self0;
            md_system_info := self_system_info self0;
            md_tools_available := {| hashcat := false; john_the_ripper := false |} |};
       rp_benchmarks := {| bm_hashcat := None; bm_john_the_ripper := None |};
       rp_performance_tests := ∅ |} "out" empty_world = (Raise OSError, empty_world).
Proof.
  match goal with
  | |- save_results ?h ?lib ?self ?rep ?dir ?w = _ =>
      destruct (save_results_writes_json_first h lib self rep dir w) as (_ & H & _)
  end.
  apply H. reflexivity.
Defined.

Section Rows.

Variable lib : library.
Hypothesis items : items_are_entries lib.

Lemma items_length {V} (m : gmap string V) :
  length (dict_items lib V m) = size m.
Proof. rewrite (items V m). apply length_map_to_list. Qed.

Lemma items_in {V} (m : gmap string V) (k : string) (v : V) :
  In (k, v) (dict_items lib V m) <-> m !! k = Some v.
Proof.
  rewrite <- elem_of_map_to_list, <- (items V m). symmetry. apply list_elem_of_In.
Qed.

End Rows.

(** Property X22: the rows of the summary.  Whatever the order in which the
    dictionaries yield their entries, the rows handed to the CSV writer are
    the header, then one row of four cells for each entry of the mapping of
    the first tool, all labelled [Hashcat], then one for each entry of the
    mapping of the second tool, all labelled [John the Ripper]; a tool
    without benchmark mapping has no row. *)
Theorem csv_rows_are_entries (lib : library) (rep : report) :
  items_are_entries lib ->
  let bh := get_or_empty (bm_hashcat (rp_benchmarks rep)) in
  let bj := get_or_empty (bm_john_the_ripper (rp_benchmarks rep)) in
  Forall (fun row => length row = 4%nat) (csv_rows lib rep) /\
  (exists rh rj,
     csv_rows lib rep = (csv_header :: rh ++ rj)%list /\
     length rh = size bh /\ length rj = size bj /\
     Forall (fun row => nth_error row 0 = Some (CStr "Hashcat")) rh /\
     Forall (fun row => nth_error row 0 = Some (CStr "John the Ripper")) rj) /\
  (forall k v, bh !! k = Some v <-> In (hashcat_row (k, v)) (csv_rows lib rep)) /\
  (forall k v, bj !! k = Some v <-> In (john_row (k, v)) (csv_rows lib rep)).
Proof.
  intros Hitems bh bj. unfold csv_rows. fold bh bj.
  split; [|split; [|split]].
  - constructor; [reflexivity|]. apply List.Forall_app. split.
    + apply List.Forall_forall. intros row Hrow. apply in_map_iff in Hrow as (kv & <- & _).
      reflexivity.
    + apply List.Forall_forall. intros row Hrow. apply in_map_iff in Hrow as (kv & <- & _).
      reflexivity.
  - eexists _, _. split; [reflexivity|].
    rewrite !length_map, !(items_length lib Hitems).
    split; [reflexivity|]. split; [reflexivity|]. split.
    + apply List.Forall_forall. intros row Hrow. apply in_map_iff in Hrow as (kv & <- & _).
      reflexivity.
    + apply List.Forall_forall. intros row Hrow. apply in_map_iff in Hrow as (kv & <- & _).
      reflexivity.
  - intros k v. rewrite <- (items_in lib Hitems). split.
    + intros H. right. apply in_or_app. left. now apply in_map.
    + intros [H|H]; [discriminate H|].
      apply in_app_or in H as [H|H]; apply in_map_iff in H as ([k' v'] & E & Hin).
      * unfold hashcat_row in E. cbn [fst snd] in E.
        destruct v as [s f], v' as [s' f']. cbn in E. now injection E as -> -> ->.
      * discriminate E.
  - intros k v. rewrite <- (items_in lib Hitems). split.
    + intros H. right. apply in_or_app. right. now apply in_map.
    + intros [H|H]; [discriminate H|].
      apply in_app_or in H as [H|H]; apply in_map_iff in H as ([k' v'] & E & Hin).
      * discriminate E.
      * unfold john_row in E. cbn [fst snd] in E.
        destruct v as [s f], v' as [s' f']. cbn in E. now injection E as -> -> ->.
Qed.

Lemma csv_rows_are_entries_witness :
  In (hashcat_row ("MD5", {| speed_hs := f12_4; speed_formatted := "12.4 MH/s" |}))
    (csv_rows sorted_library
       {| rp_metadata :=
            {| md_timestamp := self_timestamp self0;
               md_system_info := self_system_info self0;
               md_tools_available := {| hashcat := true; john_the_ripper := false |} |};
          rp_benchmarks :=
            {| bm_hashcat := Some (parse_hashcat_benchmark "0 12.4 MH/s");
               bm_john_the_ripper := None |};
          rp_performance_tests := ∅ |}).
Proof.
  match goal with
  | |- In _ (csv_rows ?lib ?rep) =>
      destruct (csv_rows_are_entries lib rep) as (_ & _ & H & _)
  end.
  - intros V m. reflexivity.
  - apply H. vm_compute. reflexivity.
Defined.

Section Main.

Variable h : host.
Variable lib : library.

Lemma gather_system_info_raises (w : world) (e : exn) :
  fst (gather_system_info h w) = Raise e -> is_Exception e = false.
Proof.
  rewrite gather_system_info_factor.
  destruct (fst (collect_cpu h (info0 h) w)) as [i1|e1].
  - destruct (fst (collect_memory h (info0 h) w)) as [i2|e2]; cbn zeta.
    + discriminate.
    + destruct (is_Exception e2) eqn:E; [discriminate|]. now intros [= <-].
  - destruct (is_Exception e1) eqn:E; [discriminate|]. now intros [= <-].
Qed.

Lemma main_steps (a : args) (w : world) :
  main h lib a w =
    match init_instance h w with
    | (Raise e, w1) => (Raise e, w1)
    | (Ok self, w1) =>
        match generate_report h self w1 with
        | (Raise _, w2) => (Ok 1, w2)
        | (Ok rep, w2) =>
            match save_results h lib self rep (output_dir a) w2 with
            | (Raise _, w3) => (Ok 1, w3)
            | (Ok _, w3) => (Ok 0, w3)
            end
        end
    end.
Proof.
  unfold main. unfold bindM at 1.
  destruct (init_instance h w) as [[self|e] w1]; [|reflexivity].
  unfold try_except, bindM, ret.
  destruct (generate_report h self w1) as [[rep|e] w2]; [|reflexivity].
  destruct (save_results h lib self rep (output_dir a) w2) as [[[]|e] w3]; reflexivity.
Qed.

End Main.

(** Property X23: how [main] ends.  Once the instance is built, [main] ends
    with exit status 0 or 1 and raises nothing: status 1 and no report file
    when [generate_report] raises, the files being those [generate_report]
    left; status 1 when a report file cannot be written; status 0 otherwise.
    While the instance is built only what is no [Exception] can be raised,
    and nothing handles it. *)
Theorem main_exit_status (h : host) (lib : library) (a : args) (w : world) :
  (forall e w1, init_instance h w = (Raise e, w1) ->
     main h lib a w = (Raise e, w1) /\ is_Exception e = false) /\
  (forall self w1, init_instance h w = (Ok self, w1) ->
     (forall e w2, generate_report h self w1 = (Raise e, w2) ->
        main h lib a w = (Ok 1, w2)) /\
     (forall rep w2, generate_report h self w1 = (Ok rep, w2) ->
        let saved := save_results h lib self rep (output_dir a) w2 in
        main h lib a w = (Ok (if raises (fst saved) then 1 else 0), snd saved))).
Proof.
  rewrite main_steps. split.
  - intros e w1 Hi. rewrite Hi. split; [reflexivity|].
    unfold init_instance, bindM, ret in Hi.
    destruct (gather_system_info h w) as [[info|e'] w'] eqn:G; [discriminate|].
    injection Hi as <- <-. apply (gather_system_info_raises h w). now rewrite G.
  - intros self w1 ->. split.
    + intros e w2 ->. reflexivity.
    + intros rep w2 ->. cbn zeta.
      destruct (save_results h lib self rep (output_dir a) w2) as [[[]|e] w3];
        reflexivity.
Qed.

Lemma main_exit_status_witness :
  main hashes_refused sorted_library
    {| output_dir := "."; quiet := false; json_only := false |} empty_world =
    (Ok 1, empty_world).
Proof.
  destruct (main_exit_status hashes_refused sorted_library
              {| output_dir := "."; quiet := false; json_only := false |} empty_world)
    as [_ H].
  edestruct H as [H1 _]; [vm_compute; reflexivity|].
  apply (H1 OSError). vm_compute. reflexivity.
Defined.
